(** * Mutual-fund asset allocation engine: a shallow embedding

    The Python module [asset_allocation_engine.py] is embedded function by
    function.  Conventions of the embedding:

    - Python [int] values ([age]) are [Z].  Python [float] values are
      modelled twice.  The first embedding takes them as exact rationals in
      canonical form ([Qc]): it carries the statements about order,
      structure, sharing and tolerances, which do not depend on how a
      product or a sum is rounded.  The second embedding (module [Dbl], over
      the doubles of module [F64]) rounds every operation to the nearest
      IEEE 754 double, has the infinities and NaN, and lets [round] raise
      the way Python's does: it carries the statements that pin a computed
      value, a comparison of computed values or an exception.
    - A Python [dict] is an insertion-ordered association list ([dict V]):
      [dict_set] overwrites in place or appends, [dict_get] is a lookup.
    - [FundAllocation] objects live in an explicit store ([heap]); the
      dictionaries of the engine map keys to references into it, so two
      dictionaries can share one object the way the Python ones do.
    - Code that threads the store and can raise is written in a small
      state-and-exception monad ([M]). *)

From Stdlib Require Import ZArith QArith Qcanon Qpower Qabs Lia Lqa String Ascii List.
From stdpp Require Import base list.
Import ListNotations.

Local Open Scope Z_scope.

(** ** Numbers *)

Module Num.

Definition of_Z (n : Z) : Qc := Q2Qc (inject_Z n).

Definition ltb (x y : Qc) : bool :=
  match (x ?= y)%Qc with Lt => true | _ => false end.

Definition leb (x y : Qc) : bool :=
  match (x ?= y)%Qc with Gt => false | _ => true end.

Definition gtb (x y : Qc) : bool := ltb y x.
Definition geb (x y : Qc) : bool := leb y x.

(** Python's [max(a, b)] returns [b] only when [b > a]; [min(a, b)]
    returns [b] only when [b < a]. *)
Definition max (a b : Qc) : Qc := if gtb b a then b else a.
Definition min (a b : Qc) : Qc := if ltb b a then b else a.

(** Python's [abs]. *)
Definition abs (x : Qc) : Qc := if ltb x (of_Z 0) then (- x)%Qc else x.

(** Round half to even, the rule of Python 3's [round]. *)
Definition round_half_even (x : Qc) : Z :=
  let n := Qnum x in
  let d := Zpos (Qden x) in
  let q := n / d in
  let r := n mod d in
  match 2 * r ?= d with
  | Lt => q
  | Gt => q + 1
  | Eq => if Z.even q then q else q + 1
  end.

(** [round(x, 2)]. *)
Definition round2 (x : Qc) : Qc :=
  Q2Qc (round_half_even (x * of_Z 100)%Qc # 100).

(** Python's [sum]: starts from [0] and adds from the left. *)
Definition sum (l : list Qc) : Qc :=
  fold_left (fun acc x => (acc + x)%Qc) l (of_Z 0).

End Num.

Abbreviation qz := Num.of_Z.

(** ** Strings *)

Module Str.

Definition is_upper (c : ascii) : bool :=
  let n := nat_of_ascii c in ((65 <=? n) && (n <=? 90))%nat.
Definition is_lower (c : ascii) : bool :=
  let n := nat_of_ascii c in ((97 <=? n) && (n <=? 122))%nat.
Definition upper (c : ascii) : ascii :=
  if is_lower c then ascii_of_nat (nat_of_ascii c - 32) else c.
Definition lower (c : ascii) : ascii :=
  if is_upper c then ascii_of_nat (nat_of_ascii c + 32) else c.

(** [str.title()] on ASCII text: a letter that follows a letter is
    lowercased, any other letter is uppercased. *)
Fixpoint title_from (prev_cased : bool) (s : string) : string :=
  match s with
  | EmptyString => EmptyString
  | String c s' =>
      if is_upper c || is_lower c
      then String (if prev_cased then lower c else upper c) (title_from true s')
      else String c (title_from false s')
  end.
Definition title (s : string) : string := title_from false s.

(** [s.replace("_", " ")]. *)
Fixpoint underscores_to_spaces (s : string) : string :=
  match s with
  | EmptyString => EmptyString
  | String c s' =>
      String (if Ascii.eqb c "_"%char then " "%char else c) (underscores_to_spaces s')
  end.

(** [sep.join(parts)]. *)
Fixpoint join (sep : string) (parts : list string) : string :=
  match parts with
  | [] => ""%string
  | [p] => p
  | p :: rest => (p ++ sep ++ join sep rest)%string
  end.

End Str.

(** ** Dictionaries *)

Abbreviation dict V := (list (string * V)).

Section Dict.
Context {V : Type}.

Fixpoint dict_get (d : dict V) (k : string) : option V :=
  match d with
  | [] => None
  | (k', v) :: d' => if String.eqb k' k then Some v else dict_get d' k
  end.

(** [d[k] = v]: an existing key keeps its position, a new key goes last. *)
Fixpoint dict_set (d : dict V) (k : string) (v : V) : dict V :=
  match d with
  | [] => [(k, v)]
  | (k', v') :: d' =>
      if String.eqb k' k then (k', v) :: d' else (k', v') :: dict_set d' k v
  end.

Definition dict_keys (d : dict V) : list string := map fst d.
Definition dict_values (d : dict V) : list V := map snd d.

(** [{**a, **b}]. *)
Definition dict_merge (a b : dict V) : dict V :=
  fold_left (fun acc kv => dict_set acc (fst kv) (snd kv)) b a.

End Dict.

(** ** Data model *)

Inductive RiskProfile := conservative | moderate | aggressive.

Inductive EquityStrategy :=
  index_core | market_weighted | balanced_growth | aggressive_growth.

Inductive GoalTimeframe := short_term | medium_term | long_term.

(** The string a [Literal] value is at run time. *)
Definition risk_profile_name (r : RiskProfile) : string :=
  match r with
  | conservative => "conservative"
  | moderate => "moderate"
  | aggressive => "aggressive"
  end.

Definition equity_strategy_name (s : EquityStrategy) : string :=
  match s with
  | index_core => "index_core"
  | market_weighted => "market_weighted"
  | balanced_growth => "balanced_growth"
  | aggressive_growth => "aggressive_growth"
  end.

Definition goal_timeframe_name (t : GoalTimeframe) : string :=
  match t with
  | short_term => "short_term"
  | medium_term => "medium_term"
  | long_term => "long_term"
  end.

Record FinancialGoal := {
  goal_name : string;
  target_amount : Qc;
  years_to_goal : Z;
  priority : Z;
  monthly_allocation : Qc
}.

Definition timeframe (g : FinancialGoal) : GoalTimeframe :=
  if (years_to_goal g <=? 3)%Z then short_term
  else if (years_to_goal g <=? 7)%Z then medium_term
  else long_term.

Record UserProfile := {
  age : Z;
  monthly_income : Qc;
  monthly_investment : Qc;
  lump_sum_investment : Qc;
  risk_profile : option RiskProfile;
  has_emergency_fund : bool;
  has_adequate_insurance : bool;
  custom_equity_percentage : option Qc;
  goals : list FinancialGoal
}.

Record FundAllocation := {
  category : string;
  subcategory : string;
  percentage : Qc;
  amount : Qc;
  recommended_funds : list string
}.

Definition with_amount (a : FundAllocation) (x : Qc) : FundAllocation :=
  {| category := category a;
     subcategory := subcategory a;
     percentage := percentage a;
     amount := x;
     recommended_funds := recommended_funds a |}.

(** ** The object store and the monad of the engine *)

Abbreviation ref := nat.
Abbreviation heap := (list FundAllocation).

(** [ValueError] and [KeyError] are the two exceptions the module can
    raise.  [StoreFault] is the read of a reference that was never
    allocated: it has no counterpart in Python and is shown unreachable. *)
Inductive exn :=
| ValueError (msg : string)
| KeyError (key : string)
| StoreFault (r : ref).

Inductive outcome (A : Type) :=
| Ok (a : A)
| Raise (e : exn).
Arguments Ok {A} a.
Arguments Raise {A} e.

Definition M (A : Type) : Type := heap -> outcome A * heap.

Definition ret {A} (a : A) : M A := fun h => (Ok a, h).

Definition bind {A B} (m : M A) (k : A -> M B) : M B :=
  fun h =>
    match m h with
    | (Ok a, h') => k a h'
    | (Raise e, h') => (Raise e, h')
    end.

Definition raise {A} (e : exn) : M A := fun h => (Raise e, h).

Definition lift {A} (o : outcome A) : M A := fun h => (o, h).

Notation "'do' x <- m ; k" := (bind m (fun x => k))
  (at level 10, x name, m at level 100, k at level 200).
Notation "'do' ' pat <- m ; k" := (bind m (fun x => match x with pat => k end))
  (at level 10, pat pattern, m at level 100, k at level 200).

(** [FundAllocation(category=.., subcategory=.., percentage=..)]: a new
    object, with the dataclass defaults for the other two fields. *)
Definition new_FundAllocation (cat sub : string) (pct : Qc) : M ref :=
  fun h =>
    (Ok (List.length h),
     h ++ [ {| category := cat; subcategory := sub; percentage := pct;
               amount := qz 0; recommended_funds := [] |} ]).

Definition read (r : ref) : M FundAllocation :=
  fun h =>
    match h !! r with
    | Some a => (Ok a, h)
    | None => (Raise (StoreFault r), h)
    end.

(** [allocation.amount = x]. *)
Definition set_amount (r : ref) (x : Qc) : M unit :=
  fun h =>
    match h !! r with
    | Some a => (Ok tt, <[ r := with_amount a x ]> h)
    | None => (Raise (StoreFault r), h)
    end.

(** A [for] loop over the items of a dictionary that updates [acc]. *)
Fixpoint for_items {V A} (items : dict V) (acc : A)
    (body : A -> string -> V -> M A) : M A :=
  match items with
  | [] => ret acc
  | (k, v) :: rest => do acc' <- body acc k v; for_items rest acc' body
  end.

(** [table[key]], raising [KeyError] for a missing key. *)
Definition subscript {V} (table : dict V) (key : string) : outcome V :=
  match dict_get table key with
  | Some v => Ok v
  | None => Raise (KeyError key)
  end.

(** ** [UserProfile.validate] *)

Definition err_age : string := "Age must be between 18 and 100".
Definition err_income : string := "Monthly income cannot be negative".
Definition err_investment : string := "Monthly investment cannot be negative".
Definition err_exceeds : string := "Monthly investment cannot exceed monthly income".
Definition err_lumpsum : string := "Lumpsum investment cannot be negative".
Definition err_custom : string := "Custom equity percentage must be between 0 and 100".

Definition validate (p : UserProfile) : bool * list string :=
  let errors := [] in
  let errors :=
    if (age p <? 18)%Z || (age p >? 100)%Z then errors ++ [err_age] else errors in
  let errors :=
    if Num.ltb (monthly_income p) (qz 0) then errors ++ [err_income] else errors in
  let errors :=
    if Num.ltb (monthly_investment p) (qz 0)
    then errors ++ [err_investment] else errors in
  let errors :=
    if Num.gtb (monthly_investment p) (monthly_income p)
    then errors ++ [err_exceeds] else errors in
  let errors :=
    if Num.ltb (lump_sum_investment p) (qz 0)
    then errors ++ [err_lumpsum] else errors in
  let errors :=
    match custom_equity_percentage p with
    | Some c =>
        if Num.ltb c (qz 0) || Num.gtb c (qz 100)
        then errors ++ [err_custom] else errors
    | None => errors
    end in
  (Nat.eqb (List.length errors) 0, errors).

Definition get_investment_summary (p : UserProfile) : dict Qc :=
  let annual_sip := (monthly_investment p * qz 12)%Qc in
  let total_first_year := (annual_sip + lump_sum_investment p)%Qc in
  [ ("monthly_sip"%string, monthly_investment p);
    ("annual_sip"%string, annual_sip);
    ("lumpsum"%string, lump_sum_investment p);
    ("first_year_total"%string, total_first_year) ].

(** ** [AssetAllocationPlan] *)

Record AssetAllocationPlan := {
  user_profile : UserProfile;
  equity_percentage : Qc;
  debt_percentage : Qc;
  equity_allocations : dict ref;
  debt_allocations : dict ref;
  monthly_sip_breakdown : dict Qc;
  lumpsum_breakdown : dict Qc;
  rebalancing_triggers : dict (Qc * Qc);
  warnings : list string;
  recommendations : list string;
  created_at : Z
}.

Definition get_total_funds_count (plan : AssetAllocationPlan) : nat :=
  (List.length (equity_allocations plan) + List.length (debt_allocations plan))%nat.

Definition get_all_allocations (plan : AssetAllocationPlan) : dict ref :=
  dict_merge (equity_allocations plan) (debt_allocations plan).

(** ** Strategy tables *)

Definition equity_templates : dict (dict Z) :=
  [ ("index_core"%string, [ ("index"%string, 100) ]);
    ("market_weighted"%string,
       [ ("largecap"%string, 70); ("midcap"%string, 20); ("smallcap"%string, 10) ]);
    ("balanced_growth"%string,
       [ ("largecap"%string, 45); ("midcap"%string, 30); ("smallcap"%string, 25) ]);
    ("aggressive_growth"%string,
       [ ("largecap"%string, 35); ("midcap"%string, 35); ("smallcap"%string, 30) ]) ].

Definition debt_templates : dict (dict Z) :=
  [ ("long_term"%string, [ ("FD"%string, 100) ]) ].

Definition equity_splits : dict Z :=
  [ ("aggressive"%string, 85); ("moderate"%string, 65); ("conservative"%string, 45) ].

Definition get_risk_profile_from_age (age : Z) : RiskProfile :=
  if (age <? 35)%Z then aggressive
  else if (age <? 55)%Z then moderate
  else conservative.

Definition get_equity_allocation_from_risk_profile (r : RiskProfile) : outcome Qc :=
  match subscript equity_splits (risk_profile_name r) with
  | Ok pct => Ok (qz pct)
  | Raise e => Raise e
  end.

(** ** [AssetAllocationEngine] *)

Definition calculate_equity_debt_split (profile : UserProfile) : outcome (Qc * Qc) :=
  match custom_equity_percentage profile with
  | Some c =>
      let equity_pct := Num.max (qz 0) (Num.min (qz 100) c) in
      Ok (equity_pct, (qz 100 - equity_pct)%Qc)
  | None =>
      match risk_profile profile with
      | Some r =>
          match get_equity_allocation_from_risk_profile r with
          | Ok equity_pct => Ok (equity_pct, (qz 100 - equity_pct)%Qc)
          | Raise e => Raise e
          end
      | None =>
          let equity_pct :=
            Num.max (qz 20) (Num.min (qz 80) (qz (100 - age profile))) in
          let debt_pct := (qz 100 - equity_pct)%Qc in
          Ok (equity_pct, debt_pct)
      end
  end.

Definition get_age_based_strategy (age : Z) : EquityStrategy :=
  if (age <? 35)%Z then aggressive_growth
  else if (age <? 50)%Z then balanced_growth
  else market_weighted.

Definition subcategory_of (fund_type : string) : string :=
  Str.underscores_to_spaces (Str.title fund_type).

Definition allocate_equity (equity_pct : Qc) (strategy : EquityStrategy)
    (add_international : bool) (sector_allocation : Qc) : M (dict ref) :=
  do template <- lift (subscript equity_templates (equity_strategy_name strategy));
  let allocations : dict ref := [] in
  let international_pct := if add_international then qz 10 else qz 0 in
  let sector_pct := Num.min (qz 15) (Num.max (qz 0) sector_allocation) in
  let base_pct := (qz 100 - international_pct - sector_pct)%Qc in
  do allocations <-
    for_items template allocations (fun allocations fund_type template_pct =>
      let actual_pct :=
        ((qz template_pct / qz 100) * (equity_pct * base_pct / qz 100))%Qc in
      do r <- new_FundAllocation "Equity" (subcategory_of fund_type)
                (Num.round2 actual_pct);
      ret (dict_set allocations fund_type r));
  do allocations <-
    (if add_international then
       do r <- new_FundAllocation "Equity" "International Equity"
                 (Num.round2 (equity_pct * international_pct / qz 100)%Qc);
       ret (dict_set allocations "international" r)
     else ret allocations);
  do allocations <-
    (if Num.gtb sector_pct (qz 0) then
       do r <- new_FundAllocation "Equity" "Sector/Thematic"
                 (Num.round2 (equity_pct * sector_pct / qz 100)%Qc);
       ret (dict_set allocations "sector" r)
     else ret allocations);
  ret allocations.

Definition allocate_debt (debt_pct : Qc) (strategy : GoalTimeframe) : M (dict ref) :=
  do template <- lift (subscript debt_templates (goal_timeframe_name strategy));
  let allocations : dict ref := [] in
  for_items template allocations (fun allocations fund_type template_pct =>
    let actual_pct := ((qz template_pct / qz 100) * debt_pct)%Qc in
    do r <- new_FundAllocation "Debt" (subcategory_of fund_type)
              (Num.round2 actual_pct);
    ret (dict_set allocations fund_type r)).

Definition calculate_fund_amounts (allocations : dict ref) (total_amount : Qc)
    : M (dict Qc) :=
  let breakdown : dict Qc := [] in
  for_items allocations breakdown (fun breakdown fund_name allocation =>
    do a <- read allocation;
    let amount := ((percentage a / qz 100) * total_amount)%Qc in
    do _ <- set_amount allocation (Num.round2 amount);
    ret (dict_set breakdown fund_name (Num.round2 amount))).

Definition set_rebalancing_triggers (allocations : dict ref) (drift_threshold : Qc)
    : M (dict (Qc * Qc)) :=
  let triggers : dict (Qc * Qc) := [] in
  for_items allocations triggers (fun triggers fund_name allocation =>
    do a <- read allocation;
    let target := percentage a in
    let lower_trigger := Num.max (qz 0) (target - drift_threshold)%Qc in
    let upper_trigger := Num.min (qz 100) (target + drift_threshold)%Qc in
    ret (dict_set triggers fund_name
           (Num.round2 lower_trigger, Num.round2 upper_trigger))).

(** ** Advisory texts *)

Definition warn_emergency_fund : string :=
  "⚠️ CRITICAL: Build 6 months of emergency fund before investing heavily in equity. Keep this in liquid/savings accounts for immediate access.".
Definition warn_insurance : string :=
  "⚠️ IMPORTANT: Ensure adequate term life insurance (10-15x annual income) and comprehensive health insurance before aggressive equity allocation.".
Definition warn_high_equity : string :=
  "⚠️ Very high equity allocation (>80%). Expect significant volatility. Only suitable for investors with 10+ year time horizon and high risk tolerance.".
Definition warn_age : string :=
  "⚠️ At age 60+, consider reducing equity exposure for capital preservation. Current allocation may be aggressive for typical retirement needs.".
Definition warn_low_investment : string :=
  "💡 Consider increasing monthly investment gradually as income grows. Even small increases compound significantly over time.".
Definition warn_investment_ratio : string :=
  "⚠️ Investing >50% of monthly income is aggressive. Ensure you have adequate funds for living expenses and emergencies.".
Definition rec_simplicity : string :=
  "📋 SIMPLICITY: Keep portfolio simple with 5-7 funds total. ".
Definition rec_rebalancing : string :=
  "🔄 REBALANCING: Review portfolio annually. Rebalance when any allocation drifts 5-10% from target. Sell outperformers, buy underperformers to maintain risk profile.".
Definition rec_market_timing : string :=
  "⏱️ NO MARKET TIMING: Never try to time the market. Use 'thali approach' - maintain diversified portions matching your age, goals, and risk appetite.".
Definition rec_index_funds : string :=
  "📊 INDEX FUNDS: Use low-cost index funds (Nifty 50/Sensex) as core equity holdings. They provide market returns with minimal expense ratios (0.05-0.20%).".
Definition rec_sip : string :=
  "💰 SIP DISCIPLINE: Continue SIPs regardless of market conditions. Rupee cost averaging works best over 10+ years. Increase SIPs with salary growth.".
Definition rec_goal_based : string :=
  "🎯 GOAL-BASED: Align investments with specific goals. Short-term (<3 years) → Debt funds. Long-term (10+ years) → Equity funds.".
Definition rec_tax : string :=
  "💸 TAX EFFICIENCY: Hold equity funds >1 year for LTCG tax benefits. Consider ELSS for Section 80C deductions (3-year lock-in).".
Definition rec_fund_selection : string :=
  "🔍 FUND SELECTION: Choose funds with consistent top-quartile performance over 10+ years. Prioritize low expense ratios and experienced fund managers.".
Definition rec_review : string :=
  "📅 REVIEW SCHEDULE: Review portfolio quarterly but rebalance only when portfolio allocation across catogaries changes beyond 5-10% threshold. ".

Definition generate_warnings (profile : UserProfile) (equity_pct : Qc) : list string :=
  let warnings := [] in
  let warnings :=
    if negb (has_emergency_fund profile) && Num.gtb equity_pct (qz 50)
    then warnings ++ [warn_emergency_fund] else warnings in
  let warnings :=
    if negb (has_adequate_insurance profile)
    then warnings ++ [warn_insurance] else warnings in
  let warnings :=
    if Num.gtb equity_pct (qz 80)
    then warnings ++ [warn_high_equity] else warnings in
  let warnings :=
    if (age profile >? 60)%Z && Num.gtb equity_pct (qz 50)
    then warnings ++ [warn_age] else warnings in
  let warnings :=
    if Num.ltb (monthly_investment profile) (qz 5000)
    then warnings ++ [warn_low_investment] else warnings in
  let investment_ratio :=
    if Num.gtb (monthly_income profile) (qz 0)
    then (monthly_investment profile / monthly_income profile * qz 100)%Qc
    else qz 0 in
  let warnings :=
    if Num.gtb investment_ratio (qz 50)
    then warnings ++ [warn_investment_ratio] else warnings in
  warnings.

Definition generate_recommendations (profile : UserProfile) (equity_pct : Qc)
    (num_funds : nat) : list string :=
  let recs := [] in
  let recs := recs ++ [rec_simplicity] in
  let recs := recs ++ [rec_rebalancing] in
  let recs := recs ++ [rec_market_timing] in
  let recs :=
    if Num.gtb equity_pct (qz 30) then recs ++ [rec_index_funds] else recs in
  let recs :=
    if Num.gtb (monthly_investment profile) (qz 0)
    then recs ++ [rec_sip] else recs in
  let recs := recs ++ [rec_goal_based] in
  let recs :=
    if Num.gtb equity_pct (qz 40) then recs ++ [rec_tax] else recs in
  let recs := recs ++ [rec_fund_selection] in
  let recs := recs ++ [rec_review] in
  recs.

(** [create_plan]; [now] is the clock reading the dataclass default
    [datetime.now] stores in [created_at]. *)
Definition create_plan (profile : UserProfile)
    (equity_strategy : option EquityStrategy) (debt_strategy : GoalTimeframe)
    (add_international : bool) (sector_allocation : Qc) (drift_threshold : Qc)
    (now : Z) : M AssetAllocationPlan :=
  let '(is_valid, errors) := validate profile in
  if negb is_valid
  then raise (ValueError ("Invalid profile: " ++ Str.join ", " errors))
  else
    do '(equity_pct, debt_pct) <- lift (calculate_equity_debt_split profile);
    let equity_strategy :=
      match equity_strategy with
      | None => get_age_based_strategy (age profile)
      | Some s => s
      end in
    do equity_allocs <-
      allocate_equity equity_pct equity_strategy add_international sector_allocation;
    do debt_allocs <- allocate_debt debt_pct debt_strategy;
    let all_allocations := dict_merge equity_allocs debt_allocs in
    do monthly_sip <-
      calculate_fund_amounts all_allocations (monthly_investment profile);
    do lumpsum <-
      calculate_fund_amounts all_allocations (lump_sum_investment profile);
    do triggers <- set_rebalancing_triggers all_allocations drift_threshold;
    let warnings := generate_warnings profile equity_pct in
    let recommendations :=
      generate_recommendations profile equity_pct (List.length all_allocations) in
    ret {| user_profile := profile;
           equity_percentage := Num.round2 equity_pct;
           debt_percentage := Num.round2 debt_pct;
           equity_allocations := equity_allocs;
           debt_allocations := debt_allocs;
           monthly_sip_breakdown := monthly_sip;
           lumpsum_breakdown := lumpsum;
           rebalancing_triggers := triggers;
           warnings := warnings;
           recommendations := recommendations;
           created_at := now |}.

(** ** [PortfolioRebalancer] *)

(** A Python [set] of strings as a duplicate-free list.  The order in
    which Python iterates over a set is unspecified; the statements below
    are by lookup and do not depend on it. *)
Definition set_add (k : string) (s : list string) : list string :=
  if existsb (String.eqb k) s then s else s ++ [k].

Definition set_of (l : list string) : list string :=
  fold_left (fun s k => set_add k s) l [].

Definition set_union (a b : list string) : list string :=
  fold_left (fun s k => set_add k s) b a.

(** [d.get(k, default)]. *)
Definition dict_get_default {V} (d : dict V) (k : string) (default : V) : V :=
  match dict_get d k with
  | Some v => v
  | None => default
  end.

Definition msg_portfolio_value : string := "Current portfolio value must be positive".

Section Rendering.

(** How Python prints a number inside an f-string: [str_num] for a
    plain [{x}] field, [fmt_1f] for [{x:.1f}]. *)
Variable str_num : Qc -> string.
Variable fmt_1f : Qc -> string.

Definition drift_description (fund : string) (target current drift : Qc) : string :=
  (fund ++ ": Target " ++ str_num target ++ "%, Current " ++ str_num current
        ++ "%, Drift " ++ fmt_1f drift ++ "%")%string.

Definition check_rebalancing_needed (current_pct target_pct : dict Qc)
    (drift_threshold : Qc) : bool * list string :=
  let drifted_funds :=
    fold_left
      (fun drifted_funds kv =>
         let fund := fst kv in
         let target := snd kv in
         let current := dict_get_default current_pct fund (qz 0) in
         let drift := Num.abs (current - target)%Qc in
         if Num.geb drift drift_threshold
         then drifted_funds ++ [drift_description fund target current drift]
         else drifted_funds)
      target_pct [] in
  (Nat.ltb 0 (List.length drifted_funds), drifted_funds).

End Rendering.

(** ** Vocabulary of the statements *)

(** [e] is [x] clamped to the interval from [lo] to [hi]. *)
Definition clamped (lo hi x e : Qc) : Prop :=
  ((x < lo)%Qc -> e = lo) /\
  ((lo <= x)%Qc -> (x <= hi)%Qc -> e = x) /\
  ((hi < x)%Qc -> e = hi).

(** [pick c w] is the list a guarded [append] contributes. *)
Definition pick (c : bool) (w : string) : list string :=
  if c then [w] else [].

Definition all_warnings : list string :=
  [ warn_emergency_fund; warn_insurance; warn_high_equity; warn_age;
    warn_low_investment; warn_investment_ratio ].

(** The object a [FundAllocation(...)] call creates. *)
Definition row (cat sub : string) (pct : Qc) : FundAllocation :=
  {| category := cat; subcategory := sub; percentage := pct;
     amount := qz 0; recommended_funds := [] |}.

(** The objects of a dictionary of references, in its order. *)
Definition rows_of (h : heap) (d : dict ref) : list FundAllocation :=
  omap (fun kv => h !! snd kv) d.

(** Keys [ks] bound, in order, to the references [n], [n+1], ... *)
Definition fresh_dict (n : nat) (ks : list string) : dict ref :=
  combine ks (seq n (List.length ks)).

(** The rows a template expands to, by value. *)
Definition template_rows (cat : string) (f : Z -> Qc) (tpl : dict Z)
    : dict FundAllocation :=
  map (fun kt => (fst kt, row cat (subcategory_of (fst kt)) (Num.round2 (f (snd kt)))))
      tpl.

Definition pick_row (c : bool) (kr : string * FundAllocation)
    : dict FundAllocation :=
  if c then [kr] else [].

(** The body of the two allocation loops. *)
Definition alloc_body (cat : string) (f : Z -> Qc)
    (acc : dict ref) (k : string) (t : Z) : M (dict ref) :=
  do r <- new_FundAllocation cat (subcategory_of k) (Num.round2 (f t));
  ret (dict_set acc k r).

(** The rows [allocate_equity] creates from template [tpl], by value. *)
Definition equity_rows (equity_pct : Qc) (tpl : dict Z) (add_international : bool)
    (sector_allocation : Qc) : dict FundAllocation :=
  let international_pct := if add_international then qz 10 else qz 0 in
  let sector_pct := Num.min (qz 15) (Num.max (qz 0) sector_allocation) in
  let base_pct := (qz 100 - international_pct - sector_pct)%Qc in
  template_rows "Equity"
    (fun t => (qz t / qz 100 * (equity_pct * base_pct / qz 100))%Qc) tpl
  ++ pick_row add_international
       ("international"%string,
        row "Equity" "International Equity"
          (Num.round2 (equity_pct * international_pct / qz 100)%Qc))
  ++ pick_row (Num.gtb sector_pct (qz 0))
       ("sector"%string,
        row "Equity" "Sector/Thematic"
          (Num.round2 (equity_pct * sector_pct / qz 100)%Qc)).

(** The rows [allocate_debt] creates from template [tpl], by value. *)
Definition debt_rows (debt_pct : Qc) (tpl : dict Z) : dict FundAllocation :=
  template_rows "Debt" (fun t => (qz t / qz 100 * debt_pct)%Qc) tpl.

(** The amount [calculate_fund_amounts] gives a row for a pool [total]. *)
Definition amount_for (total : Qc) (a : FundAllocation) : Qc :=
  Num.round2 (percentage a / qz 100 * total)%Qc.

Definition amount_set (total : Qc) (a : FundAllocation) : FundAllocation :=
  with_amount a (amount_for total a).

(** The store after the amounts of the cells [refs] were set for [total],
    read at [r]. *)
Definition touch (total : Qc) (refs : list ref) (h : heap) (r : ref)
    : option FundAllocation :=
  if existsb (Nat.eqb r) refs then option_map (amount_set total) (h !! r)
  else h !! r.

(** The amount of the cell [r], [0] for a cell that does not exist. *)
Definition amount_at (total : Qc) (h : heap) (r : ref) : Qc :=
  match h !! r with
  | Some a => amount_for total a
  | None => qz 0
  end.

(** The body of the loop of [calculate_fund_amounts]. *)
Definition cfa_body (total_amount : Qc)
    (breakdown : dict Qc) (fund_name : string) (allocation : ref) : M (dict Qc) :=
  do a <- read allocation;
  let amount := ((percentage a / qz 100) * total_amount)%Qc in
  do _ <- set_amount allocation (Num.round2 amount);
  ret (dict_set breakdown fund_name (Num.round2 amount)).

(** All references of [d] are allocated in a store of [n] cells. *)
Definition refs_below (n : nat) (d : dict ref) : bool :=
  forallb (fun kv => Nat.ltb (snd kv) n) d.

(** The keys of [d] are pairwise distinct, as in every Python [dict]. *)
Fixpoint distinct (ks : list string) : bool :=
  match ks with
  | [] => true
  | k :: ks' => negb (existsb (String.eqb k) ks') && distinct ks'
  end.

(** The body of the loop of [set_rebalancing_triggers]. *)
Definition trig_body (drift_threshold : Qc)
    (triggers : dict (Qc * Qc)) (fund_name : string) (allocation : ref)
    : M (dict (Qc * Qc)) :=
  do a <- read allocation;
  let target := percentage a in
  let lower_trigger := Num.max (qz 0) (target - drift_threshold)%Qc in
  let upper_trigger := Num.min (qz 100) (target + drift_threshold)%Qc in
  ret (dict_set triggers fund_name
         (Num.round2 lower_trigger, Num.round2 upper_trigger)).

(** The breakdown [calculate_fund_amounts] returns, by value. *)
Definition breakdown_of (total : Qc) (h : heap) (d : dict ref) : dict Qc :=
  map (fun kv => (fst kv, amount_at total h (snd kv))) d.

(** The equity strategy [create_plan] uses. *)
Definition resolve_strategy (es : option EquityStrategy) (p : UserProfile)
    : EquityStrategy :=
  match es with
  | None => get_age_based_strategy (age p)
  | Some s => s
  end.

(** The six validation rules, in the order [validate] checks them. *)
Inductive Rule :=
  RuleAge | RuleIncome | RuleInvestment | RuleExceeds | RuleLumpsum | RuleCustom.

Definition all_rules : list Rule :=
  [RuleAge; RuleIncome; RuleInvestment; RuleExceeds; RuleLumpsum; RuleCustom].

Definition rule_message (r : Rule) : string :=
  match r with
  | RuleAge => err_age
  | RuleIncome => err_income
  | RuleInvestment => err_investment
  | RuleExceeds => err_exceeds
  | RuleLumpsum => err_lumpsum
  | RuleCustom => err_custom
  end.

(** Profile [p] breaks rule [r]. *)
Definition violated (p : UserProfile) (r : Rule) : Prop :=
  match r with
  | RuleAge => (age p < 18 \/ 100 < age p)%Z
  | RuleIncome => (monthly_income p < qz 0)%Qc
  | RuleInvestment => (monthly_investment p < qz 0)%Qc
  | RuleExceeds => (monthly_income p < monthly_investment p)%Qc
  | RuleLumpsum => (lump_sum_investment p < qz 0)%Qc
  | RuleCustom =>
      exists c, custom_equity_percentage p = Some c /\
                ((c < qz 0)%Qc \/ (qz 100 < c)%Qc)
  end.

(** The tests of [validate], as booleans. *)
Definition violated_b (p : UserProfile) (r : Rule) : bool :=
  match r with
  | RuleAge => (age p <? 18)%Z || (age p >? 100)%Z
  | RuleIncome => Num.ltb (monthly_income p) (qz 0)
  | RuleInvestment => Num.ltb (monthly_investment p) (qz 0)
  | RuleExceeds => Num.gtb (monthly_investment p) (monthly_income p)
  | RuleLumpsum => Num.ltb (lump_sum_investment p) (qz 0)
  | RuleCustom =>
      match custom_equity_percentage p with
      | Some c => Num.ltb c (qz 0) || Num.gtb c (qz 100)
      | None => false
      end
  end.

(** A profile for the worked examples: the one of the module's self-test,
    with a lump sum added. *)
Definition sample_profile : UserProfile :=
  {| age := 30;
     monthly_income := qz 100000;
     monthly_investment := qz 30000;
     lump_sum_investment := qz 50000;
     risk_profile := None;
     has_emergency_fund := false;
     has_adequate_insurance := false;
     custom_equity_percentage := None;
     goals := [] |}.

(** A profile that breaks two rules. *)
Definition bad_profile : UserProfile :=
  {| age := 17;
     monthly_income := qz 1000;
     monthly_investment := qz 2000;
     lump_sum_investment := qz 0;
     risk_profile := None;
     has_emergency_fund := false;
     has_adequate_insurance := false;
     custom_equity_percentage := None;
     goals := [] |}.

(** The rules that [p] breaks, in the order they are checked. *)
Definition broken_rules (p : UserProfile) : list Rule :=
  filter (fun r => violated_b p r = true) all_rules.

(** The message of the [ValueError] that [create_plan] raises. *)
Definition invalid_profile_message (rs : list Rule) : string :=
  ("Invalid profile: " ++ Str.join ", " (map rule_message rs))%string.

(** The drift of the target entry [kv] against the holdings [current_pct]. *)
Definition drift_of (current_pct : dict Qc) (kv : string * Qc) : Qc :=
  Num.abs (dict_get_default current_pct (fst kv) (qz 0) - snd kv)%Qc.

(** ** Vocabulary of the further properties *)

(** [z] is [q] rounded half to even. *)
Definition nearest_even (q : Q) (z : Z) : Prop :=
  (inject_Z z - (1 # 2) < q /\ q < inject_Z z + (1 # 2))%Q \/
  ((q == inject_Z z - (1 # 2) \/ q == inject_Z z + (1 # 2))%Q /\ Z.even z = true).



(** The equity percentage of the risk profile recommended for an age. *)
Definition suggested_equity (age : Z) : outcome Qc :=
  get_equity_allocation_from_risk_profile (get_risk_profile_from_age age).

(** A profile like [p] but for the age. *)
Definition with_age (p : UserProfile) (a : Z) : UserProfile :=
  {| age := a;
     monthly_income := monthly_income p;
     monthly_investment := monthly_investment p;
     lump_sum_investment := lump_sum_investment p;
     risk_profile := risk_profile p;
     has_emergency_fund := has_emergency_fund p;
     has_adequate_insurance := has_adequate_insurance p;
     custom_equity_percentage := custom_equity_percentage p;
     goals := goals p |}.

(** The store [h'] extends [h]: every object of [h] is still there,
    unchanged, under the same reference. *)
Definition extends (h h' : heap) : Prop :=
  forall r a, h !! r = Some a -> h' !! r = Some a.

(** A new, untouched row of the given category. *)
Definition fresh_row (cat : string) (a : FundAllocation) : Prop :=
  category a = cat /\ amount a = qz 0 /\ recommended_funds a = [].

(** The band [set_rebalancing_triggers] gives a row. *)
Definition band_of (drift_threshold : Qc) (a : FundAllocation) : Qc * Qc :=
  (Num.round2 (Num.max (qz 0) (percentage a - drift_threshold)%Qc),
   Num.round2 (Num.min (qz 100) (percentage a + drift_threshold)%Qc)).

(** The band of the cell [r], [(0, 0)] for a cell that does not exist. *)
Definition band_at (drift_threshold : Qc) (h : heap) (r : ref) : Qc * Qc :=
  match h !! r with
  | Some a => band_of drift_threshold a
  | None => (qz 0, qz 0)
  end.

(** The dictionary [set_rebalancing_triggers] returns, by value. *)
Definition triggers_of (drift_threshold : Qc) (h : heap) (d : dict ref)
    : dict (Qc * Qc) :=
  map (fun kv => (fst kv, band_at drift_threshold h (snd kv))) d.

(** The plan [create_plan] assembles from its intermediate results. *)
Definition plan_of (p : UserProfile) (E : Qc) (equity_allocs debt_allocs : dict ref)
    (h : heap) (dt : Qc) (now : Z) : AssetAllocationPlan :=
  let all := equity_allocs ++ debt_allocs in
  {| user_profile := p;
     equity_percentage := Num.round2 E;
     debt_percentage := Num.round2 (qz 100 - E)%Qc;
     equity_allocations := equity_allocs;
     debt_allocations := debt_allocs;
     monthly_sip_breakdown := breakdown_of (monthly_investment p) h all;
     lumpsum_breakdown := breakdown_of (lump_sum_investment p) h all;
     rebalancing_triggers := triggers_of dt h all;
     warnings := generate_warnings p E;
     recommendations := generate_recommendations p E (List.length all);
     created_at := now |}.


(** A percentage produced by the engine: two decimals, within [0,100]. *)
Definition percent_ok (x : Qc) : Prop :=
  Num.round2 x = x /\ (qz 0 <= x)%Qc /\ (x <= qz 100)%Qc.

(** The funds of a plan: its equity entries followed by its debt entries. *)
Definition plan_funds (plan : AssetAllocationPlan) : dict ref :=
  equity_allocations plan ++ debt_allocations plan.


(** ** Strategy descriptions *)

Definition equity_strategy_descriptions : dict string :=
  [ ("index_core"%string,
     "Investment in 100% Largecap Index funds - Low cost, market returns (like Nifty 50/Sensex)"%string);
    ("market_weighted"%string,
     "Investment in  70% Largecap, 20% Midcap, 10% Smallcap - Conservative, mirrors market"%string);
    ("balanced_growth"%string,
     "Investment in 45% Largecap, 30% Midcap, 25% Smallcap - Balanced risk-return"%string);
    ("aggressive_growth"%string,
     "Investment in 35% Largecap, 35% Midcap, 30% Smallcap - Maximum growth potential"%string) ].

Definition debt_strategy_descriptions : dict string :=
  [ ("long_term"%string, "FD for safe long-term low-risk returns"%string) ].

Definition get_strategy_description (strategy_type strategy_name : string) : string :=
  if String.eqb strategy_type "equity"
  then dict_get_default equity_strategy_descriptions strategy_name ""%string
  else if String.eqb strategy_type "debt"
  then dict_get_default debt_strategy_descriptions strategy_name ""%string
  else ""%string.

(** ** [AssetAllocationPlan.get_allocation_summary] *)


(** ** [estimate_corpus_at_retirement] *)




(** ** [format_inr] *)

Module Slice.

Fixpoint take (n : nat) (s : string) : string :=
  match n, s with
  | S n', String c s' => String c (take n' s')
  | _, _ => EmptyString
  end.

Fixpoint drop (n : nat) (s : string) : string :=
  match n, s with
  | S n', String c s' => drop n' s'
  | _, _ => s
  end.

(** [s[-n:]] for [n > 0]. *)
Definition last (n : nat) (s : string) : string :=
  drop (String.length s - n) s.

(** [s[:-n]] for [n > 0]. *)
Definition but_last (n : nat) (s : string) : string :=
  take (String.length s - n) s.

(** [c in s]. *)
Fixpoint contains (c : ascii) (s : string) : bool :=
  match s with
  | EmptyString => false
  | String x s' => Ascii.eqb x c || contains c s'
  end.

(** [s.split(c)] for a one-character separator. *)
Fixpoint split (c : ascii) (s : string) : list string :=
  match s with
  | EmptyString => [EmptyString]
  | String x s' =>
      if Ascii.eqb x c then EmptyString :: split c s'
      else match split c s' with
           | p :: ps => String x p :: ps
           | [] => [String x EmptyString]
           end
  end.

End Slice.

(** The [while] loop of [format_inr]; [fuel] bounds the iterations, and
    the length of [rest] is enough. *)
Fixpoint group_pairs (fuel : nat) (rest res : string) : string * string :=
  match fuel with
  | O => (rest, res)
  | S fuel' =>
      if (2 <? String.length rest)%nat
      then group_pairs fuel' (Slice.but_last 2 rest)
             ("," ++ Slice.last 2 rest ++ res)%string
      else (rest, res)
  end.

Definition msg_unpack : string := "too many values to unpack (expected 2)".

Section Formatting.

(** [str(number)]. *)
Variable str_num : Qc -> string.

Definition format_inr (number : Qc) : outcome string :=
  let s := str_num number in
  let parts :=
    if Slice.contains "."%char s then
      match Slice.split "."%char s with
      | [s'; dec] => Ok (s', ("." ++ dec)%string)
      | _ => Raise (ValueError msg_unpack)
      end
    else Ok (s, ""%string) in
  match parts with
  | Raise e => Raise e
  | Ok (s, dec) =>
      let last3 := Slice.last 3 s in
      let rest := Slice.but_last 3 s in
      if negb (Nat.eqb (String.length rest) 0) then
        let '(rest, res) := group_pairs (String.length rest) rest ""%string in
        let res := (rest ++ res)%string in
        Ok ("₹ " ++ res ++ "," ++ last3 ++ dec)%string
      else Ok ("₹ " ++ last3 ++ dec)%string
  end.

End Formatting.


(** ** Vocabulary of the formatting properties *)

(** How often the character [c] occurs in [s]. *)
Fixpoint count_char (c : ascii) (s : string) : nat :=
  match s with
  | EmptyString => 0%nat
  | String x s' => ((if Ascii.eqb x c then 1 else 0) + count_char c s')%nat
  end.

(** The strings of [ls] one after the other. *)
Definition concat_all (ls : list string) : string :=
  fold_right String.append ""%string ls.

(** The strings of [ls], each with a comma before it. *)
Definition comma_join (ls : list string) : string :=
  concat_all (map (String.append ",") ls).

(** * The engine on doubles *)

(** ** Double-precision numbers *)

(** Python's [float] is the IEEE 754 binary64 format.  A finite double is
    modelled by its exact rational value; every operation computes the
    exact result and rounds it to the nearest double, ties to even, the
    way the hardware does.  The sign of a zero is not modelled: no
    comparison and no branch of the engine can observe it, and where a
    number is printed its text is kept beside it. *)
Module F64.

Inductive float :=
| Fin (q : Qc)
| Inf (negative : bool)
| NaN.

(** [2^e] for any integer [e]. *)
Definition p2 (e : Z) : Q := (2 ^ e)%Q.

(** The binary exponent of [x]: [2^(ilog2 x) <= |x| < 2^(ilog2 x + 1)]
    for [x <> 0]. *)
Definition ilog2 (x : Q) : Z :=
  let l := (Z.log2 (Z.abs (Qnum x)) - Z.log2 (Zpos (Qden x)))%Z in
  if Qle_bool (p2 l) (Qabs x) then l else (l - 1)%Z.

(** The exponent of the last place of the double nearest to [x]: 53
    significant bits, and no exponent below that of the subnormals. *)
Definition expo (x : Q) : Z := Z.max (-1074) (ilog2 x - 52).

(** Round half to even on any fraction. *)
Definition rhe (q : Q) : Z := Num.round_half_even (Q2Qc q).

(** [x] rounded to 53 significant bits, ties to even, with no bound on
    the exponent from above. *)
Definition rval (x : Q) : Q :=
  let e := expo x in
  inject_Z (rhe (x * p2 (- e))) * p2 e.

(** Round to nearest double; overflow gives an infinity. *)
Definition rn (x : Q) : float :=
  let v := rval x in
  if Qle_bool (p2 1024) (Qabs v) then Inf (Qnum v <? 0)%Z else Fin (Q2Qc v).

(** The largest finite double, [2^1024 - 2^971]. *)
Definition max_double : Q := p2 1024 - p2 971.

(** An integer of the program as a double.  The integers that the engine
    mixes with floats are literals, table entries and clamped ages, all
    far below [2^53], so the conversion is exact. *)
Definition of_int (z : Z) : float := Fin (qz z).

Definition is_neg (q : Qc) : bool := (Qnum q <? 0)%Z.
Definition is_zero (x : float) : bool :=
  match x with Fin q => (Qnum q =? 0)%Z | _ => false end.

Definition opp (x : float) : float :=
  match x with
  | Fin a => Fin (- a)%Qc
  | Inf s => Inf (negb s)
  | NaN => NaN
  end.

Definition add (x y : float) : float :=
  match x, y with
  | NaN, _ | _, NaN => NaN
  | Fin a, Fin b => rn (a + b)
  | Inf s, Inf s' => if Bool.eqb s s' then Inf s else NaN
  | Inf s, Fin _ | Fin _, Inf s => Inf s
  end.

Definition sub (x y : float) : float := add x (opp y).

Definition mul (x y : float) : float :=
  match x, y with
  | NaN, _ | _, NaN => NaN
  | Fin a, Fin b => rn (a * b)
  | Inf s, Inf s' => Inf (xorb s s')
  | Inf s, Fin b | Fin b, Inf s =>
      if (Qnum b =? 0)%Z then NaN else Inf (xorb s (is_neg b))
  end.

(** [x / y] for a divisor that is not zero. *)
Definition div (x y : float) : float :=
  match x, y with
  | NaN, _ | _, NaN => NaN
  | Fin a, Fin b => rn (a / b)
  | Inf _, Inf _ => NaN
  | Inf s, Fin b => Inf (xorb s (is_neg b))
  | Fin _, Inf _ => Fin (qz 0)
  end.

Definition abs (x : float) : float :=
  match x with
  | Fin a => Fin (if is_neg a then - a else a)%Qc
  | Inf _ => Inf false
  | NaN => NaN
  end.

(** Comparisons; every comparison with NaN is false. *)
Definition ltb (x y : float) : bool :=
  match x, y with
  | NaN, _ | _, NaN => false
  | Fin a, Fin b => Num.ltb a b
  | Inf true, Inf true => false
  | Inf true, _ => true
  | _, Inf true => false
  | Inf false, _ => false
  | Fin _, Inf false => true
  end.

Definition leb (x y : float) : bool :=
  match x, y with
  | NaN, _ | _, NaN => false
  | Fin a, Fin b => Num.leb a b
  | Inf true, _ => true
  | _, Inf false => true
  | Inf false, _ => false
  | Fin _, Inf true => false
  end.

Definition gtb (x y : float) : bool := ltb y x.
Definition geb (x y : float) : bool := leb y x.

(** Python's [max(a, b)] returns [b] only when [b > a]; [min(a, b)]
    returns [b] only when [b < a]. *)
Definition max (a b : float) : float := if gtb b a then b else a.
Definition min (a b : float) : float := if ltb b a then b else a.

(** The double nearest to the 2-decimal rounding, half to even, of the
    exact value of a finite double: what [round(x, 2)] returns. *)
Definition round2_fin (q : Qc) : float := rn (Num.round2 q).

(** Python's [sum]: starts from [0] and adds from the left. *)
Definition sum (l : list float) : float := fold_left add l (of_int 0).

(** The double a decimal literal denotes, e.g. [lit 3867 100] for 38.67. *)
Definition lit (n : Z) (d : positive) : float := rn (n # d).

(** A finite double. *)
Definition is_finite (x : float) : bool :=
  match x with
  | Fin q => Qle_bool (Qabs q) max_double
  | _ => false
  end.

(** The exact value of a finite double. *)
Definition value (x : float) : option Q :=
  match x with
  | Fin q => Some (this q)
  | _ => None
  end.

(** [c] is the exact value of a finite double. *)
Definition is_double (c : Q) : bool :=
  Qeq_bool (rval c) c && negb (Qle_bool (p2 1024) (Qabs c)).

(** [x] is a finite number between [lo] and [hi]. *)
Definition between (lo hi : Q) (x : float) : Prop :=
  exists q : Qc, x = Fin q /\ (lo <= q)%Q /\ (q <= hi)%Q.

End F64.

Declare Scope float_scope.
Delimit Scope float_scope with f.
Bind Scope float_scope with F64.float.
Notation "x + y" := (F64.add x y) : float_scope.
Notation "x - y" := (F64.sub x y) : float_scope.
Notation "x * y" := (F64.mul x y) : float_scope.
Notation "x / y" := (F64.div x y) : float_scope.

(** ** The engine on doubles

    The same functions once more, with the arithmetic of the source: every
    number annotated [float] is a double, and every [+], [-], [*], [/] and
    [round] is the operation Python performs on doubles.  The statements
    that pin a computed value are made about these definitions. *)
Module Dbl.
Import F64.

Inductive exn :=
| ValueError (msg : string)
| KeyError (key : string)
| OverflowError (msg : string)
| ZeroDivisionError (msg : string)
| StoreFault (r : ref).

Inductive outcome (A : Type) :=
| Ok (a : A)
| Raise (e : exn).
Arguments Ok {A} a.
Arguments Raise {A} e.

(** [round(x, 2)]: a finite double is rounded half to even on its exact
    value and the result converted back; the other values raise. *)
Definition round2 (x : float) : outcome float :=
  match x with
  | Fin q =>
      match round2_fin q with
      | Fin r => Ok (Fin r)
      | _ => Raise (OverflowError "rounded value too large to represent")
      end
  | Inf _ => Raise (OverflowError "cannot convert float infinity to integer")
  | NaN => Raise (ValueError "cannot convert float NaN to integer")
  end.

(** [x / y] with a divisor that may be zero. *)
Definition truediv (x y : float) : outcome float :=
  if is_zero y then Raise (ZeroDivisionError "float division by zero")
  else Ok (x / y)%f.

(** *** Data model *)

Record FinancialGoal := {
  goal_name : string;
  target_amount : float;
  years_to_goal : Z;
  priority : Z;
  monthly_allocation : float
}.

Record UserProfile := {
  age : Z;
  monthly_income : float;
  monthly_investment : float;
  lump_sum_investment : float;
  risk_profile : option RiskProfile;
  has_emergency_fund : bool;
  has_adequate_insurance : bool;
  custom_equity_percentage : option float;
  goals : list FinancialGoal
}.

Record FundAllocation := {
  category : string;
  subcategory : string;
  percentage : float;
  amount : float;
  recommended_funds : list string
}.

Definition with_amount (a : FundAllocation) (x : float) : FundAllocation :=
  {| category := category a;
     subcategory := subcategory a;
     percentage := percentage a;
     amount := x;
     recommended_funds := recommended_funds a |}.

(** *** The object store and the monad *)

Definition heap := list FundAllocation.

Definition M (A : Type) : Type := heap -> outcome A * heap.

Definition ret {A} (a : A) : M A := fun h => (Ok a, h).

Definition bind {A B} (m : M A) (k : A -> M B) : M B :=
  fun h =>
    match m h with
    | (Ok a, h') => k a h'
    | (Raise e, h') => (Raise e, h')
    end.

Definition raise {A} (e : exn) : M A := fun h => (Raise e, h).

Definition lift {A} (o : outcome A) : M A := fun h => (o, h).

#[local, warnings="-notation-overridden"] Notation "'do' x <- m ; k" := (bind m (fun x => k))
  (at level 10, x name, m at level 100, k at level 200).
#[local, warnings="-notation-overridden"] Notation "'do' ' pat <- m ; k" := (bind m (fun x => match x with pat => k end))
  (at level 10, pat pattern, m at level 100, k at level 200).

Definition new_FundAllocation (cat sub : string) (pct : float) : M ref :=
  fun h =>
    (Ok (List.length h),
     h ++ [ {| category := cat; subcategory := sub; percentage := pct;
               amount := of_int 0; recommended_funds := [] |} ]).

Definition read (r : ref) : M FundAllocation :=
  fun h =>
    match h !! r with
    | Some a => (Ok a, h)
    | None => (Raise (StoreFault r), h)
    end.

Definition set_amount (r : ref) (x : float) : M unit :=
  fun h =>
    match h !! r with
    | Some a => (Ok tt, <[ r := with_amount a x ]> h)
    | None => (Raise (StoreFault r), h)
    end.

Fixpoint for_items {V A} (items : dict V) (acc : A)
    (body : A -> string -> V -> M A) : M A :=
  match items with
  | [] => ret acc
  | (k, v) :: rest => do acc' <- body acc k v; for_items rest acc' body
  end.

Definition subscript {V} (table : dict V) (key : string) : outcome V :=
  match dict_get table key with
  | Some v => Ok v
  | None => Raise (KeyError key)
  end.

(** *** [UserProfile.validate] *)

Definition validate (p : UserProfile) : bool * list string :=
  let errors := [] in
  let errors :=
    if (age p <? 18)%Z || (age p >? 100)%Z then errors ++ [err_age] else errors in
  let errors :=
    if ltb (monthly_income p) (of_int 0) then errors ++ [err_income] else errors in
  let errors :=
    if ltb (monthly_investment p) (of_int 0)
    then errors ++ [err_investment] else errors in
  let errors :=
    if gtb (monthly_investment p) (monthly_income p)
    then errors ++ [err_exceeds] else errors in
  let errors :=
    if ltb (lump_sum_investment p) (of_int 0)
    then errors ++ [err_lumpsum] else errors in
  let errors :=
    match custom_equity_percentage p with
    | Some c =>
        if ltb c (of_int 0) || gtb c (of_int 100)
        then errors ++ [err_custom] else errors
    | None => errors
    end in
  (Nat.eqb (List.length errors) 0, errors).

Record AssetAllocationPlan := {
  user_profile : UserProfile;
  equity_percentage : float;
  debt_percentage : float;
  equity_allocations : dict ref;
  debt_allocations : dict ref;
  monthly_sip_breakdown : dict float;
  lumpsum_breakdown : dict float;
  rebalancing_triggers : dict (float * float);
  warnings : list string;
  recommendations : list string;
  created_at : Z
}.

(** *** [AssetAllocationEngine] *)

Definition get_equity_allocation_from_risk_profile (r : RiskProfile) : outcome Z :=
  subscript equity_splits (risk_profile_name r).

(** On the second and third path the percentages are Python integers and
    the subtraction is exact. *)
Definition calculate_equity_debt_split (profile : UserProfile)
    : outcome (float * float) :=
  match custom_equity_percentage profile with
  | Some c =>
      let equity_pct := max (of_int 0) (min (of_int 100) c) in
      Ok (equity_pct, (of_int 100 - equity_pct)%f)
  | None =>
      match risk_profile profile with
      | Some r =>
          match get_equity_allocation_from_risk_profile r with
          | Ok equity_pct => Ok (of_int equity_pct, of_int (100 - equity_pct))
          | Raise e => Raise e
          end
      | None =>
          let equity_pct := Z.max 20 (Z.min 80 (100 - age profile)) in
          let debt_pct := (100 - equity_pct)%Z in
          Ok (of_int equity_pct, of_int debt_pct)
      end
  end.

Definition allocate_equity (equity_pct : float) (strategy : EquityStrategy)
    (add_international : bool) (sector_allocation : float) : M (dict ref) :=
  do template <- lift (subscript equity_templates (equity_strategy_name strategy));
  let allocations : dict ref := [] in
  let international_pct := if add_international then of_int 10 else of_int 0 in
  let sector_pct := min (of_int 15) (max (of_int 0) sector_allocation) in
  let base_pct := (of_int 100 - international_pct - sector_pct)%f in
  do allocations <-
    for_items template allocations (fun allocations fund_type template_pct =>
      let actual_pct :=
        ((of_int template_pct / of_int 100)
         * (equity_pct * base_pct / of_int 100))%f in
      do pct <- lift (round2 actual_pct);
      do r <- new_FundAllocation "Equity" (subcategory_of fund_type) pct;
      ret (dict_set allocations fund_type r));
  do allocations <-
    (if add_international then
       do pct <- lift (round2 (equity_pct * international_pct / of_int 100)%f);
       do r <- new_FundAllocation "Equity" "International Equity" pct;
       ret (dict_set allocations "international" r)
     else ret allocations);
  do allocations <-
    (if gtb sector_pct (of_int 0) then
       do pct <- lift (round2 (equity_pct * sector_pct / of_int 100)%f);
       do r <- new_FundAllocation "Equity" "Sector/Thematic" pct;
       ret (dict_set allocations "sector" r)
     else ret allocations);
  ret allocations.

Definition allocate_debt (debt_pct : float) (strategy : GoalTimeframe) : M (dict ref) :=
  do template <- lift (subscript debt_templates (goal_timeframe_name strategy));
  let allocations : dict ref := [] in
  for_items template allocations (fun allocations fund_type template_pct =>
    let actual_pct := ((of_int template_pct / of_int 100) * debt_pct)%f in
    do pct <- lift (round2 actual_pct);
    do r <- new_FundAllocation "Debt" (subcategory_of fund_type) pct;
    ret (dict_set allocations fund_type r)).

Definition calculate_fund_amounts (allocations : dict ref) (total_amount : float)
    : M (dict float) :=
  let breakdown : dict float := [] in
  for_items allocations breakdown (fun breakdown fund_name allocation =>
    do a <- read allocation;
    let amount := ((percentage a / of_int 100) * total_amount)%f in
    do rounded <- lift (round2 amount);
    do _ <- set_amount allocation rounded;
    do rounded <- lift (round2 amount);
    ret (dict_set breakdown fund_name rounded)).

Definition set_rebalancing_triggers (allocations : dict ref) (drift_threshold : float)
    : M (dict (float * float)) :=
  let triggers : dict (float * float) := [] in
  for_items allocations triggers (fun triggers fund_name allocation =>
    do a <- read allocation;
    let target := percentage a in
    let lower_trigger := max (of_int 0) (target - drift_threshold)%f in
    let upper_trigger := min (of_int 100) (target + drift_threshold)%f in
    do lower <- lift (round2 lower_trigger);
    do upper <- lift (round2 upper_trigger);
    ret (dict_set triggers fund_name (lower, upper))).

(** The ratio is only formed for a positive income, so its division
    cannot fail. *)
Definition generate_warnings (profile : UserProfile) (equity_pct : float)
    : list string :=
  let warnings := [] in
  let warnings :=
    if negb (has_emergency_fund profile) && gtb equity_pct (of_int 50)
    then warnings ++ [warn_emergency_fund] else warnings in
  let warnings :=
    if negb (has_adequate_insurance profile)
    then warnings ++ [warn_insurance] else warnings in
  let warnings :=
    if gtb equity_pct (of_int 80)
    then warnings ++ [warn_high_equity] else warnings in
  let warnings :=
    if (age profile >? 60)%Z && gtb equity_pct (of_int 50)
    then warnings ++ [warn_age] else warnings in
  let warnings :=
    if ltb (monthly_investment profile) (of_int 5000)
    then warnings ++ [warn_low_investment] else warnings in
  let investment_ratio :=
    if gtb (monthly_income profile) (of_int 0)
    then (monthly_investment profile / monthly_income profile * of_int 100)%f
    else of_int 0 in
  let warnings :=
    if gtb investment_ratio (of_int 50)
    then warnings ++ [warn_investment_ratio] else warnings in
  warnings.

Definition generate_recommendations (profile : UserProfile) (equity_pct : float)
    (num_funds : nat) : list string :=
  let recs := [] in
  let recs := recs ++ [rec_simplicity] in
  let recs := recs ++ [rec_rebalancing] in
  let recs := recs ++ [rec_market_timing] in
  let recs :=
    if gtb equity_pct (of_int 30) then recs ++ [rec_index_funds] else recs in
  let recs :=
    if gtb (monthly_investment profile) (of_int 0)
    then recs ++ [rec_sip] else recs in
  let recs := recs ++ [rec_goal_based] in
  let recs :=
    if gtb equity_pct (of_int 40) then recs ++ [rec_tax] else recs in
  let recs := recs ++ [rec_fund_selection] in
  let recs := recs ++ [rec_review] in
  recs.

Definition create_plan (profile : UserProfile)
    (equity_strategy : option EquityStrategy) (debt_strategy : GoalTimeframe)
    (add_international : bool) (sector_allocation : float) (drift_threshold : float)
    (now : Z) : M AssetAllocationPlan :=
  let '(is_valid, errors) := validate profile in
  if negb is_valid
  then raise (ValueError ("Invalid profile: " ++ Str.join ", " errors))
  else
    do '(equity_pct, debt_pct) <- lift (calculate_equity_debt_split profile);
    let equity_strategy :=
      match equity_strategy with
      | None => get_age_based_strategy (age profile)
      | Some s => s
      end in
    do equity_allocs <-
      allocate_equity equity_pct equity_strategy add_international sector_allocation;
    do debt_allocs <- allocate_debt debt_pct debt_strategy;
    let all_allocations := dict_merge equity_allocs debt_allocs in
    do monthly_sip <-
      calculate_fund_amounts all_allocations (monthly_investment profile);
    do lumpsum <-
      calculate_fund_amounts all_allocations (lump_sum_investment profile);
    do triggers <- set_rebalancing_triggers all_allocations drift_threshold;
    let warnings := generate_warnings profile equity_pct in
    let recommendations :=
      generate_recommendations profile equity_pct (List.length all_allocations) in
    do equity_rounded <- lift (round2 equity_pct);
    do debt_rounded <- lift (round2 debt_pct);
    ret {| user_profile := profile;
           equity_percentage := equity_rounded;
           debt_percentage := debt_rounded;
           equity_allocations := equity_allocs;
           debt_allocations := debt_allocs;
           monthly_sip_breakdown := monthly_sip;
           lumpsum_breakdown := lumpsum;
           rebalancing_triggers := triggers;
           warnings := warnings;
           recommendations := recommendations;
           created_at := now |}.

(** *** [PortfolioRebalancer] *)

(** A loop over a list whose body can raise. *)
Fixpoint for_each {X A} (items : list X) (acc : A)
    (body : A -> X -> outcome A) : outcome A :=
  match items with
  | [] => Ok acc
  | x :: rest =>
      match body acc x with
      | Ok acc' => for_each rest acc' body
      | Raise e => Raise e
      end
  end.

Definition calculate_current_allocation (current_values : dict float)
    : outcome (dict float) :=
  let total := sum (dict_values current_values) in
  if leb total (of_int 0) then Ok []
  else
    for_each current_values []
      (fun acc kv =>
         match truediv (snd kv) total with
         | Ok share =>
             match round2 (share * of_int 100)%f with
             | Ok pct => Ok (dict_set acc (fst kv) pct)
             | Raise e => Raise e
             end
         | Raise e => Raise e
         end).

Definition calculate_rebalance_trades (current_values target_allocation_pct : dict float)
    : outcome (dict float) :=
  let total_value := sum (dict_values current_values) in
  if leb total_value (of_int 0) then Raise (ValueError msg_portfolio_value)
  else
    let target_amounts :=
      fold_left
        (fun target_amounts fund =>
           let target_pct := dict_get_default target_allocation_pct fund (of_int 0) in
           dict_set target_amounts fund (target_pct / of_int 100 * total_value)%f)
        (set_union (set_of (dict_keys current_values))
                   (set_of (dict_keys target_allocation_pct)))
        [] in
    for_each target_amounts []
      (fun trades kv =>
         let fund := fst kv in
         let current_val := dict_get_default current_values fund (of_int 0) in
         let target_val := snd kv in
         let trade_amount := (target_val - current_val)%f in
         if gtb (abs trade_amount) (of_int 100)
         then
           match round2 trade_amount with
           | Ok rounded => Ok (dict_set trades fund rounded)
           | Raise e => Raise e
           end
         else Ok trades).

(** A number as [check_rebalancing_needed] meets it in a dictionary: the
    double it denotes and the text an f-string field [{x}] prints for it.
    The text is not a function of the value: 75 and 75.0 denote the same
    double, and so do 0.0 and -0.0. *)
Record number := {
  val : float;
  text : string
}.

(** The literal [0.0]. *)
Definition zero_float : number := {| val := of_int 0; text := "0.0" |}.

Section Rendering.

(** The text of an f-string field [{x:.1f}]. *)
Variable fmt_1f : float -> string.

Definition drift_description (fund : string) (target current : number)
    (drift : float) : string :=
  (fund ++ ": Target " ++ text target ++ "%, Current " ++ text current
        ++ "%, Drift " ++ fmt_1f drift ++ "%")%string.

Definition check_rebalancing_needed (current_pct target_pct : dict number)
    (drift_threshold : float) : bool * list string :=
  let drifted_funds :=
    fold_left
      (fun drifted_funds kv =>
         let fund := fst kv in
         let target := snd kv in
         let current := dict_get_default current_pct fund zero_float in
         let drift := abs (val current - val target)%f in
         if geb drift drift_threshold
         then drifted_funds ++ [drift_description fund target current drift]
         else drifted_funds)
      target_pct [] in
  (Nat.ltb 0 (List.length drifted_funds), drifted_funds).

End Rendering.


(** *** Vocabulary of the statements on doubles *)

(** The value [round(x, 2)] returns when it returns. *)
Definition rounded (x : float) : float :=
  match round2 x with
  | Ok v => v
  | Raise _ => x
  end.

(** [round(x, 2)] returns. *)
Definition roundable (x : float) : bool :=
  match round2 x with
  | Ok _ => true
  | Raise _ => false
  end.

(** The object a [FundAllocation(...)] call creates. *)
Definition row (cat sub : string) (pct : float) : FundAllocation :=
  {| category := cat; subcategory := sub; percentage := pct;
     amount := of_int 0; recommended_funds := [] |}.

(** The object a dictionary of references holds under key [k]. *)
Definition row_at (h : heap) (d : dict ref) (k : string) : option FundAllocation :=
  match dict_get d k with
  | Some r => h !! r
  | None => None
  end.

(** The rows a template expands to, by value. *)
Definition template_rows (cat : string) (f : Z -> float) (tpl : dict Z)
    : dict FundAllocation :=
  map (fun kt => (fst kt, row cat (subcategory_of (fst kt)) (rounded (f (snd kt)))))
      tpl.

Definition pick_row (c : bool) (kr : string * FundAllocation)
    : dict FundAllocation :=
  if c then [kr] else [].

(** The body of the two allocation loops. *)
Definition alloc_body (cat : string) (f : Z -> float)
    (acc : dict ref) (k : string) (t : Z) : M (dict ref) :=
  do pct <- lift (round2 (f t));
  do r <- new_FundAllocation cat (subcategory_of k) pct;
  ret (dict_set acc k r).

(** The sector percentage and the base percentage of [allocate_equity]. *)
Definition sector_pct_of (sector_allocation : float) : float :=
  min (of_int 15) (max (of_int 0) sector_allocation).

Definition base_pct_of (add_international : bool) (sector_allocation : float)
    : float :=
  (of_int 100 - (if add_international then of_int 10 else of_int 0)
   - sector_pct_of sector_allocation)%f.

(** The percentage of a template row before rounding. *)
Definition template_pct_of (equity_pct base_pct : float) (t : Z) : float :=
  ((of_int t / of_int 100) * (equity_pct * base_pct / of_int 100))%f.

(** The rows [allocate_equity] creates from template [tpl], by value. *)
Definition equity_rows (equity_pct : float) (tpl : dict Z) (add_international : bool)
    (sector_allocation : float) : dict FundAllocation :=
  let international_pct := if add_international then of_int 10 else of_int 0 in
  let sector_pct := sector_pct_of sector_allocation in
  let base_pct := base_pct_of add_international sector_allocation in
  template_rows "Equity" (template_pct_of equity_pct base_pct) tpl
  ++ pick_row add_international
       ("international"%string,
        row "Equity" "International Equity"
          (rounded (equity_pct * international_pct / of_int 100)%f))
  ++ pick_row (gtb sector_pct (of_int 0))
       ("sector"%string,
        row "Equity" "Sector/Thematic"
          (rounded (equity_pct * sector_pct / of_int 100)%f)).

(** The rows [allocate_debt] creates from template [tpl], by value. *)
Definition debt_rows (debt_pct : float) (tpl : dict Z) : dict FundAllocation :=
  template_rows "Debt" (fun t => ((of_int t / of_int 100) * debt_pct)%f) tpl.

(** The amount [calculate_fund_amounts] computes for a row, before
    rounding and after. *)
Definition raw_amount (total : float) (a : FundAllocation) : float :=
  ((percentage a / of_int 100) * total)%f.

Definition amount_for (total : float) (a : FundAllocation) : float :=
  rounded (raw_amount total a).

Definition amount_set (total : float) (a : FundAllocation) : FundAllocation :=
  with_amount a (amount_for total a).

(** The store after the amounts of the cells [refs] were set for [total],
    read at [r]. *)
Definition touch (total : float) (refs : list ref) (h : heap) (r : ref)
    : option FundAllocation :=
  if existsb (Nat.eqb r) refs then option_map (amount_set total) (h !! r)
  else h !! r.

Definition amount_at (total : float) (h : heap) (r : ref) : float :=
  match h !! r with
  | Some a => amount_for total a
  | None => of_int 0
  end.

(** The body of the loop of [calculate_fund_amounts]. *)
Definition cfa_body (total_amount : float)
    (breakdown : dict float) (fund_name : string) (allocation : ref)
    : M (dict float) :=
  do a <- read allocation;
  let amount := ((percentage a / of_int 100) * total_amount)%f in
  do rounded <- lift (round2 amount);
  do _ <- set_amount allocation rounded;
  do rounded <- lift (round2 amount);
  ret (dict_set breakdown fund_name rounded).

(** The two bounds of a trigger band before rounding. *)
Definition lower_of (drift_threshold : float) (a : FundAllocation) : float :=
  max (of_int 0) (percentage a - drift_threshold)%f.

Definition upper_of (drift_threshold : float) (a : FundAllocation) : float :=
  min (of_int 100) (percentage a + drift_threshold)%f.

(** The body of the loop of [set_rebalancing_triggers]. *)
Definition trig_body (drift_threshold : float)
    (triggers : dict (float * float)) (fund_name : string) (allocation : ref)
    : M (dict (float * float)) :=
  do a <- read allocation;
  let target := percentage a in
  let lower_trigger := max (of_int 0) (target - drift_threshold)%f in
  let upper_trigger := min (of_int 100) (target + drift_threshold)%f in
  do lower <- lift (round2 lower_trigger);
  do upper <- lift (round2 upper_trigger);
  ret (dict_set triggers fund_name (lower, upper)).

(** The breakdown [calculate_fund_amounts] returns, by value. *)
Definition breakdown_of (total : float) (h : heap) (d : dict ref) : dict float :=
  map (fun kv => (fst kv, amount_at total h (snd kv))) d.

(** Every row of [d] exists in [h] and has a percentage in [0,100]. *)
Definition rows_in_range (h : heap) (d : dict ref) : bool :=
  forallb
    (fun kv =>
       match h !! snd kv with
       | Some a => leb (of_int 0) (percentage a) && leb (percentage a) (of_int 100)
       | None => false
       end)
    d.

(** The equity strategy [create_plan] uses. *)
Definition resolve_strategy (es : option EquityStrategy) (p : UserProfile)
    : EquityStrategy :=
  match es with
  | None => get_age_based_strategy (age p)
  | Some s => s
  end.

(** The funds of a plan: its equity entries followed by its debt entries. *)
Definition plan_funds (plan : AssetAllocationPlan) : dict ref :=
  equity_allocations plan ++ debt_allocations plan.

(** The keys [allocate_equity] creates, in order. *)
Definition equity_keys (tpl : dict Z) (add_international : bool)
    (sector_allocation : float) : list string :=
  dict_keys tpl
  ++ (if add_international then ["international"%string] else [])
  ++ (if gtb (sector_pct_of sector_allocation) (of_int 0)
      then ["sector"%string] else []).

(** The drift of the target entry [kv] against the holdings [current_pct]. *)
Definition drift_of (current_pct : dict number) (kv : string * number) : float :=
  abs (val (dict_get_default current_pct (fst kv) zero_float) - val (snd kv))%f.

(** The trade [calculate_rebalance_trades] sizes for [fund]. *)
Definition trade_of (current_values target_allocation_pct : dict float)
    (fund : string) : float :=
  (dict_get_default target_allocation_pct fund (of_int 0) / of_int 100
     * sum (dict_values current_values)
   - dict_get_default current_values fund (of_int 0))%f.



(** Every trade over the keys of the two dictionaries has a magnitude of
    at most 100. *)
Definition trades_small (current_values target_allocation_pct : dict float)
    : bool :=
  forallb (fun fund =>
             leb (abs (trade_of current_values target_allocation_pct fund))
                 (of_int 100))
          (dict_keys current_values ++ dict_keys target_allocation_pct).

(** The share of a holding before rounding, and that no share overflows
    or is NaN. *)
Definition share_of (current_values : dict float) (v : float) : float :=
  (v / sum (dict_values current_values) * of_int 100)%f.

Definition shares_finite (current_values : dict float) : bool :=
  forallb (fun v => is_finite (share_of current_values v))
          (dict_values current_values).

(** The band [set_rebalancing_triggers] gives a row. *)
Definition band_of (drift_threshold : float) (a : FundAllocation)
    : float * float :=
  (rounded (lower_of drift_threshold a), rounded (upper_of drift_threshold a)).

(** The band of the cell [r], [(0, 0)] for a cell that does not exist. *)
Definition band_at (drift_threshold : float) (h : heap) (r : ref) : float * float :=
  match h !! r with
  | Some a => band_of drift_threshold a
  | None => (of_int 0, of_int 0)
  end.

(** The dictionary [set_rebalancing_triggers] returns, by value. *)
Definition triggers_of (drift_threshold : float) (h : heap) (d : dict ref)
    : dict (float * float) :=
  map (fun kv => (fst kv, band_at drift_threshold h (snd kv))) d.

(** The profile of the module's self-test, with a lump sum added. *)
Definition sample_profile : UserProfile :=
  {| age := 30;
     monthly_income := of_int 100000;
     monthly_investment := of_int 30000;
     lump_sum_investment := of_int 50000;
     risk_profile := None;
     has_emergency_fund := false;
     has_adequate_insurance := false;
     custom_equity_percentage := None;
     goals := [] |}.




End Dbl.

(** * Properties *)

(** ** Arithmetic of the number model *)

Module NumFacts.

Lemma this_Q2Qc q : (this (Q2Qc q) == q)%Q.
Proof. apply Qred_correct. Qed.

Lemma this_plus x y : (this (x + y)%Qc == this x + this y)%Q.
Proof. apply Qred_correct. Qed.

Lemma this_mult x y : (this (x * y)%Qc == this x * this y)%Q.
Proof. apply Qred_correct. Qed.

Lemma this_opp x : (this (- x)%Qc == - this x)%Q.
Proof. apply Qred_correct. Qed.

Lemma this_minus x y : (this (x - y)%Qc == this x - this y)%Q.
Proof. unfold Qcminus. rewrite this_plus, this_opp. reflexivity. Qed.

Lemma this_of_Z n : (this (qz n) == inject_Z n)%Q.
Proof. apply Qred_correct. Qed.

Lemma this_div_100 x : (this (x / qz 100)%Qc == this x * (1 # 100))%Q.
Proof.
  unfold Qcdiv. rewrite this_mult.
  assert (E : (/ qz 100)%Qc = Q2Qc (1 # 100)) by (apply Qc_is_canon; reflexivity).
  rewrite E, this_Q2Qc. reflexivity.
Qed.

Lemma Qc_eq_iff (x y : Qc) : x = y <-> (this x == this y)%Q.
Proof. split; [intros ->; reflexivity | apply Qc_is_canon]. Qed.

Lemma ltb_lt x y : Num.ltb x y = true <-> (x < y)%Qc.
Proof.
  unfold Num.ltb. rewrite Qclt_alt.
  destruct (x ?= y)%Qc; split; congruence.
Qed.

Lemma leb_le x y : Num.leb x y = true <-> (x <= y)%Qc.
Proof.
  unfold Num.leb. rewrite Qcle_alt.
  destruct (x ?= y)%Qc; split; congruence.
Qed.

Lemma gtb_lt x y : Num.gtb x y = true <-> (y < x)%Qc.
Proof. apply ltb_lt. Qed.

Lemma geb_le x y : Num.geb x y = true <-> (y <= x)%Qc.
Proof. apply leb_le. Qed.

Lemma ltb_ge x y : Num.ltb x y = false <-> (y <= x)%Qc.
Proof.
  rewrite <- not_true_iff_false, ltb_lt.
  split; [apply Qcnot_lt_le | apply Qcle_not_lt].
Qed.

Lemma leb_gt x y : Num.leb x y = false <-> (y < x)%Qc.
Proof.
  rewrite <- not_true_iff_false, leb_le.
  split; [apply Qcnot_le_lt | apply Qclt_not_le].
Qed.

End NumFacts.

(** Moves a goal on [Qc] to one on [Q], where [lra] applies. *)
Ltac qc_push :=
  repeat first
    [ rewrite NumFacts.this_div_100
    | rewrite NumFacts.this_plus | rewrite NumFacts.this_minus
    | rewrite NumFacts.this_mult | rewrite NumFacts.this_opp
    | rewrite NumFacts.this_of_Z | rewrite NumFacts.this_Q2Qc ].

Ltac qc_push_in H :=
  repeat first
    [ rewrite NumFacts.this_div_100 in H
    | rewrite NumFacts.this_plus in H | rewrite NumFacts.this_minus in H
    | rewrite NumFacts.this_mult in H | rewrite NumFacts.this_opp in H
    | rewrite NumFacts.this_of_Z in H | rewrite NumFacts.this_Q2Qc in H ].

Ltac qc_to_q :=
  unfold Qcle, Qclt in *;
  repeat match goal with
         | H : @eq Qc _ _ |- _ => apply NumFacts.Qc_eq_iff in H
         end;
  try apply NumFacts.Qc_eq_iff;
  repeat match goal with
         | H : context [this _] |- _ => progress qc_push_in H
         end;
  qc_push; unfold inject_Z in *.

Ltac qc_lra := qc_to_q; lra.

(** Replaces every comparison test in the goal by its meaning. *)
Ltac case_cmp :=
  repeat match goal with
         | |- context [Num.ltb ?x ?y] =>
             let E := fresh "E" in
             destruct (Num.ltb x y) eqn:E;
             [apply NumFacts.ltb_lt in E | apply NumFacts.ltb_ge in E]
         | |- context [Num.gtb ?x ?y] =>
             let E := fresh "E" in
             destruct (Num.gtb x y) eqn:E;
             [apply NumFacts.gtb_lt in E | apply NumFacts.ltb_ge in E]
         | |- context [Num.leb ?x ?y] =>
             let E := fresh "E" in
             destruct (Num.leb x y) eqn:E;
             [apply NumFacts.leb_le in E | apply NumFacts.leb_gt in E]
         | |- context [Num.geb ?x ?y] =>
             let E := fresh "E" in
             destruct (Num.geb x y) eqn:E;
             [apply NumFacts.geb_le in E | apply NumFacts.leb_gt in E]
         end.

Module NumBounds.

Lemma round_half_even_near (x : Qc) :
  (inject_Z (Num.round_half_even x) - (1 # 2) <= x
   <= inject_Z (Num.round_half_even x) + (1 # 2))%Q.
Proof.
  destruct x as [[n d] H]. unfold Num.round_half_even. cbn [this Qnum Qden].
  pose proof (Z.div_mod n (Zpos d) ltac:(lia)) as E.
  pose proof (Z.mod_pos_bound n (Zpos d) ltac:(lia)) as B.
  set (q := n / Zpos d) in *. set (r := n mod Zpos d) in *.
  assert (Hq : forall z : Z,
             (inject_Z z - (1 # 2) <= n # d <= inject_Z z + (1 # 2))%Q <->
             2 * Z.abs (z * Zpos d - n) <= Zpos d).
  { intros z. unfold Qle, Qminus, Qplus, Qopp, inject_Z. cbn. lia. }
  destruct (Z.compare_spec (2 * r) (Zpos d)); [destruct (Z.even q)|..];
    apply Hq; lia.
Qed.

(** [round(x, 2)] is within half a hundredth of [x]. *)
Lemma round2_near (x : Qc) :
  (x - Q2Qc (1 # 200) <= Num.round2 x <= x + Q2Qc (1 # 200))%Qc.
Proof.
  unfold Num.round2.
  pose proof (round_half_even_near (x * qz 100)%Qc) as H.
  set (z := Num.round_half_even _) in *. clearbody z.
  qc_to_q.
  assert (E : (100 * (z # 100) == inject_Z z)%Q).
  { unfold Qeq, Qmult, inject_Z. cbn. lia. }
  unfold inject_Z in E.
  set (a := (z # 1)%Q) in *. set (b := (z # 100)%Q) in *. clearbody a b.
  lra.
Qed.

Lemma max_cases (a b : Qc) :
  ((a < b)%Qc /\ Num.max a b = b) \/ ((b <= a)%Qc /\ Num.max a b = a).
Proof. unfold Num.max. case_cmp; auto. Qed.

Lemma min_cases (a b : Qc) :
  ((b < a)%Qc /\ Num.min a b = b) \/ ((a <= b)%Qc /\ Num.min a b = a).
Proof. unfold Num.min. case_cmp; auto. Qed.


End NumBounds.

(** ** C2: the equity/debt split *)

Lemma max_min_clamped (lo hi x : Qc) :
  (lo <= hi)%Qc -> clamped lo hi x (Num.max lo (Num.min hi x)).
Proof.
  intros Hlh. unfold clamped.
  destruct (NumBounds.min_cases hi x) as [[H1 ->] | [H1 ->]];
    [destruct (NumBounds.max_cases lo x) as [[H2 ->] | [H2 ->]]
    |destruct (NumBounds.max_cases lo hi) as [[H2 ->] | [H2 ->]]];
    repeat split; intros; try reflexivity; qc_lra.
Qed.

(** C2. [calculate_equity_debt_split] never raises and follows the priority
    order: a custom equity percentage, clamped to [0,100], wins; else the
    risk profile gives 85, 65 or 45; else 100 minus age clamped to [20,80].
    The debt percentage returned is always 100 minus the equity one. *)
Theorem C2_equity_debt_split_priority (p : UserProfile) :
  exists e : Qc,
    calculate_equity_debt_split p = Ok (e, (qz 100 - e)%Qc) /\
    match custom_equity_percentage p, risk_profile p with
    | Some c, _ => clamped (qz 0) (qz 100) c e
    | None, Some aggressive => e = qz 85
    | None, Some moderate => e = qz 65
    | None, Some conservative => e = qz 45
    | None, None => clamped (qz 20) (qz 80) (qz (100 - age p)) e
    end.
Proof.
  unfold calculate_equity_debt_split.
  destruct (custom_equity_percentage p) as [c|].
  - eexists; split; [reflexivity|]. apply max_min_clamped. qc_lra.
  - destruct (risk_profile p) as [[]|].
    + eexists; split; reflexivity.
    + eexists; split; reflexivity.
    + eexists; split; reflexivity.
    + eexists; split; [reflexivity|]. apply max_min_clamped. qc_lra.
Qed.

(** ** C8 and C10: advisory texts *)

Lemma In_existsb (w : string) (l : list string) :
  In w l <-> existsb (String.eqb w) l = true.
Proof.
  rewrite existsb_exists. split.
  - intros H. exists w. split; [exact H | apply String.eqb_refl].
  - intros (x & Hx & E). apply String.eqb_eq in E. subst. exact Hx.
Qed.

Lemma generate_warnings_shape (p : UserProfile) (e : Qc) :
  generate_warnings p e =
    pick (negb (has_emergency_fund p) && Num.gtb e (qz 50)) warn_emergency_fund
    ++ pick (negb (has_adequate_insurance p)) warn_insurance
    ++ pick (Num.gtb e (qz 80)) warn_high_equity
    ++ pick ((age p >? 60)%Z && Num.gtb e (qz 50)) warn_age
    ++ pick (Num.ltb (monthly_investment p) (qz 5000)) warn_low_investment
    ++ pick (Num.gtb
               (if Num.gtb (monthly_income p) (qz 0)
                then (monthly_investment p / monthly_income p * qz 100)%Qc
                else qz 0) (qz 50)) warn_investment_ratio.
Proof.
  unfold generate_warnings.
  destruct (negb (has_emergency_fund p) && Num.gtb e (qz 50));
    destruct (negb (has_adequate_insurance p));
    destruct (Num.gtb e (qz 80));
    destruct ((age p >? 60)%Z && Num.gtb e (qz 50));
    destruct (Num.ltb (monthly_investment p) (qz 5000));
    destruct (Num.gtb _ (qz 50)); reflexivity.
Qed.

Lemma picks_members (c1 c2 c3 c4 c5 c6 : bool) :
  let l := pick c1 warn_emergency_fund ++ pick c2 warn_insurance
           ++ pick c3 warn_high_equity ++ pick c4 warn_age
           ++ pick c5 warn_low_investment ++ pick c6 warn_investment_ratio in
  (In warn_emergency_fund l <-> c1 = true) /\
  (In warn_insurance l <-> c2 = true) /\
  (In warn_high_equity l <-> c3 = true) /\
  (In warn_age l <-> c4 = true) /\
  (In warn_low_investment l <-> c5 = true) /\
  (In warn_investment_ratio l <-> c6 = true) /\
  sublist l all_warnings.
Proof.
  intros l. subst l. rewrite !In_existsb.
  assert (S : sublist
                (pick c1 warn_emergency_fund ++ pick c2 warn_insurance
                 ++ pick c3 warn_high_equity ++ pick c4 warn_age
                 ++ pick c5 warn_low_investment ++ pick c6 warn_investment_ratio)
                all_warnings).
  { change all_warnings with
      ([warn_emergency_fund] ++ [warn_insurance] ++ [warn_high_equity]
       ++ [warn_age] ++ [warn_low_investment] ++ [warn_investment_ratio]).
    repeat apply sublist_app;
      match goal with |- sublist (pick ?c _) _ => destruct c end;
      cbn [pick]; try reflexivity; apply sublist_nil_l. }
  repeat split; try exact S;
    destruct c1, c2, c3, c4, c5, c6; vm_compute; congruence.
Qed.

Lemma andb_prop_iff (a b : bool) (A B : Prop) :
  (a = true <-> A) -> (b = true <-> B) -> (a && b = true <-> A /\ B).
Proof. rewrite andb_true_iff. tauto. Qed.

(** C8. [generate_warnings] emits the applicable warnings, each once and in
    the listed order, and no others: the emergency-fund warning exactly when
    there is no emergency fund and equity is above 50; the insurance warning
    exactly when not adequately insured; the volatility warning exactly when
    equity is above 80; the age warning exactly when age is above 60 and
    equity above 50; the low-investment nudge exactly when the monthly
    investment is below 5000; the over-investing warning exactly when income
    is positive and investment/income*100 is above 50. *)
Theorem C8_generate_warnings_exact (p : UserProfile) (e : Qc) :
  sublist (generate_warnings p e) all_warnings /\
  (In warn_emergency_fund (generate_warnings p e) <->
     has_emergency_fund p = false /\ (qz 50 < e)%Qc) /\
  (In warn_insurance (generate_warnings p e) <->
     has_adequate_insurance p = false) /\
  (In warn_high_equity (generate_warnings p e) <-> (qz 80 < e)%Qc) /\
  (In warn_age (generate_warnings p e) <-> (60 < age p)%Z /\ (qz 50 < e)%Qc) /\
  (In warn_low_investment (generate_warnings p e) <->
     (monthly_investment p < qz 5000)%Qc) /\
  (In warn_investment_ratio (generate_warnings p e) <->
     (qz 0 < monthly_income p)%Qc /\
     (qz 50 < monthly_investment p / monthly_income p * qz 100)%Qc).
Proof.
  rewrite generate_warnings_shape.
  match goal with
  | |- context [pick ?c1 _ ++ pick ?c2 _ ++ pick ?c3 _ ++ pick ?c4 _
                ++ pick ?c5 _ ++ pick ?c6 _] =>
      destruct (picks_members c1 c2 c3 c4 c5 c6)
        as (H1 & H2 & H3 & H4 & H5 & H6 & HS)
  end.
  cbv zeta in H1, H2, H3, H4, H5, H6, HS.
  split; [exact HS|].
  rewrite H1, H2, H3, H4, H5, H6. clear.
  split; [|split; [|split; [|split; [|split]]]].
  - apply andb_prop_iff; [apply negb_true_iff | apply NumFacts.gtb_lt].
  - apply negb_true_iff.
  - apply NumFacts.gtb_lt.
  - apply andb_prop_iff; [|apply NumFacts.gtb_lt].
    rewrite Z.gtb_lt. reflexivity.
  - apply NumFacts.ltb_lt.
  - destruct (Num.gtb (monthly_income p) (qz 0)) eqn:E.
    + apply NumFacts.gtb_lt in E. rewrite NumFacts.gtb_lt. tauto.
    + apply NumFacts.ltb_ge in E. split.
      * intros H. apply NumFacts.gtb_lt in H. exfalso. qc_lra.
      * intros [H _]. exfalso. qc_lra.
Qed.

(** C10. The recommendations do not depend on the fund count, and the three
    conditional ones are decided by the equity percentage (index funds above
    30, tax efficiency above 40) and by a positive monthly investment. *)
Theorem C10_recommendations_ignore_num_funds
    (p : UserProfile) (e : Qc) (n1 n2 : nat) :
  generate_recommendations p e n1 = generate_recommendations p e n2 /\
  (In rec_index_funds (generate_recommendations p e n1) <-> (qz 30 < e)%Qc) /\
  (In rec_tax (generate_recommendations p e n1) <-> (qz 40 < e)%Qc) /\
  (In rec_sip (generate_recommendations p e n1) <->
     (qz 0 < monthly_investment p)%Qc).
Proof.
  split; [reflexivity|].
  rewrite <- !NumFacts.gtb_lt, !In_existsb. unfold generate_recommendations.
  destruct (Num.gtb e (qz 30)), (Num.gtb e (qz 40)),
    (Num.gtb (monthly_investment p) (qz 0));
    vm_compute; repeat split; congruence.
Qed.

(** ** Dictionaries *)

Section DictFacts.
Context {V : Type}.
Implicit Types (d : dict V) (k : string) (v : V).


Lemma dict_get_None d k : dict_get d k = None <-> ~ In k (dict_keys d).
Proof.
  induction d as [|[k' v'] d IH]; cbn; [tauto|].
  destruct (String.eqb_spec k' k) as [->|Hne].
  - split; [discriminate | intros H; exfalso; apply H; left; reflexivity].
  - rewrite IH. split; [intros H [E|HI]; [congruence | auto] | tauto].
Qed.


Lemma dict_get_In d k v :
  List.NoDup (dict_keys d) -> In (k, v) d -> dict_get d k = Some v.
Proof.
  induction d as [|[k' v'] d IH]; cbn; [tauto|].
  intros ND [E|HI].
  - injection E as -> ->. rewrite String.eqb_refl. reflexivity.
  - inversion ND as [|? ? Hn ND']; subst.
    destruct (String.eqb_spec k' k) as [->|Hne].
    + exfalso. apply Hn. change k with (fst (k, v)).
      apply in_map, HI.
    + apply IH; assumption.
Qed.

Lemma dict_set_fresh d k v :
  ~ In k (dict_keys d) -> dict_set d k v = d ++ [(k, v)].
Proof.
  induction d as [|[k' v'] d IH]; cbn; [reflexivity|].
  intros H. destruct (String.eqb_spec k' k) as [->|Hne]; [tauto|].
  rewrite IH; [reflexivity | tauto].
Qed.

Lemma dict_keys_app d1 d2 : dict_keys (d1 ++ d2) = dict_keys d1 ++ dict_keys d2.
Proof. apply map_app. Qed.

Lemma dict_merge_disjoint d1 d2 :
  List.NoDup (dict_keys d1 ++ dict_keys d2) -> dict_merge d1 d2 = d1 ++ d2.
Proof.
  unfold dict_merge. revert d1.
  induction d2 as [|[k v] d2 IH]; intros d1 ND; cbn.
  - symmetry. apply app_nil_r.
  - assert (Hk : ~ In k (dict_keys d1)).
    { intros HI. apply NoDup_remove_2 in ND. apply ND.
      apply in_or_app. left. exact HI. }
    rewrite dict_set_fresh by exact Hk.
    rewrite IH.
    + rewrite <- app_assoc. reflexivity.
    + rewrite dict_keys_app, <- app_assoc. exact ND.
Qed.

End DictFacts.

Lemma dict_get_map {V W} (f : V -> W) (d : dict V) (k : string) :
  dict_get (map (fun kv => (fst kv, f (snd kv))) d) k = option_map f (dict_get d k).
Proof.
  induction d as [|[k' v'] d IH]; cbn; [reflexivity|].
  destruct (String.eqb k' k); [reflexivity | exact IH].
Qed.

(** A loop of [dict_set] over distinct new keys appends, in order. *)
Lemma fold_dict_set_fresh {V W} (f : V -> W) (d : dict V) (acc : dict W) :
  List.NoDup (dict_keys acc ++ dict_keys d) ->
  fold_left (fun acc kv => dict_set acc (fst kv) (f (snd kv))) d acc =
    acc ++ map (fun kv => (fst kv, f (snd kv))) d.
Proof.
  revert acc. induction d as [|[k v] d IH]; intros acc ND; cbn.
  - symmetry. apply app_nil_r.
  - assert (Hk : ~ In k (dict_keys acc)).
    { intros HI. apply NoDup_remove_2 in ND. apply ND.
      apply in_or_app. left. exact HI. }
    rewrite dict_set_fresh by exact Hk. rewrite IH.
    + rewrite <- app_assoc. reflexivity.
    + rewrite dict_keys_app, <- app_assoc. exact ND.
Qed.

(** ** Allocation into the store *)

Lemma fresh_dict_cons n k ks :
  fresh_dict n (k :: ks) = (k, n) :: fresh_dict (S n) ks.
Proof. reflexivity. Qed.

Lemma fresh_dict_app n ks1 ks2 :
  fresh_dict n (ks1 ++ ks2) =
    fresh_dict n ks1 ++ fresh_dict (n + List.length ks1) ks2.
Proof.
  revert n. induction ks1 as [|k ks1 IH]; intros n.
  - cbn. rewrite Nat.add_0_r. reflexivity.
  - cbn [app List.length]. rewrite !fresh_dict_cons, IH. cbn [app].
    rewrite Nat.add_succ_r. reflexivity.
Qed.

Lemma fresh_dict_keys n ks : dict_keys (fresh_dict n ks) = ks.
Proof.
  revert n. induction ks as [|k ks IH]; intros n; [reflexivity|].
  rewrite fresh_dict_cons. unfold dict_keys in *. cbn [map fst].
  rewrite IH. reflexivity.
Qed.

Lemma fresh_dict_refs n ks k r :
  In (k, r) (fresh_dict n ks) -> (n <= r < n + List.length ks)%nat.
Proof.
  revert n. induction ks as [|k0 ks IH]; intros n; cbn; [tauto|].
  intros [E|HI].
  - injection E as _ <-. lia.
  - apply IH in HI. lia.
Qed.

Section AllocLoop.
Variable cat : string.
Variable f : Z -> Qc.

Lemma alloc_loop (tpl : dict Z) (acc : dict ref) (h : heap) :
  List.NoDup (dict_keys acc ++ dict_keys tpl) ->
  for_items tpl acc (alloc_body cat f) h =
    (Ok (acc ++ fresh_dict (List.length h) (dict_keys tpl)),
     h ++ map snd (template_rows cat f tpl)).
Proof.
  revert acc h. induction tpl as [|[k t] tpl IH]; intros acc h ND.
  - cbn. rewrite !app_nil_r. reflexivity.
  - assert (Hk : ~ In k (dict_keys acc)).
    { intros HI. apply NoDup_remove_2 in ND. apply ND.
      apply in_or_app. left. exact HI. }
    cbn [for_items]. unfold bind at 1. unfold alloc_body at 1.
    unfold bind at 1. unfold new_FundAllocation at 1. unfold ret at 1.
    cbv beta iota. fold (row cat (subcategory_of k) (Num.round2 (f t))).
    rewrite dict_set_fresh by exact Hk.
    rewrite IH.
    + rewrite length_app. cbn [List.length].
      rewrite Nat.add_1_r, <- !app_assoc. reflexivity.
    + rewrite dict_keys_app, <- app_assoc. exact ND.
Qed.

End AllocLoop.

Lemma template_rows_keys cat f tpl :
  dict_keys (template_rows cat f tpl) = dict_keys tpl.
Proof.
  unfold dict_keys, template_rows. rewrite map_map. reflexivity.
Qed.

Lemma alloc_one (cat sub : string) (pct : Qc) (k : string)
    (h : heap) (rows : dict FundAllocation) :
  ~ In k (dict_keys rows) ->
  (do r <- new_FundAllocation cat sub pct;
   ret (dict_set (fresh_dict (List.length h) (dict_keys rows)) k r))
    (h ++ map snd rows) =
  (Ok (fresh_dict (List.length h) (dict_keys (rows ++ [(k, row cat sub pct)]))),
   h ++ map snd (rows ++ [(k, row cat sub pct)])).
Proof.
  intros Hk. unfold bind, new_FundAllocation, ret.
  rewrite dict_set_fresh by (rewrite fresh_dict_keys; exact Hk).
  rewrite dict_keys_app, fresh_dict_app, map_app, <- app_assoc.
  rewrite !length_app, !length_map. unfold dict_keys. rewrite length_map.
  reflexivity.
Qed.

Lemma not_In_existsb (w : string) (l : list string) :
  existsb (String.eqb w) l = false -> ~ In w l.
Proof. intros E H. apply In_existsb in H. congruence. Qed.

Lemma equity_template_total (s : EquityStrategy) :
  exists tpl,
    dict_get equity_templates (equity_strategy_name s) = Some tpl /\
    List.NoDup (dict_keys tpl) /\
    ~ In "international"%string (dict_keys tpl) /\
    ~ In "sector"%string (dict_keys tpl) /\
    ~ In "FD"%string (dict_keys tpl).
Proof.
  destruct s; eexists; (split; [reflexivity|]);
    (split; [repeat constructor; apply not_In_existsb; reflexivity|]);
    repeat split; apply not_In_existsb; reflexivity.
Qed.

Lemma allocate_equity_run (E : Qc) (s : EquityStrategy) (ai : bool) (sec : Qc)
    (h : heap) (tpl : dict Z) :
  dict_get equity_templates (equity_strategy_name s) = Some tpl ->
  allocate_equity E s ai sec h =
    (Ok (fresh_dict (List.length h) (dict_keys (equity_rows E tpl ai sec))),
     h ++ map snd (equity_rows E tpl ai sec)).
Proof.
  intros Htpl.
  destruct (equity_template_total s) as (tpl' & Htpl' & ND & Hi & Hs & _).
  rewrite Htpl in Htpl'. injection Htpl' as <-.
  unfold allocate_equity, equity_rows.
  set (ip := if ai then qz 10 else qz 0).
  set (sp := Num.min (qz 15) (Num.max (qz 0) sec)).
  set (f := fun t : Z => (qz t / qz 100 * (E * (qz 100 - ip - sp) / qz 100))%Qc).
  set (R := template_rows "Equity" f tpl).
  unfold bind at 1. unfold lift, subscript. rewrite Htpl.
  unfold bind at 1.
  change (for_items tpl [] _ h) with (for_items tpl [] (alloc_body "Equity" f) h).
  rewrite alloc_loop by exact ND. cbn [app]. fold R.
  rewrite <- (template_rows_keys "Equity" f tpl). fold R.
  assert (HiR : ~ In "international"%string (dict_keys R))
    by (subst R; rewrite template_rows_keys; exact Hi).
  assert (HsR : ~ In "sector"%string (dict_keys R))
    by (subst R; rewrite template_rows_keys; exact Hs).
  destruct ai; cbn [pick_row].
  - unfold bind at 1. rewrite alloc_one by exact HiR.
    destruct (Num.gtb sp (qz 0)); cbn [pick_row].
    + unfold bind at 1. rewrite alloc_one.
      * rewrite <- app_assoc. reflexivity.
      * rewrite dict_keys_app. intros HI. apply in_app_or in HI.
        destruct HI as [HI|[HI|[]]]; [exact (HsR HI) | discriminate HI].
    + reflexivity.
  - unfold bind at 1. unfold ret at 1.
    destruct (Num.gtb sp (qz 0)); cbn [pick_row].
    + unfold bind at 1. rewrite alloc_one by exact HsR. reflexivity.
    + rewrite app_nil_r. reflexivity.
Qed.

Lemma allocate_debt_long_term (D : Qc) (h : heap) :
  allocate_debt D long_term h =
    (Ok (fresh_dict (List.length h) ["FD"%string]),
     h ++ map snd (debt_rows D [("FD"%string, 100)])).
Proof. reflexivity. Qed.

Lemma allocate_debt_other (D : Qc) (t : GoalTimeframe) (h : heap) :
  t <> long_term ->
  allocate_debt D t h = (Raise (KeyError (goal_timeframe_name t)), h).
Proof. destruct t; [reflexivity | reflexivity | congruence]. Qed.

(** ** Reading fresh dictionaries back from the store *)

Lemma lookup_after (h pre rest : heap) (a : FundAllocation) :
  (h ++ pre ++ a :: rest) !! (List.length h + List.length pre)%nat = Some a.
Proof.
  rewrite app_assoc.
  rewrite lookup_app_r by (rewrite length_app; lia).
  rewrite length_app.
  replace (_ + _ - _)%nat with 0%nat by lia. reflexivity.
Qed.

Lemma rows_of_cons (h : heap) (k : string) (r : ref) (d : dict ref) :
  rows_of h ((k, r) :: d) =
    match h !! r with
    | Some a => a :: rows_of h d
    | None => rows_of h d
    end.
Proof. reflexivity. Qed.

Lemma rows_of_fresh_from (h pre : heap) (rows : dict FundAllocation) :
  rows_of (h ++ pre ++ map snd rows)
          (fresh_dict (List.length h + List.length pre) (dict_keys rows))
  = map snd rows.
Proof.
  revert pre. induction rows as [|[k0 a0] rows IH]; intros pre; [reflexivity|].
  change (dict_keys ((k0, a0) :: rows)) with (k0 :: dict_keys rows).
  cbn [map snd]. rewrite fresh_dict_cons, rows_of_cons, lookup_after.
  specialize (IH (pre ++ [a0])).
  rewrite length_app, <- app_assoc in IH. cbn [List.length app] in IH.
  rewrite Nat.add_1_r, Nat.add_succ_r in IH. rewrite IH. reflexivity.
Qed.

Lemma rows_of_fresh (h : heap) (rows : dict FundAllocation) :
  rows_of (h ++ map snd rows) (fresh_dict (List.length h) (dict_keys rows))
  = map snd rows.
Proof.
  pose proof (rows_of_fresh_from h [] rows) as H.
  cbn [app List.length] in H. rewrite Nat.add_0_r in H. exact H.
Qed.

(** ** C4: the rows add up to the percentage passed in *)

Lemma sum_cons (x : Qc) (l : list Qc) : Num.sum (x :: l) = (x + Num.sum l)%Qc.
Proof.
  unfold Num.sum. cbn [fold_left].
  assert (G : forall l a b,
             fold_left (fun acc y => (acc + y)%Qc) l (a + b)%Qc =
               (b + fold_left (fun acc y => (acc + y)%Qc) l a)%Qc).
  { clear. induction l as [|y l IH]; intros a b; cbn [fold_left].
    - apply Qcplus_comm.
    - rewrite <- IH. f_equal. ring. }
  apply G.
Qed.

Lemma sum_nil : Num.sum [] = qz 0.
Proof. reflexivity. Qed.

Lemma sector_pct_cases (sec : Qc) :
  let sp := Num.min (qz 15) (Num.max (qz 0) sec) in
  (Num.gtb sp (qz 0) = true) \/ (Num.gtb sp (qz 0) = false /\ sp = qz 0).
Proof.
  intros sp. destruct (Num.gtb sp (qz 0)) eqn:G; [left; reflexivity|].
  right. split; [reflexivity|]. apply NumFacts.ltb_ge in G. subst sp.
  revert G.
  destruct (NumBounds.max_cases (qz 0) sec) as [[H1 ->] | [H1 ->]];
    [destruct (NumBounds.min_cases (qz 15) sec) as [[H2 ->] | [H2 ->]]
    |destruct (NumBounds.min_cases (qz 15) (qz 0)) as [[H2 ->] | [H2 ->]]];
    intros G; qc_lra.
Qed.

(** Names every [round(x, 2)] of the goal and records how near [x] it is. *)
Ltac name_roundings :=
  repeat match goal with
         | |- context [Num.round2 ?x] =>
             let H := fresh "Hr" in
             let r := fresh "r" in
             pose proof (NumBounds.round2_near x) as H;
             set (r := Num.round2 x) in *; clearbody r
         end.

(** C4. For every equity percentage (so for those in [0,100]), strategy,
    international flag and sector request, the percentages of the rows
    [allocate_equity] returns add up to the equity percentage within 0.1;
    the same holds for [allocate_debt] on the supported timeframe. *)
Theorem C4_allocation_sums
    (E D : Qc) (s : EquityStrategy) (ai : bool) (sec : Qc) (h : heap) :
  (exists (d : dict ref) (h' : heap),
      allocate_equity E s ai sec h = (Ok d, h') /\
      List.length (rows_of h' d) = List.length d /\
      (E - Q2Qc (1 # 10) <= Num.sum (map percentage (rows_of h' d))
       <= E + Q2Qc (1 # 10))%Qc) /\
  (exists (d : dict ref) (h' : heap),
      allocate_debt D long_term h = (Ok d, h') /\
      List.length (rows_of h' d) = List.length d /\
      (D - Q2Qc (1 # 10) <= Num.sum (map percentage (rows_of h' d))
       <= D + Q2Qc (1 # 10))%Qc).
Proof.
  split.
  - destruct (equity_template_total s) as (tpl & Htpl & _).
    exists (fresh_dict (List.length h) (dict_keys (equity_rows E tpl ai sec))),
      (h ++ map snd (equity_rows E tpl ai sec)).
    split; [apply allocate_equity_run, Htpl|].
    rewrite rows_of_fresh.
    split.
    { rewrite length_map. unfold fresh_dict, dict_keys.
      rewrite length_combine, length_seq, length_map. lia. }
    unfold equity_rows.
    destruct (sector_pct_cases sec) as [G | [G G0]]; cbv zeta in G;
      rewrite G; [|rewrite !G0];
      destruct s; cbn in Htpl; injection Htpl as <-; destruct ai;
      cbn [template_rows pick_row map app fst snd percentage row];
      rewrite ?sum_cons, sum_nil;
      name_roundings; qc_lra.
  - rewrite allocate_debt_long_term. eexists _, _.
    split; [reflexivity|]. rewrite rows_of_fresh.
    split; [reflexivity|].
    cbn [debt_rows template_rows pick_row map app fst snd percentage row].
    rewrite ?sum_cons, sum_nil.
    name_roundings; qc_lra.
Qed.

(** ** Setting amounts in the store *)

Lemma distinct_NoDup (ks : list string) : distinct ks = true -> List.NoDup ks.
Proof.
  induction ks as [|k ks IH]; cbn; [constructor|].
  rewrite andb_true_iff, negb_true_iff. intros [Hk Hd].
  constructor; [apply not_In_existsb, Hk | apply IH, Hd].
Qed.

Lemma refs_below_In n d k r : refs_below n d = true -> In (k, r) d -> (r < n)%nat.
Proof.
  unfold refs_below. rewrite forallb_forall. intros H HI.
  specialize (H _ HI). cbn in H. apply Nat.ltb_lt, H.
Qed.

Lemma refs_below_fresh n ks m :
  (n + List.length ks <= m)%nat -> refs_below m (fresh_dict n ks) = true.
Proof.
  intros Hm. unfold refs_below. apply forallb_forall. intros [k r] HI.
  apply fresh_dict_refs in HI. cbn. apply Nat.ltb_lt. lia.
Qed.

Lemma amount_for_with_amount total a x :
  amount_for total (with_amount a x) = amount_for total a.
Proof. reflexivity. Qed.

Lemma amount_set_with_amount total a x :
  amount_set total (with_amount a x) = amount_set total a.
Proof. reflexivity. Qed.

Lemma bind_run {A B} (m : M A) (k : A -> M B) (h h' : heap) (a : A) :
  m h = (Ok a, h') -> bind m k h = k a h'.
Proof. intros H. unfold bind. rewrite H. reflexivity. Qed.

Lemma bind_raise {A B} (m : M A) (k : A -> M B) (h h' : heap) (e : exn) :
  m h = (Raise e, h') -> bind m k h = (Raise e, h').
Proof. intros H. unfold bind. rewrite H. reflexivity. Qed.

Lemma read_run (r : ref) (h : heap) (a : FundAllocation) :
  h !! r = Some a -> read r h = (Ok a, h).
Proof. intros H. unfold read. rewrite H. reflexivity. Qed.

Lemma set_amount_run (r : ref) (x : Qc) (h : heap) (a : FundAllocation) :
  h !! r = Some a -> set_amount r x h = (Ok tt, <[ r := with_amount a x ]> h).
Proof. intros H. unfold set_amount. rewrite H. reflexivity. Qed.

Lemma fold_left_pointwise {A B} (f g : A -> B -> A) (l : list B) (a : A) :
  (forall a x, f a x = g a x) -> fold_left f l a = fold_left g l a.
Proof.
  intros E. revert a. induction l as [|x l IH]; intros a; cbn; [reflexivity|].
  rewrite E. apply IH.
Qed.

Lemma calculate_fund_amounts_loop (total : Qc) (d : dict ref) (acc : dict Qc)
    (h : heap) :
  refs_below (List.length h) d = true ->
  exists h',
    for_items d acc (cfa_body total) h =
      (Ok (fold_left
             (fun b kv => dict_set b (fst kv) (amount_at total h (snd kv))) d acc),
       h') /\
    List.length h' = List.length h /\
    forall r, h' !! r = touch total (map snd d) h r.
Proof.
  revert acc h. induction d as [|[k r0] d IH]; intros acc h Hb.
  - exists h. repeat split.
  - cbn [refs_below forallb snd] in Hb. apply andb_true_iff in Hb.
    destruct Hb as [Hr0 Hb]. apply Nat.ltb_lt in Hr0.
    destruct (lookup_lt_is_Some_2 h r0 Hr0) as [a Ha].
    set (h1 := <[r0 := amount_set total a]> h).
    assert (Hlen1 : List.length h1 = List.length h) by apply length_insert.
    destruct (IH (dict_set acc k (amount_for total a)) h1) as (h' & Hrun & Hlen & Hlook).
    { rewrite Hlen1. exact Hb. }
    exists h'. split; [|split].
    + cbn [for_items].
      rewrite (bind_run _ _ h h1 (dict_set acc k (amount_for total a))).
      2:{ unfold cfa_body. rewrite (bind_run _ _ h h a) by (apply read_run, Ha).
          rewrite (bind_run _ _ h h1 tt) by (apply set_amount_run, Ha).
          reflexivity. }
      rewrite Hrun. f_equal. f_equal.
      cbn [fold_left fst snd].
      replace (amount_at total h r0) with (amount_for total a)
        by (unfold amount_at; rewrite Ha; reflexivity).
      apply fold_left_pointwise. intros b [k' r']. cbn [fst snd].
      f_equal. unfold amount_at, h1.
      destruct (Nat.eq_dec r0 r') as [<-|Hne].
      * rewrite list_lookup_insert_eq by exact Hr0. rewrite Ha. reflexivity.
      * rewrite list_lookup_insert_ne by exact Hne. reflexivity.
    + lia.
    + intros r. rewrite Hlook. unfold touch, h1. cbn [map snd existsb].
      destruct (Nat.eqb_spec r r0) as [->|Hne]; cbn [orb].
      * rewrite list_lookup_insert_eq by exact Hr0. rewrite Ha. cbn [option_map].
        destruct (existsb _ _); reflexivity.
      * rewrite list_lookup_insert_ne by congruence. reflexivity.
Qed.

Lemma triggers_loop (dt : Qc) (d : dict ref) (acc : dict (Qc * Qc)) (h : heap) :
  refs_below (List.length h) d = true ->
  exists t, for_items d acc (trig_body dt) h = (Ok t, h).
Proof.
  revert acc. induction d as [|[k r0] d IH]; intros acc Hb.
  - exists acc. reflexivity.
  - cbn [refs_below forallb snd] in Hb. apply andb_true_iff in Hb.
    destruct Hb as [Hr0 Hb]. apply Nat.ltb_lt in Hr0.
    destruct (lookup_lt_is_Some_2 h r0 Hr0) as [a Ha].
    cbn [for_items]. unfold trig_body at 1.
    rewrite (bind_run _ _ h h _ (bind_run _ _ h h a (read_run _ _ _ Ha))).
    apply IH, Hb.
Qed.

Lemma touch_touch (t1 t2 : Qc) (refs : list ref) (h1 h : heap) (r : ref) :
  (forall r, h1 !! r = touch t1 refs h r) ->
  touch t2 refs h1 r = touch t2 refs h r.
Proof.
  intros H1. unfold touch at 1. rewrite H1. unfold touch.
  destruct (existsb (Nat.eqb r) refs); [|reflexivity].
  destruct (h !! r); reflexivity.
Qed.

Lemma amount_at_touch (t1 t2 : Qc) (refs : list ref) (h1 h : heap) (r : ref) :
  (forall r, h1 !! r = touch t1 refs h r) ->
  amount_at t2 h1 r = amount_at t2 h r.
Proof.
  intros H1. unfold amount_at. rewrite H1. unfold touch.
  destruct (existsb (Nat.eqb r) refs); [|reflexivity].
  destruct (h !! r); reflexivity.
Qed.

Lemma calculate_fund_amounts_run (total : Qc) (d : dict ref) (h : heap) :
  refs_below (List.length h) d = true ->
  List.NoDup (dict_keys d) ->
  exists h',
    calculate_fund_amounts d total h = (Ok (breakdown_of total h d), h') /\
    List.length h' = List.length h /\
    forall r, h' !! r = touch total (map snd d) h r.
Proof.
  intros Hb ND.
  destruct (calculate_fund_amounts_loop total d [] h Hb) as (h' & Hrun & Hlen & Hl).
  exists h'. split; [|split; assumption].
  change (calculate_fund_amounts d total) with (for_items d [] (cfa_body total)).
  rewrite Hrun. f_equal. f_equal.
  apply (fold_dict_set_fresh (amount_at total h) d []). exact ND.
Qed.

(** The three loops of [create_plan] over the merged dictionary. *)
Lemma amounts_then_triggers {X} (mi lump dt : Qc) (d : dict ref) (h : heap)
    (K : dict Qc -> dict Qc -> dict (Qc * Qc) -> M X) :
  refs_below (List.length h) d = true ->
  List.NoDup (dict_keys d) ->
  exists (t : dict (Qc * Qc)) (h2 : heap),
    (do monthly_sip <- calculate_fund_amounts d mi;
     do lumpsum <- calculate_fund_amounts d lump;
     do triggers <- set_rebalancing_triggers d dt;
     K monthly_sip lumpsum triggers) h =
      K (breakdown_of mi h d) (breakdown_of lump h d) t h2 /\
    List.length h2 = List.length h /\
    forall r, h2 !! r = touch lump (map snd d) h r.
Proof.
  intros Hb ND.
  destruct (calculate_fund_amounts_run mi d h Hb ND) as (h1 & R1 & L1 & T1).
  assert (Hb1 : refs_below (List.length h1) d = true) by (rewrite L1; exact Hb).
  destruct (calculate_fund_amounts_run lump d h1 Hb1 ND) as (h2 & R2 & L2 & T2).
  assert (Hb2 : refs_below (List.length h2) d = true) by (rewrite L2; exact Hb1).
  destruct (triggers_loop dt d [] h2 Hb2) as (t & R3).
  exists t, h2. split; [|split].
  - rewrite (bind_run _ _ _ _ _ R1), (bind_run _ _ _ _ _ R2).
    change (set_rebalancing_triggers d dt) with (for_items d [] (trig_body dt)).
    rewrite (bind_run _ _ _ _ _ R3). f_equal. unfold breakdown_of.
    apply map_ext. intros [k r]. cbn [fst snd]. f_equal.
    apply (amount_at_touch mi lump (map snd d)). exact T1.
  - lia.
  - intros r. rewrite T2. apply (touch_touch mi lump). exact T1.
Qed.

(** ** Running [create_plan] on a valid profile *)

Lemma split_total (p : UserProfile) :
  exists E : Qc, calculate_equity_debt_split p = Ok (E, (qz 100 - E)%Qc).
Proof.
  unfold calculate_equity_debt_split.
  destruct (custom_equity_percentage p); [eexists; reflexivity|].
  destruct (risk_profile p) as [[]|]; eexists; reflexivity.
Qed.

Lemma plan_keys_NoDup (E D : Qc) (s : EquityStrategy) (tpl : dict Z)
    (ai : bool) (sec : Qc) :
  dict_get equity_templates (equity_strategy_name s) = Some tpl ->
  List.NoDup
    (dict_keys (equity_rows E tpl ai sec ++ debt_rows D [("FD"%string, 100)])).
Proof.
  intros Htpl. rewrite dict_keys_app. unfold equity_rows.
  rewrite !dict_keys_app, template_rows_keys.
  destruct s; cbn in Htpl; injection Htpl as <-;
    destruct ai; destruct (Num.gtb _ _);
    apply distinct_NoDup; reflexivity.
Qed.

Lemma create_plan_valid_run (p : UserProfile) (es : option EquityStrategy)
    (ai : bool) (sec dt : Qc) (now : Z) (h : heap) :
  fst (validate p) = true ->
  exists (E : Qc) (tpl : dict Z) (t : dict (Qc * Qc)) (h' : heap),
    calculate_equity_debt_split p = Ok (E, (qz 100 - E)%Qc) /\
    dict_get equity_templates (equity_strategy_name (resolve_strategy es p))
      = Some tpl /\
    let Re := equity_rows E tpl ai sec in
    let Rd := debt_rows (qz 100 - E)%Qc [("FD"%string, 100)] in
    let H := h ++ map snd (Re ++ Rd) in
    let all := fresh_dict (List.length h) (dict_keys (Re ++ Rd)) in
    create_plan p es long_term ai sec dt now h =
      (Ok {| user_profile := p;
             equity_percentage := Num.round2 E;
             debt_percentage := Num.round2 (qz 100 - E)%Qc;
             equity_allocations := fresh_dict (List.length h) (dict_keys Re);
             debt_allocations :=
               fresh_dict (List.length h + List.length Re) (dict_keys Rd);
             monthly_sip_breakdown := breakdown_of (monthly_investment p) H all;
             lumpsum_breakdown := breakdown_of (lump_sum_investment p) H all;
             rebalancing_triggers := t;
             warnings := generate_warnings p E;
             recommendations :=
               generate_recommendations p E (List.length all);
             created_at := now |},
       h') /\
    List.length h' = List.length H /\
    forall r, h' !! r = touch (lump_sum_investment p) (map snd all) H r.
Proof.
  intros Hvalid.
  destruct (split_total p) as (E & HE).
  destruct (equity_template_total (resolve_strategy es p)) as (tpl & Htpl & _).
  set (Re := equity_rows E tpl ai sec).
  set (Rd := debt_rows (qz 100 - E)%Qc [("FD"%string, 100)]).
  set (H := h ++ map snd (Re ++ Rd)).
  set (all := fresh_dict (List.length h) (dict_keys (Re ++ Rd))).
  assert (ND : List.NoDup (dict_keys all)).
  { subst all. rewrite fresh_dict_keys. apply (plan_keys_NoDup _ _ _ _ _ _ Htpl). }
  assert (Hb : refs_below (List.length H) all = true).
  { subst all H. apply refs_below_fresh. rewrite length_app, length_map.
    unfold dict_keys. rewrite length_map. lia. }
  assert (Hmerge :
            dict_merge (fresh_dict (List.length h) (dict_keys Re))
              (fresh_dict (List.length (h ++ map snd Re)) (dict_keys Rd)) = all).
  { rewrite dict_merge_disjoint.
    - subst all. rewrite dict_keys_app, fresh_dict_app.
      rewrite length_app, length_map. unfold dict_keys. rewrite length_map.
      reflexivity.
    - rewrite !fresh_dict_keys, <- dict_keys_app.
      apply (plan_keys_NoDup _ _ _ _ _ _ Htpl). }
  destruct (amounts_then_triggers
              (monthly_investment p) (lump_sum_investment p) dt all H
              (fun monthly_sip lumpsum triggers =>
                 ret {| user_profile := p;
                        equity_percentage := Num.round2 E;
                        debt_percentage := Num.round2 (qz 100 - E)%Qc;
                        equity_allocations :=
                          fresh_dict (List.length h) (dict_keys Re);
                        debt_allocations :=
                          fresh_dict (List.length (h ++ map snd Re)) (dict_keys Rd);
                        monthly_sip_breakdown := monthly_sip;
                        lumpsum_breakdown := lumpsum;
                        rebalancing_triggers := triggers;
                        warnings := generate_warnings p E;
                        recommendations :=
                          generate_recommendations p E (List.length all);
                        created_at := now |})
              Hb ND) as (t & h2 & Hrun & Hlen & Hl).
  exists E, tpl, t, h2. split; [exact HE|]. split; [exact Htpl|].
  cbv zeta. fold Re Rd. fold H. fold all.
  split; [|split; assumption].
  unfold create_plan. destruct (validate p) as [v errs].
  cbn [fst] in Hvalid. subst v. cbn [negb].
  rewrite (bind_run _ _ h h (E, (qz 100 - E)%Qc)) by (unfold lift; rewrite HE; reflexivity).
  fold (resolve_strategy es p).
  rewrite (bind_run _ _ _ _ _ (allocate_equity_run E _ ai sec h tpl Htpl)).
  fold Re.
  rewrite (bind_run _ _ _ _ _ (allocate_debt_long_term (qz 100 - E)%Qc (h ++ map snd Re))).
  fold Rd. change ["FD"%string] with (dict_keys Rd). rewrite Hmerge.
  replace ((h ++ map snd Re) ++ map snd Rd) with H
    by (subst H; rewrite map_app, app_assoc; reflexivity).
  rewrite Hrun. unfold ret. rewrite length_app, length_map. reflexivity.
Qed.

Lemma existsb_eqb_In (r : ref) (refs : list ref) :
  existsb (Nat.eqb r) refs = true <-> In r refs.
Proof.
  rewrite existsb_exists. split.
  - intros (x & Hx & E). apply Nat.eqb_eq in E. subst. exact Hx.
  - intros H. exists r. split; [exact H | apply Nat.eqb_refl].
Qed.

Lemma touch_In (total : Qc) (refs : list ref) (h : heap) (r : ref)
    (a : FundAllocation) :
  In r refs -> h !! r = Some a ->
  touch total refs h r = Some (amount_set total a).
Proof.
  intros HI Ha. unfold touch.
  rewrite (proj2 (existsb_eqb_In r refs) HI), Ha. reflexivity.
Qed.

Lemma touch_not_In (total : Qc) (refs : list ref) (h : heap) (r : ref) :
  ~ In r refs -> touch total refs h r = h !! r.
Proof.
  intros HI. unfold touch. destruct (existsb (Nat.eqb r) refs) eqn:E.
  - exfalso. apply HI, existsb_eqb_In, E.
  - reflexivity.
Qed.

Lemma breakdown_lookup (total : Qc) (h : heap) (d : dict ref) (k : string)
    (r : ref) (a : FundAllocation) :
  List.NoDup (dict_keys d) -> In (k, r) d -> h !! r = Some a ->
  dict_get (breakdown_of total h d) k = Some (amount_for total a).
Proof.
  intros ND HI Ha. unfold breakdown_of.
  rewrite (dict_get_map (amount_at total h) d k).
  rewrite (dict_get_In d k r ND HI). cbn [option_map].
  unfold amount_at. rewrite Ha. reflexivity.
Qed.

Lemma breakdown_keys (total : Qc) (h : heap) (d : dict ref) :
  dict_keys (breakdown_of total h d) = dict_keys d.
Proof. unfold breakdown_of, dict_keys. rewrite map_map. reflexivity. Qed.

(** ** C1: validation failures *)

Lemma GoalTimeframe_eq_dec (a b : GoalTimeframe) : {a = b} + {a <> b}.
Proof. decide equality. Defined.

Lemma violated_b_spec (p : UserProfile) (r : Rule) :
  violated_b p r = true <-> violated p r.
Proof.
  destruct r; cbn [violated_b violated].
  - rewrite orb_true_iff, Z.ltb_lt, Z.gtb_lt. reflexivity.
  - apply NumFacts.ltb_lt.
  - apply NumFacts.ltb_lt.
  - apply NumFacts.gtb_lt.
  - apply NumFacts.ltb_lt.
  - destruct (custom_equity_percentage p) as [c|].
    + rewrite orb_true_iff, NumFacts.ltb_lt, NumFacts.gtb_lt. split.
      * intros H. exists c. split; [reflexivity | exact H].
      * intros (c' & [= <-] & H). exact H.
    + split; [discriminate | intros (c' & [=] & _)].
Qed.

Lemma validate_shape (p : UserProfile) :
  validate p =
    (match broken_rules p with [] => true | _ => false end,
     map rule_message (broken_rules p)).
Proof.
  unfold validate, broken_rules, all_rules. cbn [filter].
  unfold violated_b.
  destruct ((age p <? 18)%Z || (age p >? 100)%Z);
    destruct (Num.ltb (monthly_income p) (qz 0));
    destruct (Num.ltb (monthly_investment p) (qz 0));
    destruct (Num.gtb (monthly_investment p) (monthly_income p));
    destruct (Num.ltb (lump_sum_investment p) (qz 0));
    (destruct (custom_equity_percentage p) as [c|];
     [destruct (Num.ltb c (qz 0) || Num.gtb c (qz 100))|]);
    reflexivity.
Qed.

Lemma create_plan_invalid (p : UserProfile) (es : option EquityStrategy)
    (ds : GoalTimeframe) (ai : bool) (sec dt : Qc) (now : Z) (h : heap) :
  broken_rules p <> [] ->
  create_plan p es ds ai sec dt now h =
    (Raise (ValueError (invalid_profile_message (broken_rules p))), h).
Proof.
  intros Hne. unfold create_plan. rewrite validate_shape.
  destruct (broken_rules p); [congruence | reflexivity].
Qed.

Lemma create_plan_valid_other (p : UserProfile) (es : option EquityStrategy)
    (ds : GoalTimeframe) (ai : bool) (sec dt : Qc) (now : Z) (h : heap) :
  fst (validate p) = true -> ds <> long_term ->
  exists h',
    create_plan p es ds ai sec dt now h =
      (Raise (KeyError (goal_timeframe_name ds)), h').
Proof.
  intros Hvalid Hds.
  destruct (split_total p) as (E & HE).
  destruct (equity_template_total (resolve_strategy es p)) as (tpl & Htpl & _).
  eexists. unfold create_plan. destruct (validate p) as [v errs].
  cbn [fst] in Hvalid. subst v. cbn [negb].
  rewrite (bind_run _ _ h h (E, (qz 100 - E)%Qc))
    by (unfold lift; rewrite HE; reflexivity).
  fold (resolve_strategy es p).
  rewrite (bind_run _ _ _ _ _ (allocate_equity_run E _ ai sec h tpl Htpl)).
  rewrite (bind_raise _ _ _ _ _ (allocate_debt_other _ ds _ Hds)).
  reflexivity.
Qed.

(** C1. Let [rs] be the rules the profile breaks, in the order they are
    checked.  [validate] reports exactly their messages.  If [rs] is not
    empty, [create_plan] raises [ValueError] with the message
    "Invalid profile: " followed by all these messages joined by ", ", and
    returns no plan (the store is untouched).  If [rs] is empty,
    [create_plan] raises no [ValueError]. *)
Theorem C1_validation_failure_aggregated
    (p : UserProfile) (es : option EquityStrategy) (ds : GoalTimeframe)
    (ai : bool) (sec dt : Qc) (now : Z) (h : heap) :
  exists rs : list Rule,
    sublist rs all_rules /\
    (forall r, In r rs <-> violated p r) /\
    snd (validate p) = map rule_message rs /\
    (rs <> [] ->
       create_plan p es ds ai sec dt now h =
         (Raise (ValueError (invalid_profile_message rs)), h)) /\
    (rs = [] ->
       forall msg, fst (create_plan p es ds ai sec dt now h)
                   <> Raise (ValueError msg)).
Proof.
  exists (broken_rules p). split; [|split; [|split; [|split]]].
  - unfold broken_rules. apply sublist_filter.
  - intros r. unfold broken_rules. rewrite <- violated_b_spec.
    rewrite <- list_elem_of_In, list_elem_of_filter, list_elem_of_In.
    split; [tauto|]. intros H. split; [exact H|].
    destruct r; cbn; tauto.
  - rewrite validate_shape. reflexivity.
  - apply create_plan_invalid.
  - intros Hnil msg.
    assert (Hvalid : fst (validate p) = true)
      by (rewrite validate_shape, Hnil; reflexivity).
    destruct (GoalTimeframe_eq_dec ds long_term) as [->|Hds].
    + destruct (create_plan_valid_run p es ai sec dt now h Hvalid)
        as (E & tpl & t & h' & _ & _ & Hrun & _).
      cbv zeta in Hrun. rewrite Hrun. discriminate.
    + destruct (create_plan_valid_other p es ds ai sec dt now h Hvalid Hds)
        as (h' & Hrun).
      rewrite Hrun. discriminate.
Qed.

(** ** The loop of [check_rebalancing_needed] *)

Section RenderingFacts.
Variable str_num : Qc -> string.
Variable fmt_1f : Qc -> string.

Lemma drift_loop (current_pct target_pct : dict Qc) (thr : Qc)
    (acc : list string) :
  fold_left
    (fun drifted_funds kv =>
       let fund := fst kv in
       let target := snd kv in
       let current := dict_get_default current_pct fund (qz 0) in
       let drift := Num.abs (current - target)%Qc in
       if Num.geb drift thr
       then drifted_funds
            ++ [drift_description str_num fmt_1f fund target current drift]
       else drifted_funds)
    target_pct acc
  = acc ++
    map (fun kv =>
           drift_description str_num fmt_1f (fst kv) (snd kv)
             (dict_get_default current_pct (fst kv) (qz 0))
             (drift_of current_pct kv))
        (filter (fun kv => (thr <= drift_of current_pct kv)%Qc) target_pct).
Proof.
  revert acc. induction target_pct as [|kv l IH]; intros acc.
  - cbn. symmetry. apply app_nil_r.
  - cbn [fold_left]. cbv zeta. rewrite IH. rewrite filter_cons.
    fold (drift_of current_pct kv).
    destruct (Num.geb (drift_of current_pct kv) thr) eqn:G.
    + apply NumFacts.geb_le in G. rewrite decide_True by exact G.
      cbn [map]. rewrite <- app_assoc. reflexivity.
    + apply NumFacts.leb_gt in G.
      rewrite decide_False by (apply Qclt_not_le, G). reflexivity.
Qed.

End RenderingFacts.

(** ** Sets of keys and conditional updates *)

Lemma set_add_In (k x : string) (s : list string) :
  In x (set_add k s) <-> x = k \/ In x s.
Proof.
  unfold set_add. destruct (existsb (String.eqb k) s) eqn:E.
  - split; [tauto|]. intros [->|H]; [|exact H]. apply In_existsb, E.
  - rewrite in_app_iff. cbn. intuition congruence.
Qed.

Lemma NoDup_snoc {A} (s : list A) (k : A) :
  List.NoDup s -> ~ In k s -> List.NoDup (s ++ [k]).
Proof.
  induction s as [|x s IH]; intros ND Hk; cbn.
  - constructor; [intros [] | constructor].
  - inversion ND as [|? ? Hx ND']; subst. constructor.
    + rewrite in_app_iff. cbn. intros [H|[->|[]]]; [exact (Hx H)|].
      apply Hk. left. reflexivity.
    + apply IH; [exact ND'|]. intros H. apply Hk. right. exact H.
Qed.

Lemma set_add_NoDup (k : string) (s : list string) :
  List.NoDup s -> List.NoDup (set_add k s).
Proof.
  intros ND. unfold set_add. destruct (existsb (String.eqb k) s) eqn:E.
  - exact ND.
  - apply NoDup_snoc; [exact ND | apply not_In_existsb, E].
Qed.

Lemma set_fold_In (l s : list string) (x : string) :
  In x (fold_left (fun s k => set_add k s) l s) <-> In x l \/ In x s.
Proof.
  revert s. induction l as [|k l IH]; intros s; cbn [fold_left].
  - cbn. tauto.
  - rewrite IH, set_add_In. cbn. intuition congruence.
Qed.

Lemma set_fold_NoDup (l s : list string) :
  List.NoDup s -> List.NoDup (fold_left (fun s k => set_add k s) l s).
Proof.
  revert s. induction l as [|k l IH]; intros s ND; cbn [fold_left].
  - exact ND.
  - apply IH, set_add_NoDup, ND.
Qed.

Lemma key_union_In (a b : list string) (x : string) :
  In x (set_union (set_of a) (set_of b)) <-> In x a \/ In x b.
Proof.
  unfold set_union, set_of. rewrite !set_fold_In. cbn. tauto.
Qed.

Lemma key_union_NoDup (a b : list string) :
  List.NoDup (set_union (set_of a) (set_of b)).
Proof.
  unfold set_union, set_of. apply set_fold_NoDup, set_fold_NoDup. constructor.
Qed.

Section CondSet.
Context {V : Type}.
Variable c : string -> bool.
Variable v : string -> V.

Lemma fold_cond_set (l : list string) (acc : dict V) :
  List.NoDup (dict_keys acc ++ l) ->
  fold_left (fun acc f => if c f then dict_set acc f (v f) else acc) l acc =
    acc ++ flat_map (fun f => if c f then [(f, v f)] else []) l.
Proof.
  revert acc. induction l as [|f l IH]; intros acc ND; cbn [fold_left flat_map].
  - symmetry. apply app_nil_r.
  - assert (Hf : ~ In f (dict_keys acc)).
    { intros HI. apply NoDup_remove_2 in ND. apply ND.
      apply in_or_app. left. exact HI. }
    assert (ND' : List.NoDup (dict_keys acc ++ l))
      by (apply NoDup_remove_1 in ND; exact ND).
    destruct (c f).
    + rewrite dict_set_fresh by exact Hf. rewrite IH.
      * rewrite <- app_assoc. reflexivity.
      * rewrite dict_keys_app, <- app_assoc. exact ND.
    + apply IH, ND'.
Qed.


End CondSet.


Lemma flat_map_singleton {A B} (g : A -> B) (l : list A) :
  flat_map (fun x => [g x]) l = map g l.
Proof. induction l as [|x l IH]; cbn; [reflexivity | rewrite IH; reflexivity]. Qed.

(** ** Worked examples *)

(** A profile that breaks two rules gets both named. *)
Example bad_profile_rejected :
  create_plan bad_profile None long_term false (qz 0) (qz 5) 0 [] =
    (Raise (ValueError
       "Invalid profile: Age must be between 18 and 100, Monthly investment cannot exceed monthly income"),
     []).
Proof. vm_compute. reflexivity. Qed.

(** An unsupported debt timeframe is a [KeyError], raised after the
    equity rows were created. *)
Example short_term_debt_key_error :
  fst (create_plan sample_profile None short_term false (qz 0) (qz 5) 0 []) =
    Raise (KeyError "short_term").
Proof. vm_compute. reflexivity. Qed.

(** * Further properties of the engine *)

(** ** More on rounding *)

Module RoundFacts.

Lemma round_half_even_nearest (x : Qc) :
  nearest_even x (Num.round_half_even x).
Proof.
  destruct x as [[n d] H]. unfold Num.round_half_even, nearest_even.
  cbn [this Qnum Qden].
  pose proof (Z.div_mod n (Zpos d) ltac:(lia)) as E.
  pose proof (Z.mod_pos_bound n (Zpos d) ltac:(lia)) as B.
  set (q := n / Zpos d) in *. set (r := n mod Zpos d) in *.
  assert (Hlt : forall z : Z,
             2 * Z.abs (z * Zpos d - n) < Zpos d ->
             (inject_Z z - (1 # 2) < n # d /\ n # d < inject_Z z + (1 # 2))%Q).
  { intros z. unfold Qlt, Qminus, Qplus, Qopp, inject_Z. cbn. lia. }
  assert (Heq : forall z : Z,
             2 * Z.abs (z * Zpos d - n) = Zpos d ->
             (n # d == inject_Z z - (1 # 2) \/ n # d == inject_Z z + (1 # 2))%Q).
  { intros z. unfold Qeq, Qminus, Qplus, Qopp, inject_Z. cbn. lia. }
  destruct (Z.compare_spec (2 * r) (Zpos d)) as [C|C|C].
  - right. destruct (Z.even q) eqn:Ev.
    + split; [apply Heq; lia | exact Ev].
    + split; [apply Heq; lia|].
      rewrite Z.even_add, Ev. reflexivity.
  - left. apply Hlt. lia.
  - left. apply Hlt. lia.
Qed.

Lemma inject_Z_gap (a b : Z) :
  (inject_Z a < inject_Z b + 1)%Q -> a <= b.
Proof. unfold Qlt, Qplus, inject_Z. cbn. lia. Qed.

Lemma inject_Z_eq_1 (a b : Z) :
  (inject_Z a == inject_Z b + 1)%Q -> a = b + 1.
Proof. unfold Qeq, Qplus, inject_Z. cbn. lia. Qed.

Lemma even_succ_false (a : Z) : Z.even a = true -> Z.even (a + 1) = true -> False.
Proof. rewrite Z.even_add. intros ->. cbn. discriminate. Qed.

(** Rounding half to even is monotone. *)
Lemma nearest_even_mono (p q : Q) (a b : Z) :
  (p <= q)%Q -> nearest_even p a -> nearest_even q b -> a <= b.
Proof.
  intros Hpq Ha Hb.
  destruct (Z_le_gt_dec a b) as [|Hgt]; [assumption|]. exfalso.
  assert (Hab : (inject_Z b + 1 <= inject_Z a)%Q).
  { unfold Qle, Qplus, inject_Z. cbn. lia. }
  destruct Ha as [[Ha1 Ha2] | [Ha Hea]]; destruct Hb as [[Hb1 Hb2] | [Hb Heb]].
  - lra.
  - destruct Hb; lra.
  - destruct Ha; lra.
  - assert (E : (inject_Z a == inject_Z b + 1)%Q) by (destruct Ha, Hb; lra).
    apply inject_Z_eq_1 in E. subst a. exact (even_succ_false b Heb Hea).
Qed.

Lemma nearest_even_unique (q : Q) (a b : Z) :
  nearest_even q a -> nearest_even q b -> a = b.
Proof.
  intros Ha Hb. apply Z.le_antisymm.
  - apply (nearest_even_mono q q a b); [lra | assumption | assumption].
  - apply (nearest_even_mono q q b a); [lra | assumption | assumption].
Qed.

Lemma nearest_even_ext (p q : Q) (z : Z) :
  (p == q)%Q -> nearest_even p z -> nearest_even q z.
Proof.
  intros E [[H1 H2] | [H He]]; [left | right].
  - split; lra.
  - split; [destruct H; [left | right]; lra | exact He].
Qed.

Lemma round_half_even_mono (x y : Qc) :
  (x <= y)%Qc -> Num.round_half_even x <= Num.round_half_even y.
Proof.
  intros H. apply (nearest_even_mono x y); [exact H | |];
    apply round_half_even_nearest.
Qed.

Lemma round_half_even_eq (x : Qc) (z : Z) :
  nearest_even x z -> Num.round_half_even x = z.
Proof.
  intros H. apply (nearest_even_unique x); [apply round_half_even_nearest | exact H].
Qed.

Lemma round_half_even_of_Z (k : Z) : Num.round_half_even (qz k) = k.
Proof.
  apply round_half_even_eq. left.
  rewrite NumFacts.this_of_Z. split; lra.
Qed.

Lemma hundredths (z : Z) : (Q2Qc (z # 100) * qz 100)%Qc = qz z.
Proof.
  apply Qc_is_canon. qc_push.
  unfold Qeq, Qmult, inject_Z. cbn. lia.
Qed.

(** [round(x, 2)] is monotone. *)
Lemma round2_mono (x y : Qc) : (x <= y)%Qc -> (Num.round2 x <= Num.round2 y)%Qc.
Proof.
  intros H. unfold Num.round2.
  assert (M : Num.round_half_even (x * qz 100) <= Num.round_half_even (y * qz 100)).
  { apply round_half_even_mono. qc_lra. }
  unfold Qcle. rewrite !NumFacts.this_Q2Qc.
  unfold Qle. cbn. lia.
Qed.

(** Rounding a number that has two decimals changes nothing. *)
Lemma round2_hundredths (z : Z) : Num.round2 (Q2Qc (z # 100)) = Q2Qc (z # 100).
Proof.
  unfold Num.round2. rewrite hundredths, round_half_even_of_Z. reflexivity.
Qed.

Lemma round2_idem (x : Qc) : Num.round2 (Num.round2 x) = Num.round2 x.
Proof. unfold Num.round2 at 2 3. apply round2_hundredths. Qed.

Lemma round2_of_Z (k : Z) : Num.round2 (qz k) = qz k.
Proof.
  unfold Num.round2.
  assert (E : (qz k * qz 100)%Qc = qz (k * 100)).
  { apply Qc_is_canon. qc_push. unfold Qeq, Qmult, inject_Z. cbn. lia. }
  rewrite E, round_half_even_of_Z.
  apply Qc_is_canon. rewrite NumFacts.this_Q2Qc, NumFacts.this_of_Z.
  unfold Qeq, inject_Z. cbn. lia.
Qed.

End RoundFacts.

(** ** Validation and the equity/debt split *)



Lemma split_bounds (p : UserProfile) :
  exists e d : Qc,
    calculate_equity_debt_split p = Ok (e, d) /\
    (qz 0 <= e)%Qc /\ (e <= qz 100)%Qc /\
    (qz 0 <= d)%Qc /\ (d <= qz 100)%Qc /\
    (custom_equity_percentage p = None -> risk_profile p = None ->
     (qz 20 <= e)%Qc /\ (e <= qz 80)%Qc).
Proof.
  unfold calculate_equity_debt_split.
  destruct (custom_equity_percentage p) as [c|].
  - eexists _, _. split; [reflexivity|].
    destruct (max_min_clamped (qz 0) (qz 100) c ltac:(qc_lra)) as (H1 & H2 & H3).
    set (e := Num.max (qz 0) (Num.min (qz 100) c)) in *. clearbody e.
    assert (B : (qz 0 <= e)%Qc /\ (e <= qz 100)%Qc).
    { destruct (Qclt_le_dec c (qz 0)) as [L|L]; [rewrite (H1 L); split; qc_lra|].
      destruct (Qclt_le_dec (qz 100) c) as [G|G]; [rewrite (H3 G); split; qc_lra|].
      rewrite (H2 L G). split; assumption. }
    destruct B. repeat split; try assumption; try congruence; qc_lra.
  - destruct (risk_profile p) as [[]|].
    + eexists _, _. split; [reflexivity|].
      repeat split; try congruence; qc_lra.
    + eexists _, _. split; [reflexivity|].
      repeat split; try congruence; qc_lra.
    + eexists _, _. split; [reflexivity|].
      repeat split; try congruence; qc_lra.
    + eexists _, _. split; [reflexivity|].
      destruct (max_min_clamped (qz 20) (qz 80) (qz (100 - age p)) ltac:(qc_lra))
        as (H1 & H2 & H3).
      set (x := qz (100 - age p)) in *. clearbody x.
      set (e := Num.max (qz 20) (Num.min (qz 80) x)) in *. clearbody e.
      assert (B : (qz 20 <= e)%Qc /\ (e <= qz 80)%Qc).
      { destruct (Qclt_le_dec x (qz 20)) as [L|L]; [rewrite (H1 L); split; qc_lra|].
        destruct (Qclt_le_dec (qz 80) x) as [G|G]; [rewrite (H3 G); split; qc_lra|].
        rewrite (H2 L G). split; assumption. }
      destruct B. repeat split; try assumption; qc_lra.
Qed.

(** X2. Whatever the profile, valid or not, the split is within bounds:
    equity and debt both lie in [0,100], and the age heuristic (no custom
    percentage, no risk profile) keeps equity in [20,80]. *)
Theorem split_within_bounds (p : UserProfile) :
  exists e d : Qc,
    calculate_equity_debt_split p = Ok (e, d) /\
    (qz 0 <= e)%Qc /\ (e <= qz 100)%Qc /\
    (qz 0 <= d)%Qc /\ (d <= qz 100)%Qc /\
    (custom_equity_percentage p = None -> risk_profile p = None ->
     (qz 20 <= e)%Qc /\ (e <= qz 80)%Qc).
Proof. exact (split_bounds p). Qed.

Lemma split_within_bounds_witness :
  exists e d : Qc,
    calculate_equity_debt_split sample_profile = Ok (e, d) /\
    (qz 20 <= e)%Qc /\ (e <= qz 80)%Qc.
Proof.
  destruct (split_within_bounds sample_profile)
    as (e & d & H & _ & _ & _ & _ & Hage).
  exists e, d. split; [exact H|]. apply Hage; reflexivity.
Defined.



Lemma qz_le (a b : Z) : a <= b -> (qz a <= qz b)%Qc.
Proof.
  intros H. unfold Qcle. rewrite !NumFacts.this_of_Z.
  rewrite <- Zle_Qle. exact H.
Qed.

Lemma clamp_mono (lo hi x y : Qc) :
  (lo <= hi)%Qc -> (x <= y)%Qc ->
  (Num.max lo (Num.min hi x) <= Num.max lo (Num.min hi y))%Qc.
Proof.
  intros Hlh Hxy.
  set (u := Num.min hi x). set (v := Num.min hi y).
  assert (Hu : (u <= v)%Qc).
  { subst u v.
    destruct (NumBounds.min_cases hi x) as [[H1 E1] | [H1 E1]];
      destruct (NumBounds.min_cases hi y) as [[H2 E2] | [H2 E2]];
      rewrite E1, E2; qc_lra. }
  clearbody u v.
  destruct (NumBounds.max_cases lo u) as [[H3 E3] | [H3 E3]];
    destruct (NumBounds.max_cases lo v) as [[H4 E4] | [H4 E4]];
    rewrite E3, E4; qc_lra.
Qed.

(** X4. Equity never rises with age.  The equity percentage of the risk
    profile recommended for an age does not increase when the age does, and
    neither does the split of a profile that has no custom percentage and
    no risk profile. *)
Theorem equity_never_rises_with_age (a b : Z) (p : UserProfile)
    (Hab : a <= b)
    (Hcustom : custom_equity_percentage p = None)
    (Hrisk : risk_profile p = None) :
  (exists ea eb : Qc,
      suggested_equity a = Ok ea /\ suggested_equity b = Ok eb /\
      (eb <= ea)%Qc) /\
  (exists ea eb : Qc,
      calculate_equity_debt_split (with_age p a) = Ok (ea, (qz 100 - ea)%Qc) /\
      calculate_equity_debt_split (with_age p b) = Ok (eb, (qz 100 - eb)%Qc) /\
      (eb <= ea)%Qc).
Proof.
  split.
  - unfold suggested_equity, get_risk_profile_from_age.
    destruct (Z.ltb_spec a 35), (Z.ltb_spec a 55), (Z.ltb_spec b 35),
      (Z.ltb_spec b 55); try lia;
      eexists _, _; (split; [reflexivity|]); (split; [reflexivity|]); qc_lra.
  - unfold calculate_equity_debt_split. cbn [custom_equity_percentage
      risk_profile with_age age]. rewrite Hcustom, Hrisk.
    eexists _, _. split; [reflexivity|]. split; [reflexivity|].
    apply clamp_mono; [qc_lra | apply qz_le; lia].
Qed.

Lemma equity_never_rises_with_age_witness :
  30 <= 60 /\
  custom_equity_percentage sample_profile = None /\
  risk_profile sample_profile = None /\
  (exists ea eb : Qc,
      suggested_equity 30 = Ok ea /\ suggested_equity 60 = Ok eb /\
      (eb <= ea)%Qc) /\
  (exists ea eb : Qc,
      calculate_equity_debt_split (with_age sample_profile 30)
        = Ok (ea, (qz 100 - ea)%Qc) /\
      calculate_equity_debt_split (with_age sample_profile 60)
        = Ok (eb, (qz 100 - eb)%Qc) /\
      (eb <= ea)%Qc).
Proof.
  assert (H1 : 30 <= 60) by lia.
  assert (H2 : custom_equity_percentage sample_profile = None) by reflexivity.
  assert (H3 : risk_profile sample_profile = None) by reflexivity.
  split; [exact H1|]. split; [exact H2|]. split; [exact H3|].
  exact (equity_never_rises_with_age 30 60 sample_profile H1 H2 H3).
Defined.

(** ** What the allocation functions do to the store *)

Lemma extends_app (h new : heap) : extends h (h ++ new).
Proof. intros r a H. apply lookup_app_l_Some, H. Qed.

Lemma extends_refl (h : heap) : extends h h.
Proof. intros r a H. exact H. Qed.

Lemma template_rows_fresh (cat : string) (f : Z -> Qc) (tpl : dict Z) :
  Forall (fresh_row cat) (map snd (template_rows cat f tpl)).
Proof.
  induction tpl as [|[k t] tpl IH]; cbn; constructor; [|exact IH].
  repeat split.
Qed.

Lemma equity_rows_fresh (E : Qc) (tpl : dict Z) (ai : bool) (sec : Qc) :
  Forall (fresh_row "Equity") (map snd (equity_rows E tpl ai sec)).
Proof.
  unfold equity_rows. rewrite !map_app. repeat apply Forall_app_2.
  - apply template_rows_fresh.
  - destruct ai; cbn; repeat constructor.
  - destruct (Num.gtb _ _); cbn; repeat constructor.
Qed.

Lemma equity_rows_count (E : Qc) (s : EquityStrategy) (tpl : dict Z) (ai : bool)
    (sec : Qc) :
  dict_get equity_templates (equity_strategy_name s) = Some tpl ->
  (1 <= List.length (equity_rows E tpl ai sec) <= 5)%nat.
Proof.
  intros Htpl. unfold equity_rows. rewrite !length_app.
  destruct s; cbn in Htpl; injection Htpl as <-;
    destruct ai; destruct (Num.gtb _ _); cbn; lia.
Qed.

Lemma fresh_dict_values (n : nat) (ks : list string) :
  dict_values (fresh_dict n ks) = seq n (List.length ks).
Proof.
  revert n. induction ks as [|k ks IH]; intros n; [reflexivity|].
  rewrite fresh_dict_cons. unfold dict_values in *. cbn [map snd List.length seq].
  rewrite IH. reflexivity.
Qed.

(** X5. [allocate_equity] only adds to the store.  It never raises; the
    objects that existed before are unchanged; it creates between one and
    five new objects, all of category "Equity", with amount 0 and no
    recommended fund; and the dictionary it returns binds distinct keys to
    exactly these new objects, in order. *)
Theorem allocate_equity_only_allocates
    (E : Qc) (s : EquityStrategy) (ai : bool) (sec : Qc) (h : heap) :
  exists (d : dict ref) (new : heap),
    allocate_equity E s ai sec h = (Ok d, h ++ new) /\
    extends h (h ++ new) /\
    (1 <= List.length new <= 5)%nat /\
    Forall (fresh_row "Equity") new /\
    dict_values d = seq (List.length h) (List.length new) /\
    rows_of (h ++ new) d = new /\
    List.NoDup (dict_keys d).
Proof.
  destruct (equity_template_total s) as (tpl & Htpl & _).
  exists (fresh_dict (List.length h) (dict_keys (equity_rows E tpl ai sec))),
    (map snd (equity_rows E tpl ai sec)).
  split; [apply allocate_equity_run, Htpl|].
  split; [apply extends_app|].
  split; [rewrite length_map; apply (equity_rows_count E s tpl ai sec Htpl)|].
  split; [apply equity_rows_fresh|].
  split; [|split].
  - rewrite fresh_dict_values. unfold dict_keys. rewrite !length_map.
    reflexivity.
  - apply rows_of_fresh.
  - rewrite fresh_dict_keys.
    pose proof (plan_keys_NoDup E (qz 0) s tpl ai sec Htpl) as ND.
    rewrite dict_keys_app in ND. apply NoDup_app_remove_r in ND. exact ND.
Qed.

(** ** Running [create_plan], with the trigger bands *)

Lemma triggers_loop_explicit (dt : Qc) (d : dict ref) (acc : dict (Qc * Qc))
    (h : heap) :
  refs_below (List.length h) d = true ->
  for_items d acc (trig_body dt) h =
    (Ok (fold_left (fun t kv => dict_set t (fst kv) (band_at dt h (snd kv))) d acc),
     h).
Proof.
  revert acc. induction d as [|[k r0] d IH]; intros acc Hb; [reflexivity|].
  cbn [refs_below forallb snd] in Hb. apply andb_true_iff in Hb.
  destruct Hb as [Hr0 Hb]. apply Nat.ltb_lt in Hr0.
  destruct (lookup_lt_is_Some_2 h r0 Hr0) as [a Ha].
  cbn [for_items fold_left fst snd]. unfold trig_body at 1.
  rewrite (bind_run _ _ h h _ (bind_run _ _ h h a (read_run _ _ _ Ha))).
  rewrite (IH _ Hb).
  replace (band_at dt h r0) with (band_of dt a)
    by (unfold band_at; rewrite Ha; reflexivity).
  reflexivity.
Qed.

Lemma set_rebalancing_triggers_run (dt : Qc) (d : dict ref) (h : heap) :
  refs_below (List.length h) d = true ->
  List.NoDup (dict_keys d) ->
  set_rebalancing_triggers d dt h = (Ok (triggers_of dt h d), h).
Proof.
  intros Hb ND.
  change (set_rebalancing_triggers d dt) with (for_items d [] (trig_body dt)).
  rewrite (triggers_loop_explicit dt d [] h Hb). f_equal. f_equal.
  apply (fold_dict_set_fresh (band_at dt h) d []). exact ND.
Qed.

Lemma band_at_touch (t dt : Qc) (refs : list ref) (h1 h : heap) (r : ref) :
  (forall r, h1 !! r = touch t refs h r) ->
  band_at dt h1 r = band_at dt h r.
Proof.
  intros H1. unfold band_at. rewrite H1. unfold touch.
  destruct (existsb (Nat.eqb r) refs); [|reflexivity].
  destruct (h !! r); reflexivity.
Qed.

Lemma create_plan_valid_full (p : UserProfile) (es : option EquityStrategy)
    (ai : bool) (sec dt : Qc) (now : Z) (h : heap) :
  fst (validate p) = true ->
  exists (E : Qc) (tpl : dict Z) (h' : heap),
    calculate_equity_debt_split p = Ok (E, (qz 100 - E)%Qc) /\
    dict_get equity_templates (equity_strategy_name (resolve_strategy es p))
      = Some tpl /\
    let Re := equity_rows E tpl ai sec in
    let Rd := debt_rows (qz 100 - E)%Qc [("FD"%string, 100)] in
    let H := h ++ map snd (Re ++ Rd) in
    let de := fresh_dict (List.length h) (dict_keys Re) in
    let dd := fresh_dict (List.length h + List.length Re) (dict_keys Rd) in
    create_plan p es long_term ai sec dt now h = (Ok (plan_of p E de dd H dt now), h') /\
    de ++ dd = fresh_dict (List.length h) (dict_keys (Re ++ Rd)) /\
    List.length h' = List.length H /\
    forall r, h' !! r = touch (lump_sum_investment p) (map snd (de ++ dd)) H r.
Proof.
  intros Hvalid.
  destruct (split_total p) as (E & HE).
  destruct (equity_template_total (resolve_strategy es p)) as (tpl & Htpl & _).
  exists E, tpl.
  set (Re := equity_rows E tpl ai sec).
  set (Rd := debt_rows (qz 100 - E)%Qc [("FD"%string, 100)]).
  set (H := h ++ map snd (Re ++ Rd)).
  set (de := fresh_dict (List.length h) (dict_keys Re)).
  set (dd := fresh_dict (List.length h + List.length Re) (dict_keys Rd)).
  set (all := fresh_dict (List.length h) (dict_keys (Re ++ Rd))).
  assert (Hall : de ++ dd = all).
  { subst de dd all. rewrite dict_keys_app, fresh_dict_app.
    unfold dict_keys at 4. rewrite length_map. reflexivity. }
  assert (ND : List.NoDup (dict_keys all)).
  { subst all. rewrite fresh_dict_keys. apply (plan_keys_NoDup _ _ _ _ _ _ Htpl). }
  assert (Hb : refs_below (List.length H) all = true).
  { subst all H. apply refs_below_fresh. rewrite length_app, length_map.
    unfold dict_keys. rewrite length_map. lia. }
  assert (Hmerge :
            dict_merge de (fresh_dict (List.length (h ++ map snd Re)) (dict_keys Rd))
            = all).
  { rewrite length_app, length_map. fold dd. rewrite dict_merge_disjoint.
    - exact Hall.
    - subst de dd. rewrite !fresh_dict_keys, <- dict_keys_app.
      apply (plan_keys_NoDup _ _ _ _ _ _ Htpl). }
  destruct (calculate_fund_amounts_run (monthly_investment p) all H Hb ND)
    as (h1 & R1 & L1 & T1).
  assert (Hb1 : refs_below (List.length h1) all = true) by (rewrite L1; exact Hb).
  destruct (calculate_fund_amounts_run (lump_sum_investment p) all h1 Hb1 ND)
    as (h2 & R2 & L2 & T2).
  assert (Hb2 : refs_below (List.length h2) all = true) by (rewrite L2; exact Hb1).
  pose proof (set_rebalancing_triggers_run dt all h2 Hb2 ND) as R3.
  assert (T12 : forall r, h2 !! r = touch (lump_sum_investment p) (map snd all) H r).
  { intros r. rewrite T2. apply (touch_touch (monthly_investment p)). exact T1. }
  assert (B2 : breakdown_of (lump_sum_investment p) h1 all
               = breakdown_of (lump_sum_investment p) H all).
  { unfold breakdown_of. apply map_ext. intros [k r]. cbn [fst snd]. f_equal.
    apply (amount_at_touch (monthly_investment p) _ (map snd all)). exact T1. }
  assert (B3 : triggers_of dt h2 all = triggers_of dt H all).
  { unfold triggers_of. apply map_ext. intros [k r]. cbn [fst snd]. f_equal.
    apply (band_at_touch (lump_sum_investment p) dt (map snd all)). exact T12. }
  exists h2. split; [exact HE|]. split; [exact Htpl|].
  cbv zeta. fold Re Rd. fold H. fold de dd. rewrite Hall.
  split; [|split; [reflexivity|split; [lia | exact T12]]].
  unfold create_plan. destruct (validate p) as [v errs].
  cbn [fst] in Hvalid. subst v. cbn [negb].
  rewrite (bind_run _ _ h h (E, (qz 100 - E)%Qc))
    by (unfold lift; rewrite HE; reflexivity).
  fold (resolve_strategy es p).
  rewrite (bind_run _ _ _ _ _ (allocate_equity_run E _ ai sec h tpl Htpl)).
  fold Re. fold de.
  rewrite (bind_run _ _ _ _ _
             (allocate_debt_long_term (qz 100 - E)%Qc (h ++ map snd Re))).
  fold Rd. change ["FD"%string] with (dict_keys Rd). rewrite Hmerge.
  replace ((h ++ map snd Re) ++ map snd Rd) with H
    by (subst H; rewrite map_app, app_assoc; reflexivity).
  rewrite (bind_run _ _ _ _ _ R1), (bind_run _ _ _ _ _ R2),
    (bind_run _ _ _ _ _ R3).
  unfold ret, plan_of. rewrite Hall. rewrite length_app, length_map.
  fold dd. rewrite B2, B3. reflexivity.
Qed.

Lemma create_plan_unsupported (p : UserProfile) (es : option EquityStrategy)
    (ds : GoalTimeframe) (ai : bool) (sec dt : Qc) (now : Z) (h : heap) :
  fst (validate p) = true -> ds <> long_term ->
  exists (E : Qc) (tpl : dict Z),
    dict_get equity_templates (equity_strategy_name (resolve_strategy es p))
      = Some tpl /\
    create_plan p es ds ai sec dt now h =
      (Raise (KeyError (goal_timeframe_name ds)),
       h ++ map snd (equity_rows E tpl ai sec)).
Proof.
  intros Hvalid Hds.
  destruct (split_total p) as (E & HE).
  destruct (equity_template_total (resolve_strategy es p)) as (tpl & Htpl & _).
  exists E, tpl. split; [exact Htpl|].
  unfold create_plan. destruct (validate p) as [v errs].
  cbn [fst] in Hvalid. subst v. cbn [negb].
  rewrite (bind_run _ _ h h (E, (qz 100 - E)%Qc))
    by (unfold lift; rewrite HE; reflexivity).
  fold (resolve_strategy es p).
  rewrite (bind_run _ _ _ _ _ (allocate_equity_run E _ ai sec h tpl Htpl)).
  rewrite (bind_raise _ _ _ _ _ (allocate_debt_other _ ds _ Hds)).
  reflexivity.
Qed.

(** X6. An unsupported debt timeframe is a [KeyError].  [allocate_debt]
    raises it, naming the timeframe, and leaves the store alone.
    [create_plan] on a valid profile raises the same error and returns no
    plan, but only after it has created the equity objects: the store has
    grown by at least one "Equity" row. *)
Theorem unsupported_timeframe_key_error
    (p : UserProfile) (es : option EquityStrategy) (ds : GoalTimeframe)
    (ai : bool) (D sec dt : Qc) (now : Z) (h : heap)
    (Hds : ds <> long_term)
    (Hvalid : fst (validate p) = true) :
  allocate_debt D ds h = (Raise (KeyError (goal_timeframe_name ds)), h) /\
  exists new : heap,
    create_plan p es ds ai sec dt now h =
      (Raise (KeyError (goal_timeframe_name ds)), h ++ new) /\
    (1 <= List.length new)%nat /\
    Forall (fresh_row "Equity") new.
Proof.
  split; [apply allocate_debt_other, Hds|].
  destruct (create_plan_unsupported p es ds ai sec dt now h Hvalid Hds)
    as (E & tpl & Htpl & Hrun).
  exists (map snd (equity_rows E tpl ai sec)). split; [exact Hrun|].
  split; [|apply equity_rows_fresh].
  rewrite length_map.
  apply (equity_rows_count E (resolve_strategy es p) tpl ai sec Htpl).
Qed.

Lemma unsupported_timeframe_key_error_witness :
  short_term <> long_term /\
  fst (validate sample_profile) = true /\
  allocate_debt (qz 30) short_term [] = (Raise (KeyError "short_term"), []) /\
  exists new : heap,
    create_plan sample_profile None short_term false (qz 0) (qz 5) 0 [] =
      (Raise (KeyError "short_term"), [] ++ new) /\
    (1 <= List.length new)%nat /\
    Forall (fresh_row "Equity") new.
Proof.
  assert (H1 : short_term <> long_term) by discriminate.
  assert (H2 : fst (validate sample_profile) = true) by (vm_compute; reflexivity).
  split; [exact H1|]. split; [exact H2|].
  exact (unsupported_timeframe_key_error sample_profile None short_term false
           (qz 30) (qz 0) (qz 5) 0 [] H1 H2).
Defined.

Lemma validate_fst_false (p : UserProfile) :
  fst (validate p) = false -> broken_rules p <> [].
Proof.
  rewrite validate_shape. cbn [fst]. destruct (broken_rules p); congruence.
Qed.

(** X7. [create_plan] never touches an object that existed before the
    call: whatever the arguments and whatever the outcome (a plan, a
    [ValueError] or a [KeyError]), every object of the initial store is in
    the final store, unchanged. *)
Theorem create_plan_preserves_old_objects
    (p : UserProfile) (es : option EquityStrategy) (ds : GoalTimeframe)
    (ai : bool) (sec dt : Qc) (now : Z) (h : heap) :
  extends h (snd (create_plan p es ds ai sec dt now h)).
Proof.
  destruct (fst (validate p)) eqn:Hv.
  - destruct (GoalTimeframe_eq_dec ds long_term) as [->|Hds].
    + destruct (create_plan_valid_full p es ai sec dt now h Hv)
        as (E & tpl & h' & _ & _ & Hrun & Hall & Hlen & Hl).
      cbv zeta in Hrun, Hall, Hlen, Hl. rewrite Hrun. cbn [snd].
      intros r a Ha. rewrite Hl, Hall.
      rewrite touch_not_In; [apply lookup_app_l_Some, Ha|].
      intros HI. apply in_map_iff in HI. destruct HI as ([k r'] & <- & HI).
      apply fresh_dict_refs in HI. cbn [snd] in *.
      apply lookup_lt_Some in Ha. lia.
    + destruct (create_plan_unsupported p es ds ai sec dt now h Hv Hds)
        as (E & tpl & _ & Hrun).
      rewrite Hrun. cbn [snd]. apply extends_app.
  - rewrite (create_plan_invalid p es ds ai sec dt now h (validate_fst_false p Hv)).
    cbn [snd]. apply extends_refl.
Qed.

(** ** Bounds on the rows *)

Lemma sector_pct_bounds (sec : Qc) :
  let sp := Num.min (qz 15) (Num.max (qz 0) sec) in
  (qz 0 <= sp)%Qc /\ (sp <= qz 15)%Qc.
Proof.
  intros sp. subst sp.
  destruct (NumBounds.max_cases (qz 0) sec) as [[H1 ->] | [H1 ->]];
    [destruct (NumBounds.min_cases (qz 15) sec) as [[H2 ->] | [H2 ->]]
    |destruct (NumBounds.min_cases (qz 15) (qz 0)) as [[H2 ->] | [H2 ->]]];
    split; qc_lra.
Qed.

Lemma product_bounds (E sp : Qc) :
  (qz 0 <= E)%Qc -> (qz 0 <= sp)%Qc -> (sp <= qz 15)%Qc ->
  (qz 0 <= E * sp)%Qc /\ (E * sp <= qz 15 * E)%Qc.
Proof.
  intros HE H0 H15. split.
  - pose proof (Qcmult_le_compat_r (qz 0) E sp HE H0) as H.
    rewrite Qcmult_0_l in H. exact H.
  - pose proof (Qcmult_le_compat_r sp (qz 15) E H15 HE) as H.
    rewrite (Qcmult_comm sp E) in H. exact H.
Qed.

Lemma round2_nonneg (x : Qc) : (qz 0 <= x)%Qc -> (qz 0 <= Num.round2 x)%Qc.
Proof.
  intros H. rewrite <- (RoundFacts.round2_of_Z 0).
  apply RoundFacts.round2_mono, H.
Qed.

Lemma equity_rows_bounded (E : Qc) (s : EquityStrategy) (tpl : dict Z)
    (ai : bool) (sec : Qc) :
  (qz 0 <= E)%Qc ->
  dict_get equity_templates (equity_strategy_name s) = Some tpl ->
  Forall (fun a => (qz 0 <= percentage a)%Qc /\
                   (percentage a <= Num.round2 E)%Qc)
         (map snd (equity_rows E tpl ai sec)).
Proof.
  intros HE Htpl. unfold equity_rows.
  destruct (sector_pct_bounds sec) as [S0 S15]. cbv zeta in S0, S15.
  set (sp := Num.min (qz 15) (Num.max (qz 0) sec)) in *. clearbody sp.
  destruct (product_bounds E sp HE S0 S15) as [P0 P15].
  destruct s; cbn in Htpl; injection Htpl as <-;
    destruct ai; destruct (Num.gtb sp (qz 0));
    cbn [template_rows pick_row map app fst snd percentage row];
    repeat (apply List.Forall_cons; [cbn [percentage row]; split|]);
    try apply List.Forall_nil;
    try (apply round2_nonneg; qc_lra);
    try (apply RoundFacts.round2_mono; qc_lra).
Qed.

Lemma debt_rows_bounded (D : Qc) :
  (qz 0 <= D)%Qc ->
  Forall (fun a => (qz 0 <= percentage a)%Qc /\
                   (percentage a <= Num.round2 D)%Qc)
         (map snd (debt_rows D [("FD"%string, 100)])).
Proof.
  intros HD.
  cbn [debt_rows template_rows map fst snd percentage row].
  apply List.Forall_cons; [cbn [percentage row]; split | apply List.Forall_nil].
  - apply round2_nonneg. qc_lra.
  - apply RoundFacts.round2_mono. qc_lra.
Qed.

(** ** The anatomy of a plan *)

Lemma template_rows_rounded (cat : string) (f : Z -> Qc) (tpl : dict Z) :
  Forall (fun a => Num.round2 (percentage a) = percentage a)
         (map snd (template_rows cat f tpl)).
Proof.
  induction tpl as [|[k t] tpl IH]; cbn [template_rows map snd].
  - apply List.Forall_nil.
  - apply List.Forall_cons; [apply RoundFacts.round2_idem | exact IH].
Qed.

Lemma equity_rows_rounded (E : Qc) (tpl : dict Z) (ai : bool) (sec : Qc) :
  Forall (fun a => Num.round2 (percentage a) = percentage a)
         (map snd (equity_rows E tpl ai sec)).
Proof.
  unfold equity_rows. rewrite !map_app. repeat apply Forall_app_2.
  - apply template_rows_rounded.
  - destruct ai; cbn [pick_row map snd]; [|apply List.Forall_nil].
    apply List.Forall_cons; [apply RoundFacts.round2_idem | apply List.Forall_nil].
  - destruct (Num.gtb _ _); cbn [pick_row map snd]; [|apply List.Forall_nil].
    apply List.Forall_cons; [apply RoundFacts.round2_idem | apply List.Forall_nil].
Qed.

Lemma round2_le_100 (x : Qc) : (x <= qz 100)%Qc -> (Num.round2 x <= qz 100)%Qc.
Proof.
  intros H. apply (Qcle_trans _ (Num.round2 (qz 100))).
  - apply RoundFacts.round2_mono, H.
  - rewrite RoundFacts.round2_of_Z. apply Qcle_refl.
Qed.

Lemma plan_rows_percent_ok (E : Qc) (s : EquityStrategy) (tpl : dict Z)
    (ai : bool) (sec : Qc) :
  (qz 0 <= E)%Qc -> (E <= qz 100)%Qc ->
  dict_get equity_templates (equity_strategy_name s) = Some tpl ->
  Forall (fun a => percent_ok (percentage a))
         (map snd (equity_rows E tpl ai sec
                   ++ debt_rows (qz 100 - E)%Qc [("FD"%string, 100)])).
Proof.
  intros H0 H100 Htpl. rewrite map_app. apply Forall_app_2.
  - pose proof (equity_rows_bounded E s tpl ai sec H0 Htpl) as B.
    pose proof (equity_rows_rounded E tpl ai sec) as R.
    rewrite List.Forall_forall in *. intros a Ha.
    destruct (B a Ha) as [B0 B1]. split; [apply R, Ha|]. split; [exact B0|].
    apply (Qcle_trans _ _ _ B1). apply round2_le_100, H100.
  - assert (HD : (qz 0 <= qz 100 - E)%Qc) by qc_lra.
    pose proof (debt_rows_bounded (qz 100 - E)%Qc HD) as B.
    pose proof (template_rows_rounded "Debt"
                  (fun t => (qz t / qz 100 * (qz 100 - E))%Qc)
                  [("FD"%string, 100)]) as R.
    fold (debt_rows (qz 100 - E)%Qc [("FD"%string, 100)]) in R.
    rewrite List.Forall_forall in *. intros a Ha.
    destruct (B a Ha) as [B0 B1]. split; [apply R, Ha|]. split; [exact B0|].
    apply (Qcle_trans _ _ _ B1). apply round2_le_100. qc_lra.
Qed.

Lemma triggers_lookup (dt : Qc) (h : heap) (d : dict ref) (k : string)
    (r : ref) (a : FundAllocation) :
  List.NoDup (dict_keys d) -> In (k, r) d -> h !! r = Some a ->
  dict_get (triggers_of dt h d) k = Some (band_of dt a).
Proof.
  intros ND HI Ha. unfold triggers_of.
  rewrite (dict_get_map (band_at dt h) d k).
  rewrite (dict_get_In d k r ND HI). cbn [option_map].
  unfold band_at. rewrite Ha. reflexivity.
Qed.

Lemma triggers_keys (dt : Qc) (h : heap) (d : dict ref) :
  dict_keys (triggers_of dt h d) = dict_keys d.
Proof. unfold triggers_of, dict_keys. rewrite map_map. reflexivity. Qed.

Lemma lookup_new_In (h new : heap) (r : ref) (a : FundAllocation) :
  (List.length h <= r)%nat -> (h ++ new) !! r = Some a -> In a new.
Proof.
  intros Hr Ha. rewrite lookup_app_r in Ha by exact Hr.
  apply list_elem_of_In. apply list_elem_of_lookup. eexists. exact Ha.
Qed.

(** What [create_plan] returns for a valid profile, fund by fund. *)
Lemma plan_anatomy (p : UserProfile) (es : option EquityStrategy)
    (ai : bool) (sec dt : Qc) (now : Z) (h : heap) :
  fst (validate p) = true ->
  exists (E : Qc) (plan : AssetAllocationPlan) (h' : heap),
    calculate_equity_debt_split p = Ok (E, (qz 100 - E)%Qc) /\
    create_plan p es long_term ai sec dt now h = (Ok plan, h') /\
    equity_percentage plan = Num.round2 E /\
    debt_percentage plan = Num.round2 (qz 100 - E)%Qc /\
    List.NoDup (dict_keys (plan_funds plan)) /\
    dict_keys (monthly_sip_breakdown plan) = dict_keys (plan_funds plan) /\
    dict_keys (lumpsum_breakdown plan) = dict_keys (plan_funds plan) /\
    dict_keys (rebalancing_triggers plan) = dict_keys (plan_funds plan) /\
    (1 <= List.length (equity_allocations plan) <= 5)%nat /\
    List.length (debt_allocations plan) = 1%nat /\
    forall k r,
      In (k, r) (plan_funds plan) ->
      exists a0 : FundAllocation,
        percent_ok (percentage a0) /\
        h' !! r = Some (amount_set (lump_sum_investment p) a0) /\
        dict_get (monthly_sip_breakdown plan) k
          = Some (amount_for (monthly_investment p) a0) /\
        dict_get (lumpsum_breakdown plan) k
          = Some (amount_for (lump_sum_investment p) a0) /\
        dict_get (rebalancing_triggers plan) k = Some (band_of dt a0).
Proof.
  intros Hvalid.
  destruct (create_plan_valid_full p es ai sec dt now h Hvalid)
    as (E & tpl & h' & HE & Htpl & Hrun & Hall & Hlen & Hl).
  cbv zeta in Hrun, Hall, Hlen, Hl.
  set (Re := equity_rows E tpl ai sec) in *.
  set (Rd := debt_rows (qz 100 - E)%Qc [("FD"%string, 100)]) in *.
  set (H := h ++ map snd (Re ++ Rd)) in *.
  set (de := fresh_dict (List.length h) (dict_keys Re)) in *.
  set (dd := fresh_dict (List.length h + List.length Re) (dict_keys Rd)) in *.
  destruct (split_bounds p) as (e & d & Hsplit & E0 & E100 & _).
  rewrite HE in Hsplit. injection Hsplit as <- <-.
  assert (ND : List.NoDup (dict_keys (de ++ dd))).
  { rewrite Hall, fresh_dict_keys. apply (plan_keys_NoDup _ _ _ _ _ _ Htpl). }
  exists E, (plan_of p E de dd H dt now), h'.
  split; [exact HE|]. split; [exact Hrun|].
  unfold plan_funds, plan_of. cbv zeta.
  cbn [equity_percentage debt_percentage equity_allocations debt_allocations
         monthly_sip_breakdown lumpsum_breakdown rebalancing_triggers].
  split; [reflexivity|]. split; [reflexivity|]. split; [exact ND|].
  split; [apply breakdown_keys|]. split; [apply breakdown_keys|].
  split; [apply triggers_keys|].
  split.
  { subst de. unfold fresh_dict. rewrite length_combine, length_seq.
    unfold dict_keys. rewrite length_map, Nat.min_id.
    apply (equity_rows_count E _ tpl ai sec Htpl). }
  split; [reflexivity|].
  intros k r HI.
  assert (Hr : (List.length h <= r < List.length H)%nat).
  { rewrite Hall in HI. apply fresh_dict_refs in HI. subst H.
    rewrite length_app, length_map. unfold dict_keys in HI.
    rewrite length_map in HI. exact HI. }
  destruct (lookup_lt_is_Some_2 H r (proj2 Hr)) as [a0 Ha0].
  exists a0. split; [|split; [|split; [|split]]].
  - pose proof (plan_rows_percent_ok E _ tpl ai sec E0 E100 Htpl) as P.
    rewrite List.Forall_forall in P. apply P.
    apply (lookup_new_In h _ r a0 (proj1 Hr) Ha0).
  - rewrite Hl. apply touch_In; [|exact Ha0].
    change r with (snd (k, r)). apply in_map, HI.
  - apply (breakdown_lookup _ H (de ++ dd) k r a0 ND HI Ha0).
  - apply (breakdown_lookup _ H (de ++ dd) k r a0 ND HI Ha0).
  - apply (triggers_lookup dt H (de ++ dd) k r a0 ND HI Ha0).
Qed.

(** ** Amounts *)

(** X9. [calculate_fund_amounts] is idempotent: on a store in which the
    references of [d] are allocated, a second call with the same pool
    returns the same breakdown and leaves the store as the first call
    left it. *)
Theorem calculate_fund_amounts_idempotent
    (d : dict ref) (total : Qc) (h : heap)
    (Hrefs : refs_below (List.length h) d = true)
    (Hkeys : distinct (dict_keys d) = true) :
  exists (b : dict Qc) (h1 : heap),
    calculate_fund_amounts d total h = (Ok b, h1) /\
    calculate_fund_amounts d total h1 = (Ok b, h1).
Proof.
  apply distinct_NoDup in Hkeys.
  destruct (calculate_fund_amounts_run total d h Hrefs Hkeys)
    as (h1 & R1 & L1 & T1).
  assert (Hrefs1 : refs_below (List.length h1) d = true) by (rewrite L1; exact Hrefs).
  destruct (calculate_fund_amounts_run total d h1 Hrefs1 Hkeys)
    as (h2 & R2 & L2 & T2).
  exists (breakdown_of total h d), h1. split; [exact R1|].
  rewrite R2. f_equal; [f_equal|].
  - unfold breakdown_of. apply map_ext. intros [k r]. cbn [fst snd]. f_equal.
    apply (amount_at_touch total total (map snd d)). exact T1.
  - apply list_eq. intros r. rewrite T2, T1.
    apply (touch_touch total total). exact T1.
Qed.

Lemma calculate_fund_amounts_idempotent_witness :
  refs_below 1 [("largecap"%string, 0%nat)] = true /\
  distinct ["largecap"%string] = true /\
  exists (b : dict Qc) (h1 : heap),
    calculate_fund_amounts [("largecap"%string, 0%nat)] (qz 1000)
      [row "Equity" "Largecap" (qz 70)] = (Ok b, h1) /\
    calculate_fund_amounts [("largecap"%string, 0%nat)] (qz 1000) h1 = (Ok b, h1).
Proof.
  assert (H1 : refs_below 1 [("largecap"%string, 0%nat)] = true) by reflexivity.
  assert (H2 : distinct ["largecap"%string] = true) by reflexivity.
  split; [exact H1|]. split; [exact H2|].
  exact (calculate_fund_amounts_idempotent [("largecap"%string, 0%nat)] (qz 1000)
           [row "Equity" "Largecap" (qz 70)] H1 H2).
Defined.

(** ** Percentages and bands of a plan *)

Lemma band_bounds (dt : Qc) (a : FundAllocation) :
  (qz 0 <= fst (band_of dt a))%Qc /\ (snd (band_of dt a) <= qz 100)%Qc.
Proof.
  unfold band_of. cbn [fst snd]. split.
  - apply round2_nonneg.
    destruct (NumBounds.max_cases (qz 0) (percentage a - dt)%Qc)
      as [[H ->] | [H ->]]; qc_lra.
  - apply round2_le_100.
    destruct (NumBounds.min_cases (qz 100) (percentage a + dt)%Qc)
      as [[H ->] | [H ->]]; qc_lra.
Qed.

Lemma band_contains (dt : Qc) (a : FundAllocation) :
  (qz 0 <= dt)%Qc ->
  (qz 0 <= percentage a)%Qc -> (percentage a <= qz 100)%Qc ->
  (fst (band_of dt a) <= Num.round2 (percentage a))%Qc /\
  (Num.round2 (percentage a) <= snd (band_of dt a))%Qc.
Proof.
  intros Hdt H0 H100. unfold band_of. cbn [fst snd]. split.
  - apply RoundFacts.round2_mono.
    destruct (NumBounds.max_cases (qz 0) (percentage a - dt)%Qc)
      as [[H ->] | [H ->]]; qc_lra.
  - apply RoundFacts.round2_mono.
    destruct (NumBounds.min_cases (qz 100) (percentage a + dt)%Qc)
      as [[H ->] | [H ->]]; qc_lra.
Qed.

(** X13. In a plan, every fund's target lies inside its rebalancing band:
    for a valid profile and a drift threshold that is not negative,
    [create_plan] gives each fund a band [(lo, hi)] with
    [0 <= lo <= percentage <= hi <= 100]. *)
Theorem plan_bands_contain_targets
    (p : UserProfile) (es : option EquityStrategy) (ai : bool) (sec dt : Qc)
    (now : Z) (h : heap)
    (Hvalid : fst (validate p) = true)
    (Hdt : (qz 0 <= dt)%Qc) :
  exists (plan : AssetAllocationPlan) (h' : heap),
    create_plan p es long_term ai sec dt now h = (Ok plan, h') /\
    forall k r,
      In (k, r) (plan_funds plan) ->
      exists (a : FundAllocation) (lo hi : Qc),
        h' !! r = Some a /\
        dict_get (rebalancing_triggers plan) k = Some (lo, hi) /\
        (qz 0 <= lo)%Qc /\ (lo <= percentage a)%Qc /\
        (percentage a <= hi)%Qc /\ (hi <= qz 100)%Qc.
Proof.
  destruct (plan_anatomy p es ai sec dt now h Hvalid)
    as (E & plan & h' & _ & Hrun & _ & _ & _ & _ & _ & _ & _ & _ & Hfunds).
  exists plan, h'. split; [exact Hrun|]. intros k r HI.
  destruct (Hfunds k r HI) as (a0 & (Hr & H0 & H100) & Hcell & _ & _ & Ht).
  exists (amount_set (lump_sum_investment p) a0), (fst (band_of dt a0)),
    (snd (band_of dt a0)).
  split; [exact Hcell|]. split; [rewrite Ht; destruct (band_of dt a0); reflexivity|].
  destruct (band_bounds dt a0) as [B0 B100].
  destruct (band_contains dt a0 Hdt H0 H100) as [C1 C2].
  rewrite Hr in C1, C2. cbn [amount_set with_amount percentage].
  repeat split; assumption.
Qed.

Lemma plan_bands_contain_targets_witness :
  fst (validate sample_profile) = true /\
  (qz 0 <= qz 5)%Qc /\
  exists (plan : AssetAllocationPlan) (h' : heap),
    create_plan sample_profile None long_term true (qz 5) (qz 5) 0 []
      = (Ok plan, h') /\
    forall k r,
      In (k, r) (plan_funds plan) ->
      exists (a : FundAllocation) (lo hi : Qc),
        h' !! r = Some a /\
        dict_get (rebalancing_triggers plan) k = Some (lo, hi) /\
        (qz 0 <= lo)%Qc /\ (lo <= percentage a)%Qc /\
        (percentage a <= hi)%Qc /\ (hi <= qz 100)%Qc.
Proof.
  assert (H1 : fst (validate sample_profile) = true) by (vm_compute; reflexivity).
  assert (H2 : (qz 0 <= qz 5)%Qc) by (vm_compute; discriminate).
  split; [exact H1|]. split; [exact H2|].
  exact (plan_bands_contain_targets sample_profile None true (qz 5) (qz 5) 0 []
           H1 H2).
Defined.

(** ** The dictionaries of a plan *)

Lemma dict_get_set {V} (d : dict V) (k k' : string) (v : V) :
  dict_get (dict_set d k v) k' =
    if String.eqb k k' then Some v else dict_get d k'.
Proof.
  induction d as [|[k0 v0] d IH]; cbn [dict_set dict_get].
  - reflexivity.
  - destruct (String.eqb_spec k0 k) as [->|Hne]; cbn [dict_get].
    + destruct (String.eqb k k'); reflexivity.
    + rewrite IH. destruct (String.eqb_spec k0 k') as [->|Hne'].
      * destruct (String.eqb_spec k k'); [congruence | reflexivity].
      * reflexivity.
Qed.

Lemma dict_keys_set {V} (d : dict V) (k : string) (v : V) :
  dict_keys (dict_set d k v) =
    if existsb (String.eqb k) (dict_keys d) then dict_keys d
    else dict_keys d ++ [k].
Proof.
  induction d as [|[k0 v0] d IH]; cbn [dict_set dict_keys map fst existsb].
  - reflexivity.
  - rewrite (String.eqb_sym k k0).
    destruct (String.eqb_spec k0 k) as [->|Hne]; cbn [orb map fst].
    + reflexivity.
    + unfold dict_keys in IH. rewrite IH.
      destruct (existsb (String.eqb k) (map fst d)); reflexivity.
Qed.

Lemma dict_merge_get {V} (a b : dict V) (k : string) :
  List.NoDup (dict_keys b) ->
  dict_get (dict_merge a b) k =
    match dict_get b k with
    | Some v => Some v
    | None => dict_get a k
    end.
Proof.
  unfold dict_merge. revert a.
  induction b as [|[k0 v0] b IH]; intros a ND; [reflexivity|].
  inversion ND as [|? ? Hk0 ND']; subst.
  cbn [fold_left fst snd dict_get]. rewrite (IH _ ND'), dict_get_set.
  destruct (String.eqb_spec k0 k) as [->|Hne]; [|reflexivity].
  apply dict_get_None in Hk0. rewrite Hk0. reflexivity.
Qed.

(** Merging two dictionaries, [{**a, **b}], looks a key up in [b]
    first and in [a] otherwise, and a key of [a] keeps the position it
    had in [a]: the keys of the result start with the keys of [a]. *)
Lemma dict_merge_lookup {V : Type} (a b : dict V) (k : string)
    (Hb : distinct (dict_keys b) = true) :
  dict_get (dict_merge a b) k =
    match dict_get b k with
    | Some v => Some v
    | None => dict_get a k
    end /\
  exists rest, dict_keys (dict_merge a b) = dict_keys a ++ rest.
Proof.
  split; [apply dict_merge_get, distinct_NoDup, Hb|].
  clear Hb. unfold dict_merge. revert a.
  induction b as [|[k0 v0] b IH]; intros a; cbn [fold_left fst snd].
  - exists []. symmetry. apply app_nil_r.
  - destruct (IH (dict_set a k0 v0)) as (rest & Hrest).
    rewrite Hrest, dict_keys_set.
    destruct (existsb (String.eqb k0) (dict_keys a)).
    + exists rest. reflexivity.
    + exists (k0 :: rest). rewrite <- app_assoc. reflexivity.
Qed.


(** X14. A plan has exactly one entry per fund in each of its result
    dictionaries.  For a valid profile, the plan's funds have pairwise
    distinct keys; the monthly breakdown, the lump-sum breakdown and the
    trigger bands have exactly these keys, in the same order;
    [get_all_allocations] is the equity entries followed by the debt entry;
    and the plan has between two and six funds, which is what
    [get_total_funds_count] returns. *)
Theorem plan_has_one_entry_per_fund
    (p : UserProfile) (es : option EquityStrategy) (ai : bool) (sec dt : Qc)
    (now : Z) (h : heap)
    (Hvalid : fst (validate p) = true) :
  exists (plan : AssetAllocationPlan) (h' : heap),
    create_plan p es long_term ai sec dt now h = (Ok plan, h') /\
    List.NoDup (dict_keys (plan_funds plan)) /\
    dict_keys (monthly_sip_breakdown plan) = dict_keys (plan_funds plan) /\
    dict_keys (lumpsum_breakdown plan) = dict_keys (plan_funds plan) /\
    dict_keys (rebalancing_triggers plan) = dict_keys (plan_funds plan) /\
    get_all_allocations plan = plan_funds plan /\
    get_total_funds_count plan = List.length (get_all_allocations plan) /\
    (2 <= get_total_funds_count plan <= 6)%nat.
Proof.
  destruct (plan_anatomy p es ai sec dt now h Hvalid)
    as (E & plan & h' & _ & Hrun & _ & _ & ND & Km & Kl & Kt & Ce & Cd & _).
  exists plan, h'. split; [exact Hrun|].
  split; [exact ND|]. split; [exact Km|]. split; [exact Kl|]. split; [exact Kt|].
  assert (G : get_all_allocations plan = plan_funds plan).
  { unfold get_all_allocations, plan_funds. apply dict_merge_disjoint.
    unfold plan_funds in ND. rewrite dict_keys_app in ND. exact ND. }
  split; [exact G|]. rewrite G. unfold get_total_funds_count, plan_funds.
  rewrite length_app. split; [reflexivity | lia].
Qed.

Lemma plan_has_one_entry_per_fund_witness :
  fst (validate sample_profile) = true /\
  exists (plan : AssetAllocationPlan) (h' : heap),
    create_plan sample_profile None long_term true (qz 5) (qz 5) 0 []
      = (Ok plan, h') /\
    List.NoDup (dict_keys (plan_funds plan)) /\
    dict_keys (monthly_sip_breakdown plan) = dict_keys (plan_funds plan) /\
    dict_keys (lumpsum_breakdown plan) = dict_keys (plan_funds plan) /\
    dict_keys (rebalancing_triggers plan) = dict_keys (plan_funds plan) /\
    get_all_allocations plan = plan_funds plan /\
    get_total_funds_count plan = List.length (get_all_allocations plan) /\
    (2 <= get_total_funds_count plan <= 6)%nat.
Proof.
  assert (H1 : fst (validate sample_profile) = true) by (vm_compute; reflexivity).
  split; [exact H1|].
  exact (plan_has_one_entry_per_fund sample_profile None true (qz 5) (qz 5) 0 []
           H1).
Defined.

(** ** More on the rebalancer *)




Lemma abs_self_zero (x : Qc) : Num.abs (x - x)%Qc = qz 0.
Proof.
  assert (E : (x - x)%Qc = qz 0) by (apply Qc_is_canon; qc_push; unfold inject_Z; lra).
  rewrite E. reflexivity.
Qed.

Section RebalancingEdges.
Variable str_num : Qc -> string.
Variable fmt_1f : Qc -> string.


(** X18. A portfolio compared with itself never needs rebalancing: for a
    dictionary with distinct categories and a threshold above zero,
    [check_rebalancing_needed d d] returns false and an empty list. *)
Theorem no_drift_against_itself (d : dict Qc) (thr : Qc)
    (Hkeys : distinct (dict_keys d) = true)
    (Hthr : (qz 0 < thr)%Qc) :
  check_rebalancing_needed str_num fmt_1f d d thr = (false, []).
Proof.
  apply distinct_NoDup in Hkeys.
  unfold check_rebalancing_needed. rewrite (drift_loop str_num fmt_1f). cbn [app].
  assert (G : forall l : dict Qc,
             (forall kv, In kv l -> In kv d) ->
             filter (fun kv => (thr <= drift_of d kv)%Qc) l = []).
  { induction l as [|[k v] l IH]; intros Hsub; [reflexivity|].
    rewrite filter_cons, decide_False.
    - apply IH. intros kv Hkv. apply Hsub. right. exact Hkv.
    - intros Hc. unfold drift_of, dict_get_default in Hc. cbn [fst snd] in Hc.
      rewrite (dict_get_In d k v Hkeys (Hsub (k, v) (or_introl eq_refl))) in Hc.
      rewrite abs_self_zero in Hc.
      exact (Qclt_not_le _ _ Hthr Hc). }
  assert (F : filter (fun kv => (thr <= drift_of d kv)%Qc) d = [])
    by (apply G; auto).
  rewrite F. reflexivity.
Qed.

End RebalancingEdges.


Lemma no_drift_against_itself_witness :
  distinct (dict_keys [("largecap"%string, qz 70); ("midcap"%string, qz 30)]) = true /\
  (qz 0 < qz 5)%Qc /\
  check_rebalancing_needed (fun _ => "n"%string) (fun _ => "d"%string)
    [("largecap"%string, qz 70); ("midcap"%string, qz 30)]
    [("largecap"%string, qz 70); ("midcap"%string, qz 30)] (qz 5) = (false, []).
Proof.
  assert (H1 : distinct (dict_keys [("largecap"%string, qz 70);
                                    ("midcap"%string, qz 30)]) = true)
    by reflexivity.
  assert (H2 : (qz 0 < qz 5)%Qc) by (vm_compute; reflexivity).
  split; [exact H1|]. split; [exact H2|].
  exact (no_drift_against_itself (fun _ => "n"%string) (fun _ => "d"%string)
           [("largecap"%string, qz 70); ("midcap"%string, qz 30)] (qz 5) H1 H2).
Defined.

(** ** Examples of the formatting model *)

Example format_inr_lakhs :
  format_inr (fun _ => "1234567.89"%string) (qz 0) = Ok "₹ 12,34,567.89"%string.
Proof. reflexivity. Qed.

Example format_inr_thousand :
  format_inr (fun _ => "1000"%string) (qz 0) = Ok "₹ 1,000"%string.
Proof. reflexivity. Qed.

Example format_inr_negative :
  format_inr (fun _ => "-123"%string) (qz 0) = Ok "₹ -,123"%string.
Proof. reflexivity. Qed.

(** ** The corpus estimate *)







(** ** Strategy tables *)

(** X23. The strategy chosen by age is never the index-only one, and the
    older the investor the larger the large-cap share of the template it
    selects: all age-based templates have the funds largecap, midcap and
    smallcap, and for ages [a <= b] the large-cap share for [b] is at least
    the one for [a]. *)
Theorem age_based_strategy_large_cap (a b : Z) (Hab : a <= b) :
  get_age_based_strategy a <> index_core /\
  exists (ta tb : dict Z) (la lb : Z),
    dict_get equity_templates (equity_strategy_name (get_age_based_strategy a))
      = Some ta /\
    dict_get equity_templates (equity_strategy_name (get_age_based_strategy b))
      = Some tb /\
    dict_keys ta = ["largecap"%string; "midcap"%string; "smallcap"%string] /\
    dict_keys tb = ["largecap"%string; "midcap"%string; "smallcap"%string] /\
    dict_get ta "largecap" = Some la /\
    dict_get tb "largecap" = Some lb /\
    la <= lb.
Proof.
  unfold get_age_based_strategy.
  destruct (Z.ltb_spec a 35), (Z.ltb_spec a 50), (Z.ltb_spec b 35),
    (Z.ltb_spec b 50); try lia;
    (split; [discriminate|]); eexists _, _, _, _;
    repeat (split; [reflexivity|]); lia.
Qed.

Lemma age_based_strategy_large_cap_witness :
  30 <= 52 /\
  get_age_based_strategy 30 <> index_core /\
  exists (ta tb : dict Z) (la lb : Z),
    dict_get equity_templates (equity_strategy_name (get_age_based_strategy 30))
      = Some ta /\
    dict_get equity_templates (equity_strategy_name (get_age_based_strategy 52))
      = Some tb /\
    dict_keys ta = ["largecap"%string; "midcap"%string; "smallcap"%string] /\
    dict_keys tb = ["largecap"%string; "midcap"%string; "smallcap"%string] /\
    dict_get ta "largecap" = Some la /\
    dict_get tb "largecap" = Some lb /\
    la <= lb.
Proof.
  assert (H : 30 <= 52) by lia.
  split; [exact H|]. exact (age_based_strategy_large_cap 30 52 H).
Defined.

(** X24. A strategy has a description exactly when it has a template:
    [get_strategy_description] returns a non-empty text for the type
    "equity" (respectively "debt") and a name that is a key of the equity
    (respectively debt) templates, and the empty string for every other
    type or name. *)
Theorem description_iff_template (strategy_type strategy_name : string) :
  get_strategy_description strategy_type strategy_name <> ""%string <->
  (strategy_type = "equity"%string /\
   dict_get equity_templates strategy_name <> None) \/
  (strategy_type = "debt"%string /\
   dict_get debt_templates strategy_name <> None).
Proof.
  unfold get_strategy_description, dict_get_default.
  destruct (String.eqb_spec strategy_type "equity") as [->|Hne].
  - cbn [equity_strategy_descriptions equity_templates dict_get].
    destruct (String.eqb "index_core" strategy_name);
      [split; [intros _; left; split; [reflexivity | discriminate] | discriminate]|].
    destruct (String.eqb "market_weighted" strategy_name);
      [split; [intros _; left; split; [reflexivity | discriminate] | discriminate]|].
    destruct (String.eqb "balanced_growth" strategy_name);
      [split; [intros _; left; split; [reflexivity | discriminate] | discriminate]|].
    destruct (String.eqb "aggressive_growth" strategy_name);
      [split; [intros _; left; split; [reflexivity | discriminate] | discriminate]|].
    split; [congruence|]. intros [[_ H] | [H _]]; [congruence | discriminate].
  - destruct (String.eqb_spec strategy_type "debt") as [->|Hne'].
    + cbn [debt_strategy_descriptions debt_templates dict_get].
      destruct (String.eqb "long_term" strategy_name);
        [split; [intros _; right; split; [reflexivity | discriminate]
                | discriminate]|].
      split; [congruence|]. intros [[H _] | [_ H]]; [discriminate | congruence].
    + split; [congruence|]. intros [[H _] | [H _]]; congruence.
Qed.

(** ** Indian digit grouping *)

Module StrFacts.

Lemma append_nil_r (s : string) : (s ++ "")%string = s.
Proof. induction s as [|c s IH]; cbn; [reflexivity | now rewrite IH]. Qed.

Lemma append_assoc (a b c : string) :
  ((a ++ b) ++ c)%string = (a ++ (b ++ c))%string.
Proof. induction a as [|x a IH]; cbn; [reflexivity | now rewrite IH]. Qed.

Lemma length_append (a b : string) :
  String.length (a ++ b) = (String.length a + String.length b)%nat.
Proof. induction a as [|x a IH]; cbn; [reflexivity | now rewrite IH]. Qed.

Lemma take_drop (n : nat) (s : string) :
  (Slice.take n s ++ Slice.drop n s)%string = s.
Proof.
  revert s. induction n as [|n IH]; intros [|c s]; cbn; try reflexivity.
  now rewrite IH.
Qed.

Lemma length_take (n : nat) (s : string) :
  String.length (Slice.take n s) = Nat.min n (String.length s).
Proof.
  revert s. induction n as [|n IH]; intros [|c s]; cbn; try reflexivity.
  now rewrite IH.
Qed.

Lemma length_drop (n : nat) (s : string) :
  String.length (Slice.drop n s) = (String.length s - n)%nat.
Proof.
  revert s. induction n as [|n IH]; intros [|c s]; cbn; try reflexivity.
  now rewrite IH.
Qed.

Lemma but_last_last (n : nat) (s : string) :
  (Slice.but_last n s ++ Slice.last n s)%string = s.
Proof. apply take_drop. Qed.

Lemma length_but_last (n : nat) (s : string) :
  String.length (Slice.but_last n s) = (String.length s - n)%nat.
Proof. unfold Slice.but_last. rewrite length_take. lia. Qed.

Lemma length_last (n : nat) (s : string) :
  String.length (Slice.last n s) = Nat.min n (String.length s).
Proof. unfold Slice.last. rewrite length_drop. lia. Qed.

Lemma contains_count (c : ascii) (s : string) :
  Slice.contains c s = negb (Nat.eqb (count_char c s) 0).
Proof.
  induction s as [|x s IH]; cbn; [reflexivity|].
  destruct (Ascii.eqb x c); cbn; [reflexivity | exact IH].
Qed.

Lemma split_nonempty (c : ascii) (s : string) : Slice.split c s <> [].
Proof.
  induction s as [|x s IH]; cbn; [discriminate|].
  destruct (Ascii.eqb x c); [discriminate|].
  destruct (Slice.split c s); discriminate.
Qed.

Lemma length_split (c : ascii) (s : string) :
  List.length (Slice.split c s) = S (count_char c s).
Proof.
  induction s as [|x s IH]; cbn; [reflexivity|].
  destruct (Ascii.eqb x c); cbn; [now rewrite IH|].
  destruct (Slice.split c s) as [|p ps] eqn:E; [now apply split_nonempty in E|].
  cbn in *. exact IH.
Qed.

Lemma split_one (c : ascii) (s p : string) :
  Slice.split c s = [p] -> s = p.
Proof.
  revert p. induction s as [|x s IH]; cbn; intros p H.
  - now inversion H.
  - destruct (Ascii.eqb x c); [destruct s; cbn in H; try discriminate;
      destruct (Ascii.eqb _ _); try discriminate;
      destruct (Slice.split c s); discriminate|].
    destruct (Slice.split c s) as [|q qs] eqn:E; [now apply split_nonempty in E|].
    inversion H; subst. f_equal. now apply IH.
Qed.

Lemma split_two (c : ascii) (s a b : string) :
  Slice.split c s = [a; b] ->
  s = (a ++ String c b)%string /\ count_char c a = 0%nat /\ count_char c b = 0%nat.
Proof.
  revert a. induction s as [|x s IH]; cbn; intros a H; [discriminate|].
  destruct (Ascii.eqb_spec x c) as [->|Hne].
  - inversion H as [[Ha Hs]]. apply split_one in Hs as Hb. subst.
    cbn. split; [reflexivity|]. split; [reflexivity|].
    pose proof (length_split c b) as L. rewrite Hs in L. cbn in L. lia.
  - destruct (Slice.split c s) as [|q qs] eqn:E; [now apply split_nonempty in E|].
    inversion H; subst. destruct (IH q eq_refl) as (-> & Hq & Hb).
    cbn. split; [reflexivity|]. split; [|exact Hb].
    destruct (Ascii.eqb_spec x c); [contradiction | exact Hq].
Qed.

Lemma join_app (l1 l2 : list string) :
  concat_all (l1 ++ l2) = (concat_all l1 ++ concat_all l2)%string.
Proof.
  induction l1 as [|x l1 IH]; cbn; [reflexivity|].
  fold (concat_all (l1 ++ l2)). fold (concat_all l1). now rewrite IH, append_assoc.
Qed.

Lemma comma_join_snoc (l : list string) (x res : string) :
  (comma_join l ++ ("," ++ x ++ res))%string
  = (comma_join (l ++ [x]) ++ res)%string.
Proof.
  unfold comma_join. rewrite map_app, join_app. cbn [map concat_all fold_right].
  rewrite append_nil_r, !append_assoc. reflexivity.
Qed.

Lemma length_join (ls : list string) :
  List.Forall (fun p => String.length p = 2%nat) ls ->
  String.length (concat_all ls) = (2 * List.length ls)%nat.
Proof.
  induction 1 as [|p ls Hp _ IH]; cbn; [reflexivity|].
  fold (concat_all ls). rewrite length_append, Hp, IH. lia.
Qed.

End StrFacts.

(** The loop takes pairs of characters off the end until one or two
    characters are left. *)
Lemma group_pairs_spec (fuel : nat) (rest res : string) :
  (String.length rest <= fuel)%nat ->
  exists (head : string) (pairs : list string),
    group_pairs fuel rest res = (head, (comma_join pairs ++ res)%string) /\
    rest = (head ++ concat_all pairs)%string /\
    List.Forall (fun p => String.length p = 2%nat) pairs /\
    (String.length head <= 2)%nat /\
    (1 <= String.length rest -> 1 <= String.length head)%nat.
Proof.
  revert rest res. induction fuel as [|fuel IH]; intros rest res Hlen.
  - exists rest, []. cbn. rewrite StrFacts.append_nil_r.
    repeat split; try apply List.Forall_nil; lia.
  - cbn [group_pairs]. destruct (Nat.ltb_spec 2 (String.length rest)) as [Hgt|Hle].
    + destruct (IH (Slice.but_last 2 rest) ("," ++ Slice.last 2 rest ++ res)%string)
        as (head & pairs & Hrun & Hrest & Hall & Hhi & Hlo).
      { rewrite StrFacts.length_but_last. lia. }
      exists head, (pairs ++ [Slice.last 2 rest]).
      split; [rewrite Hrun, StrFacts.comma_join_snoc; reflexivity|].
      split.
      { rewrite StrFacts.join_app, <- StrFacts.append_assoc, <- Hrest.
        cbn [concat_all fold_right]. rewrite StrFacts.append_nil_r.
        symmetry. apply StrFacts.but_last_last. }
      split.
      { apply List.Forall_app. split; [exact Hall|].
        apply List.Forall_cons; [|apply List.Forall_nil].
        rewrite StrFacts.length_last. lia. }
      split; [exact Hhi|]. intros _. apply Hlo.
      rewrite StrFacts.length_but_last. lia.
    + exists rest, []. cbn. rewrite StrFacts.append_nil_r.
      repeat split; try apply List.Forall_nil; lia.
Qed.

Section FormattingFacts.

Variable str_num : Qc -> string.

(** The whole of [format_inr] on a text with at most one point. *)
Lemma format_inr_shape (number : Qc) :
  (count_char "." (str_num number) <= 1)%nat ->
  exists (int_part dec : string),
    str_num number = (int_part ++ dec)%string /\
    count_char "." int_part = 0%nat /\
    (dec = ""%string \/
     exists d, dec = String "." d /\ count_char "." d = 0%nat) /\
    ((String.length int_part <= 3)%nat /\
     format_inr str_num number = Ok ("₹ " ++ int_part ++ dec)%string
     \/
     exists (head : string) (pairs : list string) (last3 : string),
       int_part = (head ++ concat_all pairs ++ last3)%string /\
       (1 <= String.length head <= 2)%nat /\
       List.Forall (fun p => String.length p = 2%nat) pairs /\
       String.length last3 = 3%nat /\
       format_inr str_num number
       = Ok ("₹ " ++ head ++ comma_join pairs ++ "," ++ last3 ++ dec)%string).
Proof.
  intros Hcount.
  assert (Hsplit : exists int_part dec,
    str_num number = (int_part ++ dec)%string /\
    count_char "." int_part = 0%nat /\
    (dec = ""%string \/
     exists d, dec = String "." d /\ count_char "." d = 0%nat) /\
    (if Slice.contains "."%char (str_num number) then
       match Slice.split "."%char (str_num number) with
       | [s'; dec] => Ok (s', ("." ++ dec)%string)
       | _ => Raise (ValueError msg_unpack)
       end
     else Ok (str_num number, ""%string)) = Ok (int_part, dec)).
  { rewrite StrFacts.contains_count.
    destruct (Nat.eqb_spec (count_char "." (str_num number)) 0) as [H0|H0]; cbn [negb].
    - exists (str_num number), ""%string.
      rewrite StrFacts.append_nil_r. repeat split; auto.
    - pose proof (StrFacts.length_split "." (str_num number)) as L.
      destruct (Slice.split "." (str_num number)) as [|a [|b [|c l]]] eqn:E;
        cbn in L; try lia.
      apply StrFacts.split_two in E as (Hs & Ha & Hb).
      exists a, (String "." b). repeat split; auto.
      right. exists b. split; [reflexivity | exact Hb]. }
  destruct Hsplit as (int_part & dec & Hs & Hip & Hdec & Hparts).
  exists int_part, dec. split; [exact Hs|]. split; [exact Hip|]. split; [exact Hdec|].
  unfold format_inr. cbv zeta. rewrite Hparts.
  pose proof (StrFacts.length_but_last 3 int_part) as Lrest.
  destruct (Nat.eqb_spec (String.length (Slice.but_last 3 int_part)) 0) as [H0|H0];
    cbn [negb].
  - left. split; [lia|].
    assert (Hl : Slice.last 3 int_part = int_part).
    { unfold Slice.last. replace (String.length int_part - 3)%nat with 0%nat by lia.
      destruct int_part; reflexivity. }
    rewrite Hl. reflexivity.
  - right.
    destruct (group_pairs_spec (String.length (Slice.but_last 3 int_part))
                (Slice.but_last 3 int_part) ""%string (le_n _))
      as (head & pairs & Hrun & Hrest & Hall & Hhi & Hlo).
    exists head, pairs, (Slice.last 3 int_part).
    split.
    { rewrite <- StrFacts.append_assoc, <- Hrest.
      symmetry. apply StrFacts.but_last_last. }
    split; [split; [apply Hlo; lia | exact Hhi]|].
    split; [exact Hall|].
    split; [rewrite StrFacts.length_last; lia|].
    rewrite Hrun, StrFacts.append_nil_r, !StrFacts.append_assoc. reflexivity.
Qed.

(** X25. [format_inr] groups the integer part the Indian way and leaves the
    rest alone.  When the text of the number has at most one point, the
    call succeeds; the text splits into an integer part and either nothing
    or a point with the decimals; an integer part of at most three
    characters is printed unchanged after the rupee sign, and a longer one
    is printed as a head of one or two characters, then groups of two, then
    a last group of three, each group with a comma before it; the decimals
    follow unchanged.  No character is lost or reordered. *)
Theorem format_inr_grouping (number : Qc)
    (Hpoint : (count_char "." (str_num number) <= 1)%nat) :
  exists (int_part dec : string),
    str_num number = (int_part ++ dec)%string /\
    count_char "." int_part = 0%nat /\
    (dec = ""%string \/
     exists d, dec = String "." d /\ count_char "." d = 0%nat) /\
    ((String.length int_part <= 3)%nat /\
     format_inr str_num number = Ok ("₹ " ++ int_part ++ dec)%string
     \/
     exists (head : string) (pairs : list string) (last3 : string),
       int_part = (head ++ concat_all pairs ++ last3)%string /\
       (1 <= String.length head <= 2)%nat /\
       List.Forall (fun p => String.length p = 2%nat) pairs /\
       String.length last3 = 3%nat /\
       format_inr str_num number
       = Ok ("₹ " ++ head ++ comma_join pairs ++ "," ++ last3 ++ dec)%string).
Proof.
  exact (format_inr_shape number Hpoint).
Qed.

(** X26. [format_inr] fails exactly when the text of the number has more
    than one point: the unpacking of [s.split(".")] into two names then
    raises [ValueError]; with at most one point there is a result. *)
Theorem format_inr_fails_iff (number : Qc) :
  (format_inr str_num number = Raise (ValueError msg_unpack) <->
   (2 <= count_char "." (str_num number))%nat) /\
  ((exists out, format_inr str_num number = Ok out) <->
   (count_char "." (str_num number) <= 1)%nat).
Proof.
  assert (Hbad : (2 <= count_char "." (str_num number))%nat ->
                 format_inr str_num number = Raise (ValueError msg_unpack)).
  { intros H. unfold format_inr. cbv zeta. rewrite StrFacts.contains_count.
    destruct (Nat.eqb_spec (count_char "." (str_num number)) 0) as [H0|H0];
      [lia|]. cbn [negb].
    pose proof (StrFacts.length_split "." (str_num number)) as L.
    destruct (Slice.split "." (str_num number)) as [|a [|b [|c l]]] eqn:E;
      cbn in L; try lia; reflexivity. }
  assert (Hgood : (count_char "." (str_num number) <= 1)%nat ->
                  exists out, format_inr str_num number = Ok out).
  { intros H. destruct (format_inr_shape number H)
      as (ip & dec & _ & _ & _ & [[_ Hr] | (hd & ps & l3 & _ & _ & _ & _ & Hr)]);
      eexists; exact Hr. }
  split; split.
  - intros Hr. destruct (Nat.le_gt_cases 2 (count_char "." (str_num number)))
      as [H|H]; [exact H|].
    destruct Hgood as (out & Ho); [lia|]. congruence.
  - exact Hbad.
  - intros (out & Ho). destruct (Nat.le_gt_cases 2 (count_char "." (str_num number)))
      as [H|H]; [|lia]. rewrite (Hbad H) in Ho. discriminate.
  - exact Hgood.
Qed.

(** X27. [format_inr] counts a minus sign as a digit.  For a negative
    whole number whose digits number three, five, seven, ..., the sign is
    left alone in the leading group and the result reads "₹ -," followed by
    the grouped digits. *)
Theorem format_inr_sign_as_digit (number : Qc) (digits : string)
    (Htext : str_num number = String "-" digits)
    (Hint : count_char "." digits = 0%nat)
    (Hodd : Nat.odd (String.length digits) = true)
    (Hlen : (3 <= String.length digits)%nat) :
  exists body : string,
    format_inr str_num number = Ok ("₹ -," ++ body)%string.
Proof.
  destruct (format_inr_shape number) as (ip & dec & Hs & Hip & Hdec & Hout).
  { rewrite Htext. cbn. lia. }
  assert (Hd : dec = ""%string).
  { destruct Hdec as [H | (d & -> & Hd)]; [exact H|]. exfalso.
    assert (C : count_char "." (str_num number) = 1%nat).
    { rewrite Hs. clear - Hip Hd. induction ip as [|x ip IH]; cbn in *.
      - lia.
      - destruct (Ascii.eqb x "."); [lia | auto]. }
    rewrite Htext in C. cbn in C. lia. }
  subst dec. rewrite StrFacts.append_nil_r in Hs. rewrite Htext in Hs. subst ip.
  destruct Hout as [[Hshort _] | (hd & ps & l3 & Hparts & Hhd & Hall & Hl3 & Hr)].
  { cbn in Hshort. lia. }
  assert (L : S (String.length digits)
              = (String.length hd + 2 * List.length ps + 3)%nat).
  { change (S (String.length digits)) with (String.length (String "-" digits)).
    rewrite Hparts, !StrFacts.length_append, (StrFacts.length_join ps Hall), Hl3.
    lia. }
  assert (H1 : String.length hd = 1%nat).
  { destruct Hhd as [Hlo Hhi].
    destruct (Nat.eq_dec (String.length hd) 1%nat) as [E|E]; [exact E|].
    exfalso. assert (E2 : String.length hd = 2%nat) by lia.
    rewrite E2 in L.
    assert (Ev : String.length digits = (2 * (List.length ps + 2))%nat) by lia.
    rewrite Ev, Nat.odd_even in Hodd. discriminate. }
  destruct hd as [|c [|c' hd]]; cbn in H1; try discriminate.
  cbn in Hparts. inversion Hparts as [[Hc Hrest]]. subst c.
  rewrite Hr. cbn [String.append].
  destruct ps as [|p ps].
  - exists l3. rewrite StrFacts.append_nil_r. reflexivity.
  - unfold comma_join. cbn [map concat_all fold_right]. fold (concat_all (map (String.append ",") ps)).
    eexists. rewrite !StrFacts.append_assoc. cbn [String.append]. reflexivity.
Qed.

End FormattingFacts.

Lemma format_inr_grouping_witness :
  (count_char "." "1234567.89" <= 1)%nat /\
  exists (int_part dec : string),
    "1234567.89"%string = (int_part ++ dec)%string /\
    count_char "." int_part = 0%nat /\
    (dec = ""%string \/
     exists d, dec = String "." d /\ count_char "." d = 0%nat) /\
    ((String.length int_part <= 3)%nat /\
     format_inr (fun _ => "1234567.89"%string) (qz 0)
     = Ok ("₹ " ++ int_part ++ dec)%string
     \/
     exists (head : string) (pairs : list string) (last3 : string),
       int_part = (head ++ concat_all pairs ++ last3)%string /\
       (1 <= String.length head <= 2)%nat /\
       List.Forall (fun p => String.length p = 2%nat) pairs /\
       String.length last3 = 3%nat /\
       format_inr (fun _ => "1234567.89"%string) (qz 0)
       = Ok ("₹ " ++ head ++ comma_join pairs ++ "," ++ last3 ++ dec)%string).
Proof.
  assert (H : (count_char "." "1234567.89" <= 1)%nat) by (vm_compute; lia).
  split; [exact H|].
  exact (format_inr_grouping (fun _ => "1234567.89"%string) (qz 0) H).
Defined.

Lemma format_inr_sign_as_digit_witness :
  (fun _ : Qc => "-12345"%string) (qz 0) = String "-" "12345" /\
  count_char "." "12345" = 0%nat /\
  Nat.odd (String.length "12345") = true /\
  (3 <= String.length "12345")%nat /\
  exists body : string,
    format_inr (fun _ => "-12345"%string) (qz 0) = Ok ("₹ -," ++ body)%string.
Proof.
  assert (H1 : (fun _ : Qc => "-12345"%string) (qz 0) = String "-" "12345")
    by reflexivity.
  assert (H2 : count_char "." "12345" = 0%nat) by reflexivity.
  assert (H3 : Nat.odd (String.length "12345") = true) by reflexivity.
  assert (H4 : (3 <= String.length "12345")%nat) by (vm_compute; lia).
  repeat (split; [assumption|]).
  exact (format_inr_sign_as_digit (fun _ => "-12345"%string) (qz 0) "12345"
           H1 H2 H3 H4).
Defined.

(** ** The totals of [get_allocation_summary] *)






(** ** Goals and the debt table *)

(** X29. The debt table knows long-term goals only.  With the timeframe of
    a goal as its strategy, [allocate_debt] returns an allocation exactly
    when the goal is more than seven years away; for a goal at most three
    years away it raises [KeyError] "short_term", and for one four to
    seven years away [KeyError] "medium_term", in both cases leaving the
    store unchanged. *)
Theorem goal_timeframe_as_debt_strategy (g : FinancialGoal) (D : Qc) (h : heap) :
  ((exists (d : dict ref) (h' : heap),
       allocate_debt D (timeframe g) h = (Ok d, h'))
   <-> 7 < years_to_goal g) /\
  (allocate_debt D (timeframe g) h = (Raise (KeyError "short_term"), h)
   <-> years_to_goal g <= 3) /\
  (allocate_debt D (timeframe g) h = (Raise (KeyError "medium_term"), h)
   <-> 3 < years_to_goal g <= 7).
Proof.
  unfold timeframe.
  destruct (Z.leb_spec (years_to_goal g) 3) as [H3|H3];
    [|destruct (Z.leb_spec (years_to_goal g) 7) as [H7|H7]].
  - rewrite (allocate_debt_other D short_term h) by discriminate.
    cbn [goal_timeframe_name].
    split; [split; [intros (d & h' & E); discriminate | lia]|].
    split; [split; [intros _; exact H3 | reflexivity]|].
    split; [discriminate | lia].
  - rewrite (allocate_debt_other D medium_term h) by discriminate.
    cbn [goal_timeframe_name].
    split; [split; [intros (d & h' & E); discriminate | lia]|].
    split; [split; [discriminate | lia]|].
    split; [intros _; lia | reflexivity].
  - rewrite allocate_debt_long_term.
    split; [split; [intros _; exact H7 | intros _; eexists _, _; reflexivity]|].
    split; (split; [discriminate | lia]).
Qed.

(** * Properties of the engine on doubles *)

(** ** Facts about the double model *)

Module F64Facts.
Import F64.

Lemma p2_pos (e : Z) : (0 < p2 e)%Q.
Proof. apply Qpower_0_lt. reflexivity. Qed.

Lemma p2_add (a b : Z) : (p2 (a + b) == p2 a * p2 b)%Q.
Proof. apply Qpower_plus. discriminate. Qed.

Lemma p2_le (a b : Z) : a <= b -> (p2 a <= p2 b)%Q.
Proof. intros H. apply Qpower_le_compat_l; [exact H | discriminate]. Qed.

Lemma p2_lt (a b : Z) : a < b -> (p2 a < p2 b)%Q.
Proof. intros H. apply Qpower_lt_compat_l; [exact H | reflexivity]. Qed.

Lemma p2_le_inv (a b : Z) : (p2 a <= p2 b)%Q -> a <= b.
Proof. intros H. apply (Qpower_le_compat_l_inv 2); [exact H | reflexivity]. Qed.

Lemma p2_lt_inv (a b : Z) : (p2 a < p2 b)%Q -> a < b.
Proof. intros H. apply (Qpower_lt_compat_l_inv 2); [exact H | reflexivity]. Qed.

Lemma p2_Z (n : Z) : 0 <= n -> (p2 n == inject_Z (2 ^ n))%Q.
Proof. intros H. unfold p2. rewrite Zpower_Qpower by exact H. reflexivity. Qed.

Lemma p2_cancel (e : Z) : (p2 e * p2 (- e) == 1)%Q.
Proof. rewrite <- p2_add, Z.add_opp_diag_r. reflexivity. Qed.

Lemma p2_shift (k e : Z) : (p2 k * p2 (- e) == p2 (k - e))%Q.
Proof. rewrite <- p2_add. reflexivity. Qed.

Lemma p2_unshift (k e : Z) : (p2 (k - e) * p2 e == p2 k)%Q.
Proof. rewrite <- p2_add. replace (k - e + e) with k by lia. reflexivity. Qed.

(** *** The binary exponent *)

Lemma Qabs_make (n : Z) (d : positive) : Qabs (n # d) = (Z.abs n # d).
Proof. reflexivity. Qed.

Lemma ilog2_spec (x : Q) :
  ~ (x == 0)%Q -> (p2 (ilog2 x) <= Qabs x)%Q /\ (Qabs x < p2 (ilog2 x + 1))%Q.
Proof.
  intros Hx. destruct x as [n d]. unfold ilog2. cbn [Qnum Qden].
  set (a := Z.abs n). set (ln := Z.log2 a). set (ld := Z.log2 (Zpos d)).
  assert (Ha : 0 < a).
  { subst a. assert (n <> 0); [|lia]. intros ->. apply Hx. reflexivity. }
  destruct (Z.log2_spec a Ha) as [A1 A2]. fold ln in A1, A2.
  destruct (Z.log2_spec (Zpos d) ltac:(lia)) as [D1 D2]. fold ld in D1, D2.
  assert (Hln : 0 <= ln) by apply Z.log2_nonneg.
  assert (Hld : 0 <= ld) by apply Z.log2_nonneg.
  assert (QA1 : (p2 ln <= inject_Z a)%Q).
  { rewrite p2_Z by exact Hln. rewrite <- Zle_Qle. exact A1. }
  assert (QA2 : (inject_Z a < p2 (ln + 1))%Q).
  { rewrite p2_Z by lia. rewrite <- Zlt_Qlt. exact A2. }
  assert (QD1 : (p2 ld <= inject_Z (Zpos d))%Q).
  { rewrite p2_Z by exact Hld. rewrite <- Zle_Qle. exact D1. }
  assert (QD2 : (inject_Z (Zpos d) < p2 (ld + 1))%Q).
  { rewrite p2_Z by lia. rewrite <- Zlt_Qlt. exact D2. }
  assert (Dpos : (0 < inject_Z (Zpos d))%Q) by (rewrite <- (Zlt_Qlt 0); lia).
  assert (E : (Qabs (n # d) == inject_Z a / inject_Z (Zpos d))%Q).
  { rewrite Qabs_make. fold a. apply Qmake_Qdiv. }
  assert (Up : (Qabs (n # d) < p2 (ln - ld + 1))%Q).
  { rewrite E. apply Qlt_shift_div_r; [exact Dpos|].
    apply Qlt_le_trans with (p2 (ln + 1)); [exact QA2|].
    replace (ln + 1) with ((ln - ld + 1) + ld) by lia. rewrite p2_add.
    apply Qmult_le_l; [apply p2_pos | exact QD1]. }
  assert (Lo : (p2 (ln - ld - 1) <= Qabs (n # d))%Q).
  { rewrite E. apply Qle_shift_div_l; [exact Dpos|].
    apply Qle_trans with (p2 ln); [|exact QA1].
    replace ln with ((ln - ld - 1) + (ld + 1)) at 2 by lia. rewrite p2_add.
    apply Qmult_le_l; [apply p2_pos | apply Qlt_le_weak, QD2]. }
  destruct (Qle_bool (p2 (ln - ld)) (Qabs (n # d))) eqn:T.
  - apply Qle_bool_iff in T. split; [exact T | exact Up].
  - split; [exact Lo|].
    replace (ln - ld - 1 + 1) with (ln - ld) by lia.
    apply Qnot_le_lt. intros C. apply Qle_bool_iff in C. congruence.
Qed.

Lemma ilog2_le (x : Q) (k : Z) :
  ~ (x == 0)%Q -> (Qabs x <= p2 k)%Q -> ilog2 x <= k.
Proof.
  intros Hx H. destruct (ilog2_spec x Hx) as [L _].
  apply p2_le_inv. lra.
Qed.

Lemma ilog2_lt (x : Q) (k : Z) :
  ~ (x == 0)%Q -> (Qabs x < p2 k)%Q -> ilog2 x < k.
Proof.
  intros Hx H. destruct (ilog2_spec x Hx) as [L _].
  apply p2_lt_inv. lra.
Qed.

Lemma ilog2_ge (x : Q) (k : Z) :
  ~ (x == 0)%Q -> (p2 k <= Qabs x)%Q -> k <= ilog2 x.
Proof.
  intros Hx H. destruct (ilog2_spec x Hx) as [_ U].
  assert (k < ilog2 x + 1); [|lia]. apply p2_lt_inv. lra.
Qed.

Lemma ilog2_opp (x : Q) : ilog2 (- x) = ilog2 x.
Proof.
  destruct x as [n d]. unfold ilog2, Qopp. cbn [Qnum Qden].
  rewrite Z.abs_opp. rewrite !Qabs_make, Z.abs_opp. reflexivity.
Qed.

(** *** Rounding to an integer *)

Lemma rhe_nearest (q : Q) : nearest_even q (rhe q).
Proof.
  apply (RoundFacts.nearest_even_ext (Q2Qc q)).
  - apply Qred_correct.
  - apply RoundFacts.round_half_even_nearest.
Qed.

Lemma rhe_mono (p q : Q) : (p <= q)%Q -> rhe p <= rhe q.
Proof.
  intros H. apply (RoundFacts.nearest_even_mono p q); [exact H | |]; apply rhe_nearest.
Qed.

Lemma rhe_Z (q : Q) (z : Z) : (q == inject_Z z)%Q -> rhe q = z.
Proof.
  intros E. apply (RoundFacts.nearest_even_unique q); [apply rhe_nearest|].
  left. split; lra.
Qed.

Lemma rhe_opp (q : Q) : rhe (- q) = - rhe q.
Proof.
  apply (RoundFacts.nearest_even_unique (- q)); [apply rhe_nearest|].
  destruct (rhe_nearest q) as [[H1 H2] | [H He]].
  - left. rewrite inject_Z_opp. split; lra.
  - right. rewrite inject_Z_opp, Z.even_opp. split; [|exact He].
    destruct H; [right | left]; lra.
Qed.

(** *** Rounding to 53 bits *)

Lemma expo_ge (x : Q) : -1074 <= expo x.
Proof. unfold expo. lia. Qed.

Lemma expo_opp (x : Q) : expo (- x) = expo x.
Proof. unfold expo. rewrite ilog2_opp. reflexivity. Qed.

Lemma rval_opp (x : Q) : (rval (- x) == - rval x)%Q.
Proof.
  unfold rval. cbv zeta. rewrite expo_opp.
  assert (E : rhe (- x * p2 (- expo x)) = rhe (- (x * p2 (- expo x)))).
  { apply (RoundFacts.nearest_even_unique (- x * p2 (- expo x))); [apply rhe_nearest|].
    apply (RoundFacts.nearest_even_ext (- (x * p2 (- expo x)))); [ring | apply rhe_nearest]. }
  rewrite E, rhe_opp, inject_Z_opp. ring.
Qed.


(** Scaling: [x * 2^(-e) <= N] when [x <= N * 2^e]. *)
Lemma scale_le (x : Q) (e : Z) (b : Q) :
  (x <= b * p2 e)%Q -> (x * p2 (- e) <= b)%Q.
Proof.
  intros H. pose proof (p2_pos (- e)) as P. pose proof (p2_cancel e) as C.
  assert (M : (x * p2 (- e) <= b * p2 e * p2 (- e))%Q)
    by (apply Qmult_le_compat_r; [exact H | lra]).
  assert (E : (b * p2 e * p2 (- e) == b)%Q) by (rewrite <- Qmult_assoc, C; ring).
  lra.
Qed.

Lemma scale_ge (x : Q) (e : Z) (b : Q) :
  (b * p2 e <= x)%Q -> (b <= x * p2 (- e))%Q.
Proof.
  intros H. pose proof (p2_pos (- e)) as P. pose proof (p2_cancel e) as C.
  assert (M : (b * p2 e * p2 (- e) <= x * p2 (- e))%Q)
    by (apply Qmult_le_compat_r; [exact H | lra]).
  assert (E : (b * p2 e * p2 (- e) == b)%Q) by (rewrite <- Qmult_assoc, C; ring).
  lra.
Qed.

(** A bound that is an integer number of last places survives rounding. *)
Lemma rval_le_units (x : Q) (n : Z) :
  (x <= inject_Z n * p2 (expo x))%Q -> (rval x <= inject_Z n * p2 (expo x))%Q.
Proof.
  intros H. unfold rval. cbv zeta.
  apply Qmult_le_compat_r; [|apply Qlt_le_weak, p2_pos].
  rewrite <- Zle_Qle. rewrite <- (rhe_Z (inject_Z n) n) by reflexivity.
  apply rhe_mono, scale_le, H.
Qed.

Lemma rval_ge_units (x : Q) (n : Z) :
  (inject_Z n * p2 (expo x) <= x)%Q -> (inject_Z n * p2 (expo x) <= rval x)%Q.
Proof.
  intros H. unfold rval. cbv zeta.
  apply Qmult_le_compat_r; [|apply Qlt_le_weak, p2_pos].
  rewrite <- Zle_Qle. rewrite <- (rhe_Z (inject_Z n) n) by reflexivity.
  apply rhe_mono, scale_ge, H.
Qed.

Lemma rval_nonneg (x : Q) : (0 <= x)%Q -> (0 <= rval x)%Q.
Proof.
  intros H. pose proof (rval_ge_units x 0) as G.
  assert (E : (inject_Z 0 * p2 (expo x) == 0)%Q) by ring.
  rewrite E in G. apply G, H.
Qed.

Lemma rval_nonpos (x : Q) : (x <= 0)%Q -> (rval x <= 0)%Q.
Proof.
  intros H. pose proof (rval_le_units x 0) as G.
  assert (E : (inject_Z 0 * p2 (expo x) == 0)%Q) by ring.
  rewrite E in G. apply G, H.
Qed.

(** Powers of two are doubles: rounding cannot cross them. *)
Lemma rval_le_p2 (x : Q) (k : Z) :
  -1074 <= k -> (0 < x)%Q -> (x <= p2 k)%Q -> (rval x <= p2 k)%Q.
Proof.
  intros Hk Hpos H.
  assert (Hx : ~ (x == 0)%Q) by lra.
  assert (Ha : (Qabs x == x)%Q) by (apply Qabs_pos; lra).
  assert (He : expo x <= k).
  { unfold expo. pose proof (ilog2_le x k Hx ltac:(lra)). lia. }
  pose proof (rval_le_units x (2 ^ (k - expo x))) as G.
  assert (E : (inject_Z (2 ^ (k - expo x)) * p2 (expo x) == p2 k)%Q).
  { rewrite <- p2_Z by lia. apply p2_unshift. }
  rewrite E in G. apply G, H.
Qed.

Lemma rval_ge_p2 (x : Q) (k : Z) :
  -1074 <= k -> (p2 k <= x)%Q -> (p2 k <= rval x)%Q.
Proof.
  intros Hk H. pose proof (p2_pos k) as Pk.
  assert (Hx : ~ (x == 0)%Q) by lra.
  assert (Ha : (Qabs x == x)%Q) by (apply Qabs_pos; lra).
  pose proof (ilog2_ge x k Hx ltac:(lra)) as HL.
  destruct (ilog2_spec x Hx) as [L _]. rewrite Ha in L.
  destruct (Z_le_gt_dec (expo x) k) as [He|He].
  - pose proof (rval_ge_units x (2 ^ (k - expo x))) as G.
    assert (E : (inject_Z (2 ^ (k - expo x)) * p2 (expo x) == p2 k)%Q).
    { rewrite <- p2_Z by lia. apply p2_unshift. }
    rewrite E in G. apply G, H.
  - assert (Ee : expo x = ilog2 x - 52) by (unfold expo in *; lia).
    pose proof (rval_ge_units x (2 ^ 52)) as G.
    assert (E : (inject_Z (2 ^ 52) * p2 (expo x) == p2 (ilog2 x))%Q).
    { rewrite <- p2_Z by lia. rewrite <- p2_add. rewrite Ee.
      replace (52 + (ilog2 x - 52)) with (ilog2 x) by lia. reflexivity. }
    rewrite E in G. specialize (G L).
    pose proof (p2_le k (ilog2 x) HL). lra.
Qed.

(** Rounding is monotone. *)
Lemma rval_mono_pos (x y : Q) :
  (0 < x)%Q -> (x <= y)%Q -> (rval x <= rval y)%Q.
Proof.
  intros Hpos Hxy.
  assert (Hx : ~ (x == 0)%Q) by lra.
  assert (Hy : ~ (y == 0)%Q) by lra.
  assert (Ax : (Qabs x == x)%Q) by (apply Qabs_pos; lra).
  assert (Ay : (Qabs y == y)%Q) by (apply Qabs_pos; lra).
  destruct (ilog2_spec x Hx) as [Lx Ux]. rewrite Ax in Lx, Ux.
  destruct (ilog2_spec y Hy) as [Ly Uy]. rewrite Ay in Ly, Uy.
  assert (HL : ilog2 x <= ilog2 y).
  { assert (ilog2 x < ilog2 y + 1); [|lia]. apply p2_lt_inv. lra. }
  destruct (Z.eq_dec (expo x) (expo y)) as [Ee|Ne].
  - unfold rval. cbv zeta. rewrite Ee.
    apply Qmult_le_compat_r; [|apply Qlt_le_weak, p2_pos].
    rewrite <- Zle_Qle. apply rhe_mono.
    apply Qmult_le_compat_r; [exact Hxy | apply Qlt_le_weak, p2_pos].
  - assert (Hey : expo y = ilog2 y - 52 /\ ilog2 x < ilog2 y /\ -1074 < ilog2 y - 52)
      by (unfold expo in *; lia).
    destruct Hey as (Ey & Hlt & Hsub).
    set (k := Z.max (ilog2 x + 1) (-1074)).
    assert (Hk1 : -1074 <= k) by lia.
    assert (Hk2 : k <= ilog2 y) by lia.
    assert (Hxk : (x <= p2 k)%Q).
    { pose proof (p2_le (ilog2 x + 1) k ltac:(lia)). lra. }
    pose proof (rval_le_p2 x k Hk1 Hpos Hxk) as A.
    pose proof (rval_ge_p2 y (ilog2 y) ltac:(lia) Ly) as B.
    pose proof (p2_le k (ilog2 y) Hk2). lra.
Qed.

Lemma rval_mono (x y : Q) : (x <= y)%Q -> (rval x <= rval y)%Q.
Proof.
  intros Hxy.
  destruct (Qlt_le_dec 0 x) as [Hx|Hx].
  - apply rval_mono_pos; assumption.
  - destruct (Qlt_le_dec y 0) as [Hy|Hy].
    + pose proof (rval_mono_pos (- y) (- x) ltac:(lra) ltac:(lra)) as M.
      rewrite !rval_opp in M. lra.
    + pose proof (rval_nonpos x Hx). pose proof (rval_nonneg y Hy). lra.
Qed.

Lemma rval_comp (x y : Q) : (x == y)%Q -> (rval x == rval y)%Q.
Proof.
  intros E. apply Qle_antisym; apply rval_mono; lra.
Qed.

(** *** Rounding to a double *)

Lemma rn_between' (x lo hi lo' hi' : Q) :
  (lo <= x)%Q -> (x <= hi)%Q ->
  (rval lo == lo')%Q -> (rval hi == hi')%Q ->
  (- p2 1024 < lo')%Q -> (hi' < p2 1024)%Q ->
  between lo' hi' (rn x).
Proof.
  intros H1 H2 E1 E2 B1 B2.
  pose proof (rval_mono lo x H1) as M1. pose proof (rval_mono x hi H2) as M2.
  unfold rn. cbv zeta.
  destruct (Qle_bool (p2 1024) (Qabs (rval x))) eqn:T.
  - exfalso. apply Qle_bool_iff in T.
    assert (A : (Qabs (rval x) < p2 1024)%Q).
    { apply Qabs_case; intros; lra. }
    lra.
  - exists (Q2Qc (rval x)). split; [reflexivity|].
    rewrite NumFacts.this_Q2Qc. split; lra.
Qed.

Lemma is_double_spec (c : Q) :
  is_double c = true -> (rval c == c)%Q /\ (- p2 1024 < c)%Q /\ (c < p2 1024)%Q.
Proof.
  unfold is_double. intros H. apply andb_true_iff in H as [E B].
  apply Qeq_bool_iff in E. split; [exact E|].
  apply negb_true_iff in B.
  assert (A : (Qabs c < p2 1024)%Q).
  { apply Qnot_le_lt. intros C. apply Qle_bool_iff in C. congruence. }
  revert A. apply Qabs_case; intros; lra.
Qed.

Lemma rn_between (x lo hi : Q) :
  is_double lo = true -> is_double hi = true ->
  (lo <= x)%Q -> (x <= hi)%Q -> between lo hi (rn x).
Proof.
  intros Dl Dh H1 H2.
  destruct (is_double_spec lo Dl) as (E1 & B1 & _).
  destruct (is_double_spec hi Dh) as (E2 & _ & B2).
  exact (rn_between' x lo hi lo hi H1 H2 E1 E2 B1 B2).
Qed.

Lemma between_weaken (lo hi lo' hi' : Q) (x : float) :
  between lo hi x -> (lo' <= lo)%Q -> (hi <= hi')%Q -> between lo' hi' x.
Proof.
  intros (q & -> & H1 & H2) L H. exists q. split; [reflexivity|]. split; lra.
Qed.

Lemma between_of_int (z : Z) : between (inject_Z z) (inject_Z z) (of_int z).
Proof.
  exists (qz z). split; [reflexivity|]. rewrite NumFacts.this_of_Z. split; lra.
Qed.

Lemma Fin_eq (a b : Qc) : (a == b)%Q -> Fin a = Fin b.
Proof. intros E. f_equal. apply Qc_is_canon, E. Qed.

(** *** Intervals through the operations *)

Lemma between_leb (a b : Z) (x : float) :
  leb (of_int a) x = true -> leb x (of_int b) = true ->
  between (inject_Z a) (inject_Z b) x.
Proof.
  destruct x as [q|s|]; cbn; intros H1 H2; try discriminate.
  - exists q. split; [reflexivity|].
    apply NumFacts.leb_le in H1, H2. unfold Qcle in *.
    rewrite NumFacts.this_of_Z in *. split; assumption.
  - destruct s; discriminate.
Qed.

Lemma leb_between (a b : Z) (x : float) :
  between (inject_Z a) (inject_Z b) x ->
  leb (of_int a) x = true /\ leb x (of_int b) = true.
Proof.
  intros (q & -> & H1 & H2). cbn.
  split; apply NumFacts.leb_le; unfold Qcle; rewrite NumFacts.this_of_Z; assumption.
Qed.

Lemma add_between (x y : float) (a1 b1 a2 b2 lo hi : Q) :
  between a1 b1 x -> between a2 b2 y ->
  is_double lo = true -> is_double hi = true ->
  (lo <= a1 + a2)%Q -> (b1 + b2 <= hi)%Q ->
  between lo hi (x + y)%f.
Proof.
  intros (q1 & -> & A1 & B1) (q2 & -> & A2 & B2) Dl Dh L H.
  cbn [add]. apply rn_between; [exact Dl | exact Dh | lra | lra].
Qed.

Lemma sub_between (x y : float) (a1 b1 a2 b2 lo hi : Q) :
  between a1 b1 x -> between a2 b2 y ->
  is_double lo = true -> is_double hi = true ->
  (lo <= a1 - b2)%Q -> (b1 - a2 <= hi)%Q ->
  between lo hi (x - y)%f.
Proof.
  intros (q1 & -> & A1 & B1) (q2 & -> & A2 & B2) Dl Dh L H.
  unfold sub. cbn [opp add].
  apply rn_between; [exact Dl | exact Dh | |]; rewrite NumFacts.this_opp; lra.
Qed.

Lemma mul_between_nonneg (x y : float) (b1 b2 hi : Q) :
  between 0 b1 x -> between 0 b2 y ->
  is_double hi = true -> (b1 * b2 <= hi)%Q ->
  between 0 hi (x * y)%f.
Proof.
  intros (q1 & -> & A1 & B1) (q2 & -> & A2 & B2) Dh H.
  cbn [mul]. apply rn_between; [reflexivity | exact Dh | |].
  - apply Qmult_le_0_compat; assumption.
  - assert (U : (0 <= b1 * (b2 - q2))%Q) by (apply Qmult_le_0_compat; lra).
    assert (V : (0 <= (b1 - q1) * q2)%Q) by (apply Qmult_le_0_compat; lra).
    lra.
Qed.

Lemma div_between (x : float) (c : Qc) (a b lo hi : Q) :
  between a b x -> (0 < c)%Q ->
  is_double lo = true -> is_double hi = true ->
  (lo * c <= a)%Q -> (b <= hi * c)%Q ->
  between lo hi (x / Fin c)%f.
Proof.
  intros (q & -> & A & B) Hc Dl Dh L H.
  cbn [div]. apply rn_between; [exact Dl | exact Dh | |].
  - apply Qle_shift_div_l; [exact Hc | lra].
  - apply Qle_shift_div_r; [exact Hc | lra].
Qed.

(** A share of a finite amount is finite. *)
Lemma mul_share_between (x y : float) (m : Q) :
  between 0 1 x -> between (- m) m y -> is_double (- m) = true ->
  is_double m = true -> between (- m) m (x * y)%f.
Proof.
  intros (q1 & -> & A1 & B1) (q2 & -> & A2 & B2) Dl Dh.
  cbn [mul]. apply rn_between; [exact Dl | exact Dh | |].
  - destruct (Qlt_le_dec q2 0) as [N|P].
    + assert (U : (0 <= (1 - q1) * (- q2))%Q) by (apply Qmult_le_0_compat; lra).
      lra.
    + assert (U : (0 <= q1 * q2)%Q) by (apply Qmult_le_0_compat; lra). lra.
  - destruct (Qlt_le_dec q2 0) as [N|P].
    + assert (U : (0 <= q1 * (- q2))%Q) by (apply Qmult_le_0_compat; lra). lra.
    + assert (U : (0 <= (1 - q1) * q2)%Q) by (apply Qmult_le_0_compat; lra).
      lra.
Qed.

Lemma round2_fin_between (q : Qc) (a b : Z) :
  (inject_Z a <= q)%Q -> (q <= inject_Z b)%Q ->
  is_double (inject_Z a) = true -> is_double (inject_Z b) = true ->
  between (inject_Z a) (inject_Z b) (round2_fin q).
Proof.
  intros A B Da Db. unfold round2_fin.
  assert (Ha : (qz a <= Num.round2 q)%Qc).
  { rewrite <- (RoundFacts.round2_of_Z a). apply RoundFacts.round2_mono.
    unfold Qcle. rewrite NumFacts.this_of_Z. exact A. }
  assert (Hb : (Num.round2 q <= qz b)%Qc).
  { rewrite <- (RoundFacts.round2_of_Z b). apply RoundFacts.round2_mono.
    unfold Qcle. rewrite NumFacts.this_of_Z. exact B. }
  unfold Qcle in Ha, Hb. rewrite NumFacts.this_of_Z in Ha, Hb.
  apply rn_between; assumption.
Qed.

(** *** Comparisons *)

Lemma ltb_leb (x y : float) : ltb x y = true -> leb x y = true.
Proof.
  destruct x as [a|[]|], y as [b|[]|]; cbn; try congruence.
  intros H. apply NumFacts.ltb_lt in H. apply NumFacts.leb_le.
  apply Qclt_le_weak, H.
Qed.

Lemma gtb_not_leb (x y : float) : gtb x y = true -> leb x y = false.
Proof.
  unfold gtb. destruct x as [a|[]|], y as [b|[]|]; cbn; try congruence.
  intros H. apply NumFacts.ltb_lt in H. apply NumFacts.leb_gt, H.
Qed.

(** Python's nested [min(15, max(0, x))] is a clamp, whatever [x] is. *)
Lemma clamp_between (lo hi : Z) (x : float) :
  (lo <= hi)%Z ->
  between (inject_Z lo) (inject_Z hi) (min (of_int hi) (max (of_int lo) x)).
Proof.
  intros Hle.
  assert (B0 : between (inject_Z lo) (inject_Z hi) (of_int lo)).
  { exists (qz lo). split; [reflexivity|]. rewrite NumFacts.this_of_Z.
    rewrite <- !Zle_Qle. lia. }
  assert (B1 : between (inject_Z lo) (inject_Z hi) (of_int hi)).
  { exists (qz hi). split; [reflexivity|]. rewrite NumFacts.this_of_Z.
    rewrite <- !Zle_Qle. lia. }
  unfold max, min, gtb.
  destruct (ltb (of_int lo) x) eqn:G.
  - destruct (ltb x (of_int hi)) eqn:L; [|exact B1].
    destruct x as [q|[]|]; cbn in G, L; try discriminate.
    apply NumFacts.ltb_lt in G, L. unfold Qclt in G, L.
    rewrite NumFacts.this_of_Z in G, L.
    exists q. split; [reflexivity|]. split; lra.
  - destruct (ltb (of_int lo) (of_int hi)) eqn:L; [exact B0 | exact B1].
Qed.

End F64Facts.

(** ** The engine on doubles: rounding and the rebalancer *)

Module DblFacts.
Import F64 F64Facts Dbl.

Lemma dbl_round2_ok (x : float) :
  roundable x = true -> round2 x = Ok (rounded x).
Proof. unfold roundable, rounded. destruct (round2 x); [reflexivity | discriminate]. Qed.

Lemma dbl_round2_rounded (x v : float) : round2 x = Ok v -> rounded x = v.
Proof. unfold rounded. intros ->. reflexivity. Qed.

Lemma dbl_round2_between (x : float) (a b : Z) :
  between (inject_Z a) (inject_Z b) x ->
  is_double (inject_Z a) = true -> is_double (inject_Z b) = true ->
  roundable x = true /\ between (inject_Z a) (inject_Z b) (rounded x).
Proof.
  intros (q & -> & A & B) Da Db.
  destruct (round2_fin_between q a b A B Da Db) as (r & Hr & R1 & R2).
  unfold roundable, rounded, round2. rewrite Hr.
  split; [reflexivity|]. exists r. split; [reflexivity|]. split; assumption.
Qed.

(** The exceptions of [round] are never the [ValueError] of the
    rebalancer. *)
Lemma dbl_round2_raises (x : float) (e : exn) :
  round2 x = Raise e ->
  (exists m, e = OverflowError m) \/
  (x = NaN /\ e = ValueError "cannot convert float NaN to integer").
Proof.
  destruct x as [q| |]; cbn.
  - destruct (round2_fin q); intros H; inversion H; left; eexists; reflexivity.
  - intros H; inversion H; left; eexists; reflexivity.
  - intros H; inversion H. right. split; reflexivity.
Qed.

Lemma dbl_for_each_ok {X A} (items : list X) (acc : A)
    (body : A -> X -> outcome A) (step : A -> X -> A) :
  (forall a x, In x items -> body a x = Ok (step a x)) ->
  for_each items acc body = Ok (fold_left step items acc).
Proof.
  revert acc. induction items as [|x items IH]; intros acc H; [reflexivity|].
  cbn [for_each fold_left]. rewrite (H acc x (or_introl eq_refl)).
  apply IH. intros a y Hy. apply H. right. exact Hy.
Qed.

Lemma dbl_for_each_raises {X A} (items : list X) (acc : A)
    (body : A -> X -> outcome A) (P : exn -> Prop) :
  (forall a x e, body a x = Raise e -> P e) ->
  forall e, for_each items acc body = Raise e -> P e.
Proof.
  intros H. revert acc. induction items as [|x items IH]; intros acc e; cbn.
  - discriminate.
  - destruct (body acc x) eqn:B.
    + apply IH.
    + intros E. inversion E; subst. exact (H _ _ _ B).
Qed.

(** *** The loop of [check_rebalancing_needed] *)

Section DblRendering.
Variable fmt_1f : float -> string.

Lemma dbl_drift_loop (current_pct target_pct : dict number) (thr : float)
    (acc : list string) :
  fold_left
    (fun drifted_funds kv =>
       let fund := fst kv in
       let target := snd kv in
       let current := dict_get_default current_pct fund zero_float in
       let drift := abs (val current - val target)%f in
       if geb drift thr
       then drifted_funds
            ++ [drift_description fmt_1f fund target current drift]
       else drifted_funds)
    target_pct acc
  = acc ++
    map (fun kv =>
           drift_description fmt_1f (fst kv) (snd kv)
             (dict_get_default current_pct (fst kv) zero_float)
             (drift_of current_pct kv))
        (filter (fun kv => geb (drift_of current_pct kv) thr = true) target_pct).
Proof.
  revert acc. induction target_pct as [|kv l IH]; intros acc.
  - cbn. symmetry. apply app_nil_r.
  - cbn [fold_left]. cbv zeta. rewrite IH. rewrite filter_cons.
    fold (drift_of current_pct kv).
    destruct (geb (drift_of current_pct kv) thr) eqn:G.
    + rewrite decide_True by reflexivity.
      cbn [map]. rewrite <- app_assoc. reflexivity.
    + rewrite decide_False by discriminate. reflexivity.
Qed.

End DblRendering.

End DblFacts.

(** ** C5, C6 and C7: the rebalancer on doubles *)

Section DoubleRebalancer.
Import F64 F64Facts Dbl DblFacts.

Variable fmt_1f : float -> string.

(** C7. [check_rebalancing_needed] emits, in the order of the target
    dictionary, one description for each target entry whose drift
    [abs(current - target)], computed on doubles, is at least the threshold
    (the comparison is [>=], so the boundary is included), the current
    value of a category absent from the current dictionary being 0.0; it
    returns needed = true exactly when that list is not empty.  With
    current = {largecap: 75}, target = {largecap: 70, midcap: 30} and
    threshold 5.0 the result is true with one largecap entry (drift 5.0)
    and one midcap entry (current 0.0, drift 30.0). *)
Theorem C7_check_rebalancing_needed
    (current_pct target_pct : dict number) (thr : float) :
  snd (check_rebalancing_needed fmt_1f current_pct target_pct thr) =
    map (fun kv =>
           drift_description fmt_1f (fst kv) (snd kv)
             (dict_get_default current_pct (fst kv) zero_float)
             (drift_of current_pct kv))
        (filter (fun kv => geb (drift_of current_pct kv) thr = true) target_pct) /\
  (fst (check_rebalancing_needed fmt_1f current_pct target_pct thr) = true
   <-> snd (check_rebalancing_needed fmt_1f current_pct target_pct thr)
       <> []) /\
  (forall kv,
      drift_of current_pct kv =
        match dict_get current_pct (fst kv) with
        | Some c => abs (val c - val (snd kv))%f
        | None => abs (of_int 0 - val (snd kv))%f
        end) /\
  check_rebalancing_needed fmt_1f
    [("largecap"%string, {| val := of_int 75; text := "75" |})]
    [("largecap"%string, {| val := of_int 70; text := "70" |});
     ("midcap"%string, {| val := of_int 30; text := "30" |})] (of_int 5) =
    (true,
     [("largecap: Target 70%, Current 75%, Drift " ++ fmt_1f (of_int 5) ++ "%")%string;
      ("midcap: Target 30%, Current 0.0%, Drift " ++ fmt_1f (of_int 30) ++ "%")%string]).
Proof.
  split; [|split; [|split]].
  - unfold check_rebalancing_needed. cbn [snd]. rewrite dbl_drift_loop.
    reflexivity.
  - unfold check_rebalancing_needed. cbn [fst snd].
    destruct (fold_left _ _ _); cbn; split; congruence.
  - intros kv. unfold drift_of, dict_get_default.
    destruct (dict_get current_pct kv.1); reflexivity.
  - unfold check_rebalancing_needed. rewrite dbl_drift_loop.
    assert (E1 : drift_of [("largecap"%string, {| val := of_int 75; text := "75" |})]
                   ("largecap"%string, {| val := of_int 70; text := "70" |})
                 = of_int 5)
      by (vm_compute; apply Fin_eq; reflexivity).
    assert (E2 : drift_of [("largecap"%string, {| val := of_int 75; text := "75" |})]
                   ("midcap"%string, {| val := of_int 30; text := "30" |})
                 = of_int 30)
      by (vm_compute; apply Fin_eq; reflexivity).
    rewrite !filter_cons, filter_nil. cbv beta. rewrite E1, E2.
    rewrite !decide_True by reflexivity.
    cbn [map app fst snd List.length Nat.ltb Nat.leb]. rewrite E1, E2.
    reflexivity.
Qed.

End DoubleRebalancer.

Module DblTrades.
Import F64 F64Facts Dbl DblFacts.

Lemma dbl_abs_nan (x c : float) : gtb (abs x) c = true -> x <> NaN.
Proof. intros H ->. unfold gtb in H. destruct c as [q|[]|]; discriminate. Qed.

Lemma dbl_trade_body_raises (cur : dict float) (trades : dict float)
    (kv : string * float) (e : exn) :
  (let fund := fst kv in
   let current_val := dict_get_default cur fund (of_int 0) in
   let target_val := snd kv in
   let trade_amount := (target_val - current_val)%f in
   if gtb (abs trade_amount) (of_int 100)
   then
     match round2 trade_amount with
     | Ok rounded => Ok (dict_set trades fund rounded)
     | Raise e => Raise e
     end
   else Ok trades) = Raise e ->
  exists m, e = OverflowError m.
Proof.
  cbv zeta.
  destruct (gtb (abs (snd kv - dict_get_default cur (fst kv) (of_int 0))%f)
              (of_int 100)) eqn:G; [|discriminate].
  apply dbl_abs_nan in G.
  destruct (round2 _) as [v|e'] eqn:R; [discriminate|].
  intros H. inversion H; subst.
  destruct (dbl_round2_raises _ _ R) as [O | [N _]]; [exact O | contradiction].
Qed.

Lemma dbl_M_double :
  is_double (inject_Z (2 ^ 1024 - 2 ^ 971)) = true /\
  is_double (inject_Z (- (2 ^ 1024 - 2 ^ 971))) = true /\
  (inject_Z (2 ^ 1024 - 2 ^ 971) == max_double)%Q.
Proof. split; [|split]; vm_compute; reflexivity. Qed.

Lemma dbl_finite_between (x : float) :
  is_finite x = true ->
  between (inject_Z (- (2 ^ 1024 - 2 ^ 971))) (inject_Z (2 ^ 1024 - 2 ^ 971)) x.
Proof.
  destruct x as [q| |]; cbn; try discriminate.
  intros H. apply Qle_bool_iff in H.
  destruct dbl_M_double as (_ & _ & E).
  exists q. split; [reflexivity|].
  rewrite inject_Z_opp, E. revert H. apply Qabs_case; intros; lra.
Qed.

Lemma dbl_between_finite (x : float) :
  between (inject_Z (- (2 ^ 1024 - 2 ^ 971))) (inject_Z (2 ^ 1024 - 2 ^ 971)) x ->
  is_finite x = true.
Proof.
  intros (q & -> & A & B). cbn. apply Qle_bool_iff.
  destruct dbl_M_double as (_ & _ & E).
  rewrite inject_Z_opp, E in A. rewrite E in B.
  apply Qabs_case; intros; lra.
Qed.

Lemma dbl_finite_roundable (x : float) :
  is_finite x = true -> roundable x = true /\ is_finite (rounded x) = true.
Proof.
  intros H. apply dbl_finite_between in H.
  destruct dbl_M_double as (D1 & D2 & _).
  destruct (dbl_round2_between x _ _ H D2 D1) as [R B].
  split; [exact R | apply dbl_between_finite, B].
Qed.







End DblTrades.

Section DoubleTrades.
Import F64 F64Facts Dbl DblFacts DblTrades.

(** C6. When the holdings total, summed on doubles, is at most 0,
    [calculate_rebalance_trades] raises its own [ValueError] while
    [calculate_current_allocation] returns the empty dictionary; the former
    raises this error in no other case, and for a positive total it
    returns its trades unless a trade is infinite, which is an
    [OverflowError] of [round]. *)
Theorem C6_zero_total_behaviours (current_values target_allocation_pct : dict float) :
  (calculate_rebalance_trades current_values target_allocation_pct
     = Raise (ValueError msg_portfolio_value)
   <-> leb (sum (dict_values current_values)) (of_int 0) = true) /\
  (leb (sum (dict_values current_values)) (of_int 0) = true ->
     calculate_current_allocation current_values = Ok []) /\
  (gtb (sum (dict_values current_values)) (of_int 0) = true ->
     (exists trades,
         calculate_rebalance_trades current_values target_allocation_pct
           = Ok trades) \/
     (exists m,
         calculate_rebalance_trades current_values target_allocation_pct
           = Raise (OverflowError m))).
Proof.
  assert (Hother :
            leb (sum (dict_values current_values)) (of_int 0) = false ->
            (exists trades,
                calculate_rebalance_trades current_values target_allocation_pct
                  = Ok trades) \/
            (exists m,
                calculate_rebalance_trades current_values target_allocation_pct
                  = Raise (OverflowError m))).
  { intros H. unfold calculate_rebalance_trades. rewrite H.
    destruct (for_each _ _ _) as [t|e] eqn:Run.
    - left. exists t. reflexivity.
    - right.
      destruct (dbl_for_each_raises _ _ _ (fun e => exists m, e = OverflowError m)
                  (dbl_trade_body_raises current_values) e Run) as [m ->].
      exists m. reflexivity. }
  split; [|split].
  - split.
    + intros Hr.
      destruct (leb (sum (dict_values current_values)) (of_int 0)) eqn:T;
        [reflexivity|].
      destruct (Hother eq_refl) as [[t Ht] | [m Hm]]; congruence.
    + intros H. unfold calculate_rebalance_trades. rewrite H. reflexivity.
  - intros H. unfold calculate_current_allocation. rewrite H. reflexivity.
  - intros H. apply Hother, gtb_not_leb, H.
Qed.



End DoubleTrades.

(** ** C3: allocation into the store, on doubles *)

Module DblStore.
Import F64 F64Facts Dbl DblFacts DblTrades.

Lemma dbl_bind_run {A B} (m : M A) (k : A -> M B) (h h' : heap) (a : A) :
  m h = (Ok a, h') -> bind m k h = k a h'.
Proof. intros H. unfold bind. rewrite H. reflexivity. Qed.

Lemma dbl_lift_round (x : float) (h : heap) :
  roundable x = true -> lift (round2 x) h = (Ok (rounded x), h).
Proof. intros R. unfold lift. rewrite (dbl_round2_ok x R). reflexivity. Qed.

Lemma dbl_read_run (r : ref) (h : heap) (a : FundAllocation) :
  h !! r = Some a -> read r h = (Ok a, h).
Proof. intros H. unfold read. rewrite H. reflexivity. Qed.


Section DblAllocLoop.
Variable cat : string.
Variable f : Z -> float.

Lemma dbl_alloc_loop (tpl : dict Z) (acc : dict ref) (h : heap) :
  List.NoDup (dict_keys acc ++ dict_keys tpl) ->
  (forall k t, In (k, t) tpl -> roundable (f t) = true) ->
  for_items tpl acc (alloc_body cat f) h =
    (Ok (acc ++ fresh_dict (List.length h) (dict_keys tpl)),
     h ++ map snd (template_rows cat f tpl)).
Proof.
  revert acc h. induction tpl as [|[k t] tpl IH]; intros acc h ND HR.
  - cbn. rewrite !app_nil_r. reflexivity.
  - assert (Hk : ~ In k (dict_keys acc)).
    { intros HI. apply NoDup_remove_2 in ND. apply ND.
      apply in_or_app. left. exact HI. }
    cbn [for_items].
    rewrite (dbl_bind_run _ _ h
               (h ++ [row cat (subcategory_of k) (rounded (f t))])
               (dict_set acc k (List.length h))).
    2:{ unfold alloc_body.
        rewrite (dbl_bind_run _ _ h h (rounded (f t)))
          by (apply dbl_lift_round, (HR k t); left; reflexivity).
        reflexivity. }
    rewrite dict_set_fresh by exact Hk.
    rewrite IH.
    + rewrite length_app. cbn [List.length].
      rewrite Nat.add_1_r, <- !app_assoc. reflexivity.
    + rewrite dict_keys_app, <- app_assoc. exact ND.
    + intros k' t' HI. apply (HR k' t'). right. exact HI.
Qed.

End DblAllocLoop.

Lemma dbl_template_rows_keys cat f tpl :
  dict_keys (template_rows cat f tpl) = dict_keys tpl.
Proof.
  unfold dict_keys, template_rows. rewrite map_map. reflexivity.
Qed.

Lemma dbl_alloc_one (cat sub : string) (x : float) (k : string)
    (h : heap) (rows : dict FundAllocation) :
  ~ In k (dict_keys rows) ->
  roundable x = true ->
  bind (lift (round2 x))
    (fun pct =>
       bind (new_FundAllocation cat sub pct)
         (fun r => ret (dict_set (fresh_dict (List.length h) (dict_keys rows)) k r)))
    (h ++ map snd rows) =
  (Ok (fresh_dict (List.length h)
         (dict_keys (rows ++ [(k, row cat sub (rounded x))]))),
   h ++ map snd (rows ++ [(k, row cat sub (rounded x))])).
Proof.
  intros Hk R.
  rewrite (dbl_bind_run _ _ _ _ _ (dbl_lift_round x _ R)).
  unfold bind, new_FundAllocation, ret.
  rewrite dict_set_fresh by (rewrite fresh_dict_keys; exact Hk).
  rewrite dict_keys_app, fresh_dict_app, map_app, <- app_assoc.
  rewrite !length_app, !length_map. unfold dict_keys. rewrite length_map.
  reflexivity.
Qed.

(** *** The percentages of the engine stay within [0,100] *)

Lemma dbl_sector_pct_between (sec : float) : between 0 15 (sector_pct_of sec).
Proof. apply (clamp_between 0 15 sec). lia. Qed.


Lemma dbl_international_between (ai : bool) :
  between 0 10 (if ai then of_int 10 else of_int 0).
Proof.
  destruct ai.
  - apply (between_weaken 10 10); [apply (between_of_int 10) | lra | lra].
  - apply (between_weaken 0 0); [apply (between_of_int 0) | lra | lra].
Qed.

Lemma dbl_base_pct_between (ai : bool) (sec : float) :
  between 75 100 (base_pct_of ai sec).
Proof.
  unfold base_pct_of.
  apply (sub_between _ _ 90 100 0 15).
  - apply (sub_between _ _ 100 100 0 10).
    + apply (between_of_int 100).
    + apply dbl_international_between.
    + reflexivity.
    + reflexivity.
    + lra.
    + lra.
  - apply dbl_sector_pct_between.
  - reflexivity.
  - reflexivity.
  - lra.
  - lra.
Qed.

Lemma dbl_share_between (t : Z) :
  0 <= t <= 100 -> between 0 1 (of_int t / of_int 100)%f.
Proof.
  intros Ht. unfold of_int at 2.
  apply (div_between _ _ (inject_Z t) (inject_Z t)).
  - apply between_of_int.
  - reflexivity.
  - reflexivity.
  - reflexivity.
  - rewrite NumFacts.this_of_Z. rewrite Qmult_0_l, <- (Zle_Qle 0). lia.
  - rewrite NumFacts.this_of_Z, Qmult_1_l, <- Zle_Qle. lia.
Qed.

Lemma dbl_percent_of_between (x y : float) (b : Q) :
  between 0 100 x -> between 0 b y -> (b <= 100)%Q ->
  between 0 100 (x * y / of_int 100)%f.
Proof.
  intros Hx Hy Hb. unfold of_int.
  apply (div_between _ _ 0 10000).
  - apply (mul_between_nonneg _ _ 100 b); [exact Hx | exact Hy | reflexivity|].
    assert (U : (0 <= 100 * (100 - b))%Q) by (apply Qmult_le_0_compat; lra).
    lra.
  - reflexivity.
  - reflexivity.
  - reflexivity.
  - lra.
  - rewrite NumFacts.this_of_Z. unfold inject_Z. lra.
Qed.

Lemma dbl_template_pct_between (E base : float) (t : Z) :
  between 0 100 E -> between 0 100 base -> 0 <= t <= 100 ->
  between 0 100 (template_pct_of E base t).
Proof.
  intros HE Hb Ht. unfold template_pct_of.
  apply (mul_between_nonneg _ _ 1 100).
  - apply dbl_share_between, Ht.
  - apply (dbl_percent_of_between E base 100); [exact HE | exact Hb | lra].
  - reflexivity.
  - lra.
Qed.

Lemma dbl_percent_roundable (x : float) :
  between 0 100 x -> roundable x = true /\ between 0 100 (rounded x).
Proof.
  intros H. apply (dbl_round2_between x 0 100); [exact H | reflexivity | reflexivity].
Qed.

(** *** Products that do not overflow *)

Lemma dbl_rval_abs (x : Q) : (Qabs (rval x) == rval (Qabs x))%Q.
Proof.
  destruct (Qlt_le_dec x 0) as [N|P].
  - assert (A : (Qabs x == - x)%Q) by (apply Qabs_neg; lra).
    rewrite (rval_comp _ _ A), rval_opp. apply Qabs_neg, rval_nonpos. lra.
  - assert (A : (Qabs x == x)%Q) by (apply Qabs_pos; exact P).
    rewrite (rval_comp _ _ A). apply Qabs_pos, rval_nonneg, P.
Qed.

(** Rounding a number of smaller magnitude cannot overflow. *)
Lemma dbl_rn_finite_mono (x y : Q) :
  (Qabs x <= Qabs y)%Q -> is_finite (rn y) = true -> is_finite (rn x) = true.
Proof.
  intros H. unfold rn. cbv zeta.
  destruct (Qle_bool (p2 1024) (Qabs (rval y))) eqn:Oy; [discriminate|].
  cbn [is_finite]. intros Fy. apply Qle_bool_iff in Fy.
  rewrite NumFacts.this_Q2Qc in Fy.
  assert (A : (Qabs (rval x) <= Qabs (rval y))%Q).
  { rewrite !dbl_rval_abs. apply rval_mono, H. }
  pose proof (p2_pos 971) as P. unfold max_double in *.
  destruct (Qle_bool (p2 1024) (Qabs (rval x))) eqn:Ox.
  - apply Qle_bool_iff in Ox. exfalso.
    generalize dependent (p2 1024). generalize dependent (p2 971).
    generalize dependent (Qabs (rval x)). generalize dependent (Qabs (rval y)).
    intros. lra.
  - cbn [is_finite]. apply Qle_bool_iff. rewrite NumFacts.this_Q2Qc.
    apply (Qle_trans _ _ _ A Fy).
Qed.

(** If a hundred times [E] is finite, so is [E] times any percentage. *)
Lemma dbl_scaled_finite (E y : float) :
  is_finite (E * of_int 100)%f = true -> between 0 100 y ->
  is_finite (E * y)%f = true.
Proof.
  intros F (q & -> & A & B).
  destruct E as [e|s|]; [|discriminate F|discriminate F].
  cbn [mul of_int] in *. revert F. apply dbl_rn_finite_mono.
  rewrite !Qabs_Qmult, NumFacts.this_of_Z.
  assert (Q1 : (Qabs q == q)%Q) by (apply Qabs_pos, A).
  assert (Q2 : (Qabs (inject_Z 100) == 100)%Q) by reflexivity.
  rewrite Q1, Q2.
  assert (U : (0 <= Qabs e * (100 - q))%Q)
    by (apply Qmult_le_0_compat; [apply Qabs_nonneg | lra]).
  lra.
Qed.

Lemma dbl_div_100_finite (x : float) :
  is_finite x = true -> is_finite (x / of_int 100)%f = true.
Proof.
  intros F. apply dbl_finite_between in F. destruct F as (q & -> & A & B).
  destruct dbl_M_double as (D1 & D2 & _).
  apply dbl_between_finite. unfold of_int. cbn [div].
  rewrite inject_Z_opp in *.
  assert (M0 : (0 <= inject_Z (2 ^ 1024 - 2 ^ 971))%Q) by (rewrite <- (Zle_Qle 0); lia).
  assert (E : (q / qz 100 == q * (1 # 100))%Q).
  { unfold Qdiv. apply Qmult_comp; [reflexivity|]. reflexivity. }
  apply rn_between; [rewrite <- inject_Z_opp; exact D2 | exact D1 | |];
    rewrite E; lra.
Qed.

Lemma dbl_share_finite (s x : float) :
  between 0 1 s -> is_finite x = true -> is_finite (s * x)%f = true.
Proof.
  intros Hs F. destruct dbl_M_double as (D1 & D2 & _).
  apply dbl_between_finite. apply dbl_finite_between in F.
  rewrite inject_Z_opp in *.
  apply mul_share_between; [exact Hs | exact F | exact D2 | exact D1].
Qed.

(** The three kinds of row of [allocate_equity] can be rounded. *)
Lemma dbl_percent_of_roundable (E y : float) :
  is_finite (E * of_int 100)%f = true -> between 0 100 y ->
  roundable (E * y / of_int 100)%f = true.
Proof.
  intros F Hy.
  apply dbl_finite_roundable, dbl_div_100_finite, dbl_scaled_finite; assumption.
Qed.

Lemma dbl_hundredfold_finite (E : float) :
  between 0 100 E -> is_finite (E * of_int 100)%f = true.
Proof.
  intros HE. destruct dbl_M_double as (D1 & D2 & _).
  apply dbl_between_finite.
  apply (between_weaken 0 10000).
  - apply (mul_between_nonneg _ _ 100 100);
      [exact HE | | reflexivity | lra].
    apply (between_weaken 100 100); [apply (between_of_int 100) | lra | lra].
  - rewrite <- (Zle_Qle _ 0). lia.
  - rewrite <- (Zle_Qle 10000). lia.
Qed.

Lemma dbl_template_pct_roundable (E base : float) (t : Z) :
  is_finite (E * of_int 100)%f = true -> between 0 100 base -> 0 <= t <= 100 ->
  roundable (template_pct_of E base t) = true.
Proof.
  intros F Hb Ht. unfold template_pct_of.
  apply dbl_finite_roundable, dbl_share_finite.
  - apply dbl_share_between, Ht.
  - apply dbl_div_100_finite, dbl_scaled_finite; assumption.
Qed.

Lemma dbl_template_entries (s : EquityStrategy) :
  exists tpl,
    dict_get equity_templates (equity_strategy_name s) = Some tpl /\
    List.NoDup (dict_keys tpl) /\
    ~ In "international"%string (dict_keys tpl) /\
    ~ In "sector"%string (dict_keys tpl) /\
    ~ In "FD"%string (dict_keys tpl) /\
    (forall k t, In (k, t) tpl -> 0 <= t <= 100) /\
    (1 <= List.length tpl <= 3)%nat.
Proof.
  destruct (equity_template_total s) as (tpl & Htpl & ND & Hi & Hs & Hf).
  exists tpl. repeat (split; [assumption|]).
  destruct s; cbn in Htpl; injection Htpl as <-; (split; [|cbn; lia]);
    intros k t HI; cbn in HI;
    repeat (destruct HI as [HI|HI]; [inversion HI; lia|]); destruct HI.
Qed.

Lemma dbl_allocate_equity_run (E : float) (s : EquityStrategy) (ai : bool)
    (sec : float) (h : heap) (tpl : dict Z) :
  is_finite (E * of_int 100)%f = true ->
  dict_get equity_templates (equity_strategy_name s) = Some tpl ->
  allocate_equity E s ai sec h =
    (Ok (fresh_dict (List.length h) (dict_keys (equity_rows E tpl ai sec))),
     h ++ map snd (equity_rows E tpl ai sec)).
Proof.
  intros HE Htpl.
  destruct (dbl_template_entries s) as (tpl' & Htpl' & ND & Hi & Hs & _ & Ht & _).
  rewrite Htpl in Htpl'. injection Htpl' as <-.
  pose proof (dbl_sector_pct_between sec) as Hsp.
  pose proof (dbl_base_pct_between ai sec) as Hbase.
  pose proof (dbl_international_between ai) as Hip.
  unfold allocate_equity, equity_rows. cbv zeta.
  fold (sector_pct_of sec). fold (base_pct_of ai sec).
  set (ip := if ai then of_int 10 else of_int 0) in *.
  set (sp := sector_pct_of sec) in *.
  set (base := base_pct_of ai sec) in *.
  set (f := template_pct_of E base).
  set (R := template_rows "Equity" f tpl).
  unfold bind at 1. unfold lift at 1, subscript. rewrite Htpl.
  unfold bind at 1.
  change (for_items tpl [] _ h) with (for_items tpl [] (alloc_body "Equity" f) h).
  rewrite dbl_alloc_loop.
  2:{ exact ND. }
  2:{ intros k t HI. apply dbl_template_pct_roundable;
        [exact HE | apply (between_weaken 75 100); [exact Hbase | lra | lra]
        | apply (Ht k t HI)]. }
  cbn [app]. fold R.
  rewrite <- (dbl_template_rows_keys "Equity" f tpl). fold R.
  assert (HiR : ~ In "international"%string (dict_keys R))
    by (subst R; rewrite dbl_template_rows_keys; exact Hi).
  assert (HsR : ~ In "sector"%string (dict_keys R))
    by (subst R; rewrite dbl_template_rows_keys; exact Hs).
  assert (Ri : roundable (E * ip / of_int 100)%f = true).
  { apply dbl_percent_of_roundable; [exact HE|].
    apply (between_weaken 0 10); [exact Hip | lra | lra]. }
  assert (Rs : roundable (E * sp / of_int 100)%f = true).
  { apply dbl_percent_of_roundable; [exact HE|].
    apply (between_weaken 0 15); [exact Hsp | lra | lra]. }
  destruct ai; cbn [pick_row].
  - unfold bind at 1. rewrite (dbl_alloc_one _ _ _ _ _ _ HiR Ri).
    destruct (gtb sp (of_int 0)); cbn [pick_row].
    + unfold bind at 1. rewrite dbl_alloc_one; [| |exact Rs].
      * rewrite <- app_assoc. reflexivity.
      * rewrite dict_keys_app. intros HI. apply in_app_or in HI.
        destruct HI as [HI|[HI|[]]]; [exact (HsR HI) | discriminate HI].
    + reflexivity.
  - unfold bind at 1. unfold ret at 1.
    destruct (gtb sp (of_int 0)); cbn [pick_row].
    + unfold bind at 1. rewrite (dbl_alloc_one _ _ _ _ _ _ HsR Rs). reflexivity.
    + rewrite app_nil_r. reflexivity.
Qed.

Lemma dbl_allocate_debt_long_term (D : float) (h : heap) :
  between 0 100 D ->
  allocate_debt D long_term h =
    (Ok (fresh_dict (List.length h) ["FD"%string]),
     h ++ map snd (debt_rows D [("FD"%string, 100)])).
Proof.
  intros HD. unfold allocate_debt.
  unfold bind at 1. unfold lift at 1, subscript. cbn [goal_timeframe_name].
  change (dict_get debt_templates "long_term") with (Some [("FD"%string, 100)]).
  cbv iota beta.
  set (f := fun t : Z => ((of_int t / of_int 100) * D)%f).
  change (for_items [("FD"%string, 100)] [] _ h)
    with (for_items [("FD"%string, 100)] [] (alloc_body "Debt" f) h).
  rewrite dbl_alloc_loop.
  - reflexivity.
  - cbn. repeat constructor. intros [].
  - intros k t [HI|[]]. inversion HI; subst. apply dbl_percent_roundable.
    subst f. cbv beta. apply (mul_between_nonneg _ _ 1 100).
    + apply dbl_share_between. lia.
    + exact HD.
    + reflexivity.
    + lra.
Qed.

Lemma dbl_allocate_debt_other (D : float) (t : GoalTimeframe) (h : heap) :
  t <> long_term ->
  allocate_debt D t h = (Raise (KeyError (goal_timeframe_name t)), h).
Proof. destruct t; [reflexivity | reflexivity | congruence]. Qed.

(** *** Reading fresh dictionaries back from the store *)

Lemma dbl_lookup_after (h pre rest : heap) (a : FundAllocation) :
  (h ++ pre ++ a :: rest) !! (List.length h + List.length pre)%nat = Some a.
Proof.
  rewrite app_assoc.
  rewrite lookup_app_r by (rewrite length_app; lia).
  rewrite length_app.
  replace (_ + _ - _)%nat with 0%nat by lia. reflexivity.
Qed.




End DblStore.

Section DoubleAllocation.
Import F64 F64Facts Dbl DblFacts DblStore.



End DoubleAllocation.

(** ** C9: amounts and the whole plan, on doubles *)

Module DblPlan.
Import F64 F64Facts Dbl DblFacts DblTrades DblStore.

Lemma dbl_row_in_range (a : FundAllocation) :
  leb (of_int 0) (percentage a) && leb (percentage a) (of_int 100) = true ->
  between 0 100 (percentage a).
Proof.
  intros H. apply andb_true_iff in H as [H1 H2].
  exact (between_leb 0 100 _ H1 H2).
Qed.


Lemma dbl_rows_in_range_In (h : heap) (d : dict ref) (k : string) (r : ref) :
  rows_in_range h d = true -> In (k, r) d ->
  exists a, h !! r = Some a /\ between 0 100 (percentage a).
Proof.
  unfold rows_in_range. rewrite forallb_forall. intros H HI.
  specialize (H _ HI). cbn [snd] in H.
  destruct (h !! r) as [a|]; [|discriminate].
  exists a. split; [reflexivity | apply dbl_row_in_range, H].
Qed.





Lemma dbl_shift_finite (x y : float) :
  between 0 100 x -> is_finite y = true ->
  is_finite (x - y)%f = true /\ is_finite (x + y)%f = true.
Proof.
  intros (q1 & -> & A1 & B1) Hy.
  apply dbl_finite_between in Hy. destruct Hy as (q2 & -> & A2 & B2).
  destruct dbl_M_double as (D1 & D2 & _).
  destruct (is_double_spec _ D1) as (E1 & L1 & U1).
  destruct (is_double_spec _ D2) as (E2 & L2 & U2).
  assert (Eu : (rval (inject_Z (2 ^ 1024 - 2 ^ 971) + 100)
                == inject_Z (2 ^ 1024 - 2 ^ 971))%Q) by (vm_compute; reflexivity).
  assert (El : (rval (inject_Z (- (2 ^ 1024 - 2 ^ 971)) - 100)
                == inject_Z (- (2 ^ 1024 - 2 ^ 971)))%Q) by (vm_compute; reflexivity).
  split; apply dbl_between_finite.
  - unfold sub. cbn [opp add].
    eapply rn_between'; [ | | exact El | exact Eu | exact L2 | exact U1].
    + rewrite NumFacts.this_opp. rewrite inject_Z_opp in *. lra.
    + rewrite NumFacts.this_opp. rewrite inject_Z_opp in *. lra.
  - cbn [add].
    eapply rn_between'; [ | | exact El | exact Eu | exact L2 | exact U1].
    + rewrite inject_Z_opp in *. lra.
    + rewrite inject_Z_opp in *. lra.
Qed.

Lemma dbl_band_roundable (dt : float) (a : FundAllocation) :
  is_finite dt = true -> between 0 100 (percentage a) ->
  roundable (lower_of dt a) = true /\ roundable (upper_of dt a) = true.
Proof.
  intros Hdt Ha. destruct (dbl_shift_finite _ _ Ha Hdt) as [F1 F2].
  unfold lower_of, upper_of, max, min. split.
  - destruct (gtb _ _); [apply dbl_finite_roundable, F1 | reflexivity].
  - destruct (ltb _ _); [apply dbl_finite_roundable, F2 | reflexivity].
Qed.

Lemma dbl_triggers_loop_explicit (dt : float) (d : dict ref)
    (acc : dict (float * float)) (h : heap) :
  is_finite dt = true ->
  rows_in_range h d = true ->
  for_items d acc (trig_body dt) h =
    (Ok (fold_left (fun t kv => dict_set t (fst kv) (band_at dt h (snd kv))) d acc),
     h).
Proof.
  intros Hdt. revert acc. induction d as [|[k r0] d IH]; intros acc Hb; [reflexivity|].
  pose proof (dbl_rows_in_range_In h _ k r0 Hb (or_introl eq_refl))
    as (a & Ha & Hpct).
  cbn [rows_in_range forallb] in Hb. apply andb_true_iff in Hb as [_ Hb].
  fold (rows_in_range h d) in Hb.
  destruct (dbl_band_roundable dt a Hdt Hpct) as [R1 R2].
  assert (Hbody : trig_body dt acc k r0 h =
                    (Ok (dict_set acc k (band_of dt a)), h)).
  { unfold trig_body.
    rewrite (dbl_bind_run _ _ h h a (dbl_read_run _ _ _ Ha)).
    cbv zeta. fold (lower_of dt a). fold (upper_of dt a).
    rewrite (dbl_bind_run _ _ h h _ (dbl_lift_round _ h R1)).
    rewrite (dbl_bind_run _ _ h h _ (dbl_lift_round _ h R2)).
    reflexivity. }
  cbn [for_items fold_left fst snd]. rewrite (dbl_bind_run _ _ _ _ _ Hbody).
  rewrite (IH _ Hb).
  replace (band_at dt h r0) with (band_of dt a)
    by (unfold band_at; rewrite Ha; reflexivity).
  reflexivity.
Qed.






(** *** The split *)




(** *** The rows of a plan *)

Lemma dbl_equity_rows_keys (E : float) (tpl : dict Z) (ai : bool) (sec : float) :
  dict_keys (equity_rows E tpl ai sec) = equity_keys tpl ai sec.
Proof.
  unfold equity_rows, equity_keys. cbv zeta.
  rewrite !dict_keys_app, dbl_template_rows_keys.
  destruct ai; destruct (gtb _ _); reflexivity.
Qed.


Lemma dbl_template_rows_range (cat : string) (f : Z -> float) (tpl : dict Z) :
  (forall k t, In (k, t) tpl -> between 0 100 (f t)) ->
  Forall (fun kr => between 0 100 (percentage (snd kr))) (template_rows cat f tpl).
Proof.
  intros H. unfold template_rows. apply List.Forall_forall. intros [k a] HI.
  apply in_map_iff in HI. destruct HI as ([k' t] & E & HI).
  cbn [fst snd] in E. injection E as _ <-.
  cbn [snd fst percentage row].
  apply dbl_percent_roundable, (H k' t HI).
Qed.

Lemma dbl_equity_rows_range (E : float) (s : EquityStrategy) (tpl : dict Z)
    (ai : bool) (sec : float) :
  between 0 100 E ->
  dict_get equity_templates (equity_strategy_name s) = Some tpl ->
  Forall (fun kr => between 0 100 (percentage (snd kr))) (equity_rows E tpl ai sec).
Proof.
  intros HE Htpl.
  destruct (dbl_template_entries s) as (tpl' & Htpl' & _ & _ & _ & _ & Ht & _).
  rewrite Htpl in Htpl'. injection Htpl' as <-.
  pose proof (dbl_sector_pct_between sec) as Hsp.
  pose proof (dbl_base_pct_between ai sec) as Hbase.
  pose proof (dbl_international_between ai) as Hip.
  unfold equity_rows. cbv zeta.
  apply Forall_app. split; [|apply Forall_app; split].
  - apply dbl_template_rows_range. intros k t HI.
    apply dbl_template_pct_between;
      [exact HE | apply (between_weaken 75 100); [exact Hbase | lra | lra]
      | apply (Ht k t HI)].
  - destruct ai; cbn [pick_row]; [|constructor].
    constructor; [|constructor]. cbn [snd percentage row].
    apply dbl_percent_roundable.
    apply (dbl_percent_of_between E _ 10); [exact HE | exact Hip | lra].
  - destruct (gtb _ _); cbn [pick_row]; [|constructor].
    constructor; [|constructor]. cbn [snd percentage row].
    apply dbl_percent_roundable.
    apply (dbl_percent_of_between E _ 15); [exact HE | exact Hsp | lra].
Qed.

Lemma dbl_debt_rows_range (D : float) :
  between 0 100 D ->
  Forall (fun kr => between 0 100 (percentage (snd kr)))
    (debt_rows D [("FD"%string, 100)]).
Proof.
  intros HD. unfold debt_rows. apply dbl_template_rows_range.
  intros k t [HI|[]]. inversion HI; subst.
  apply (mul_between_nonneg _ _ 1 100).
  - apply dbl_share_between. lia.
  - exact HD.
  - reflexivity.
  - lra.
Qed.

Lemma dbl_fresh_dict_lookup (h pre : heap) (R : dict FundAllocation)
    (k : string) (r : ref) :
  In (k, r) (fresh_dict (List.length h + List.length pre) (dict_keys R)) ->
  exists a, (h ++ pre ++ map snd R) !! r = Some a /\ In a (map snd R).
Proof.
  revert pre. induction R as [|[k0 a0] R IH]; intros pre HI; [destruct HI|].
  cbn [dict_keys map fst snd] in *. rewrite fresh_dict_cons in HI.
  destruct HI as [HI|HI].
  - inversion HI; subst. exists a0. split; [apply dbl_lookup_after | left; reflexivity].
  - specialize (IH (pre ++ [a0])).
    rewrite length_app, <- app_assoc in IH. cbn [List.length app] in IH.
    rewrite Nat.add_1_r, Nat.add_succ_r in IH.
    destruct (IH HI) as (a & Ha & Hin). exists a. split; [exact Ha | right; exact Hin].
Qed.

Lemma dbl_rows_in_range_fresh (h : heap) (R : dict FundAllocation) :
  Forall (fun kr => between 0 100 (percentage (snd kr))) R ->
  rows_in_range (h ++ map snd R) (fresh_dict (List.length h) (dict_keys R)) = true.
Proof.
  intros HR. unfold rows_in_range. apply forallb_forall. intros [k r] HI.
  cbn [snd].
  pose proof (dbl_fresh_dict_lookup h [] R k r) as L.
  cbn [app List.length] in L. rewrite Nat.add_0_r in L.
  destruct (L HI) as (a & Ha & Hin). unfold heap in *. rewrite Ha.
  apply in_map_iff in Hin. destruct Hin as ([k' a'] & E & Hin). cbn [snd] in E. subst a'.
  rewrite List.Forall_forall in HR. specialize (HR _ Hin). cbn [snd] in HR.
  destruct (leb_between 0 100 _ HR) as [-> ->]. reflexivity.
Qed.

(** *** Running [create_plan] on a valid profile *)








End DblPlan.

Section DoubleAmounts.
Import F64 F64Facts Dbl DblFacts DblTrades DblStore DblPlan.



End DoubleAmounts.

(** ** More of the engine on doubles *)

Module DblMore.
Import F64 F64Facts Dbl DblFacts DblTrades DblStore DblPlan.

Lemma dbl_max_zero_between (x : float) :
  is_finite x = true ->
  between (inject_Z 0) (inject_Z (2 ^ 1024 - 2 ^ 971)) (max (of_int 0) x).
Proof.
  intros F. apply dbl_finite_between in F. destruct F as (q & -> & A & B).
  unfold max, gtb. cbn [ltb of_int].
  destruct (Num.ltb (qz 0) q) eqn:G.
  - apply NumFacts.ltb_lt in G. unfold Qclt in G. rewrite NumFacts.this_of_Z in G.
    exists q. split; [reflexivity|]. split; [unfold inject_Z in *; lra | exact B].
  - exists (qz 0). split; [reflexivity|]. rewrite NumFacts.this_of_Z.
    split; [lra|]. rewrite <- Zle_Qle. lia.
Qed.

Lemma dbl_min_100_between (x : float) :
  is_finite x = true ->
  between (inject_Z (- (2 ^ 1024 - 2 ^ 971))) (inject_Z 100) (min (of_int 100) x).
Proof.
  intros F. apply dbl_finite_between in F. destruct F as (q & -> & A & B).
  unfold min. cbn [ltb of_int].
  destruct (Num.ltb q (qz 100)) eqn:G.
  - apply NumFacts.ltb_lt in G. unfold Qclt in G. rewrite NumFacts.this_of_Z in G.
    exists q. split; [reflexivity|]. split; [exact A | lra].
  - exists (qz 100). split; [reflexivity|]. rewrite NumFacts.this_of_Z.
    split; [|lra]. rewrite <- Zle_Qle. lia.
Qed.

Lemma dbl_band_bounds (dt : float) (a : FundAllocation) :
  is_finite dt = true -> between 0 100 (percentage a) ->
  leb (of_int 0) (fst (band_of dt a)) = true /\
  leb (snd (band_of dt a)) (of_int 100) = true.
Proof.
  intros Hdt Ha. destruct (dbl_shift_finite _ _ Ha Hdt) as [F1 F2].
  destruct dbl_M_double as (D1 & D2 & _).
  unfold band_of. cbn [fst snd]. split.
  - pose proof (dbl_max_zero_between _ F1) as B.
    destruct (dbl_round2_between _ _ _ B eq_refl D1) as [_ R].
    apply (leb_between _ _ _ R).
  - pose proof (dbl_min_100_between _ F2) as B.
    destruct (dbl_round2_between _ _ _ B D2 eq_refl) as [_ R].
    apply (leb_between _ _ _ R).
Qed.

Lemma dbl_triggers_run (dt : float) (d : dict ref) (h : heap) :
  is_finite dt = true ->
  rows_in_range h d = true ->
  List.NoDup (dict_keys d) ->
  set_rebalancing_triggers d dt h = (Ok (triggers_of dt h d), h).
Proof.
  intros Hdt Hb ND.
  change (set_rebalancing_triggers d dt) with (for_items d [] (trig_body dt)).
  rewrite (dbl_triggers_loop_explicit dt d [] h Hdt Hb). f_equal. f_equal.
  apply (fold_dict_set_fresh (band_at dt h) d []). exact ND.
Qed.

Lemma dbl_triggers_lookup (dt : float) (h : heap) (d : dict ref) (k : string)
    (r : ref) (a : FundAllocation) :
  List.NoDup (dict_keys d) -> In (k, r) d -> h !! r = Some a ->
  dict_get (triggers_of dt h d) k = Some (band_of dt a).
Proof.
  intros ND HI Ha. unfold triggers_of.
  rewrite (dict_get_map (band_at dt h) d k).
  rewrite (dict_get_In d k r ND HI). cbn [option_map].
  unfold band_at. rewrite Ha. reflexivity.
Qed.

Lemma dbl_leb_not_gtb (x y : float) : leb x y = true -> gtb x y = false.
Proof.
  intros L. destruct (gtb x y) eqn:G; [|reflexivity].
  apply gtb_not_leb in G. congruence.
Qed.

Lemma dbl_positive_not_zero (x : float) :
  gtb x (of_int 0) = true -> is_zero x = false.
Proof.
  destruct x as [q|[]|]; try reflexivity. unfold gtb. cbn [ltb of_int is_zero].
  intros H. apply NumFacts.ltb_lt in H. unfold Qclt in H.
  rewrite NumFacts.this_of_Z in H. apply Z.eqb_neq. intros E.
  unfold Qlt in H. cbn in H. lia.
Qed.

Lemma dbl_fold_keep {X A} (l : list X) (acc : A) :
  fold_left (fun a _ => a) l acc = acc.
Proof. induction l as [|x l IH]; [reflexivity | exact IH]. Qed.

End DblMore.

Section DoubleExtras.
Import F64 F64Facts Dbl DblFacts DblTrades DblStore DblPlan DblMore.

(** X8. No row is negative and no row exceeds 100: for an equity
    percentage in [0,100], every row that [allocate_equity] creates exists
    in the store with a percentage between 0 and 100, and the same holds
    for the row of [allocate_debt]. *)
Theorem allocation_rows_within_bounds
    (E D : float) (s : EquityStrategy) (ai : bool) (sec : float) (h : heap)
    (HE0 : leb (of_int 0) E = true) (HE100 : leb E (of_int 100) = true)
    (HD0 : leb (of_int 0) D = true) (HD100 : leb D (of_int 100) = true) :
  (exists (d : dict ref) (h' : heap),
      allocate_equity E s ai sec h = (Ok d, h') /\
      d <> [] /\
      rows_in_range h' d = true) /\
  (exists (d : dict ref) (h' : heap),
      allocate_debt D long_term h = (Ok d, h') /\
      d <> [] /\
      rows_in_range h' d = true).
Proof.
  pose proof (between_leb 0 100 E HE0 HE100) as BE.
  pose proof (between_leb 0 100 D HD0 HD100) as BD.
  split.
  - destruct (dbl_template_entries s) as (tpl & Htpl & _ & _ & _ & _ & _ & Hn).
    exists (fresh_dict (List.length h) (dict_keys (equity_rows E tpl ai sec))),
      (h ++ map snd (equity_rows E tpl ai sec)).
    split; [apply dbl_allocate_equity_run;
            [apply dbl_hundredfold_finite, BE | exact Htpl]|]. split.
    + rewrite dbl_equity_rows_keys. unfold equity_keys.
      destruct tpl as [|[k t] tpl]; [cbn in Hn; lia|]. discriminate.
    + apply dbl_rows_in_range_fresh, (dbl_equity_rows_range E s tpl ai sec BE Htpl).
  - rewrite (dbl_allocate_debt_long_term D h BD). eexists _, _.
    split; [reflexivity|]. split; [discriminate|].
    change ["FD"%string] with (dict_keys (debt_rows D [("FD"%string, 100)])).
    apply dbl_rows_in_range_fresh, dbl_debt_rows_range, BD.
Qed.

Lemma allocation_rows_within_bounds_witness :
  leb (of_int 0) (of_int 70) = true /\ leb (of_int 70) (of_int 100) = true /\
  leb (of_int 0) (of_int 30) = true /\ leb (of_int 30) (of_int 100) = true /\
  (exists (d : dict ref) (h' : heap),
      allocate_equity (of_int 70) balanced_growth true (of_int 5) [] = (Ok d, h') /\
      d <> [] /\
      rows_in_range h' d = true) /\
  (exists (d : dict ref) (h' : heap),
      allocate_debt (of_int 30) long_term [] = (Ok d, h') /\
      d <> [] /\
      rows_in_range h' d = true).
Proof.
  assert (H1 : leb (of_int 0) (of_int 70) = true) by reflexivity.
  assert (H2 : leb (of_int 70) (of_int 100) = true) by reflexivity.
  assert (H3 : leb (of_int 0) (of_int 30) = true) by reflexivity.
  assert (H4 : leb (of_int 30) (of_int 100) = true) by reflexivity.
  repeat (split; [assumption|]).
  exact (allocation_rows_within_bounds (of_int 70) (of_int 30) balanced_growth true
           (of_int 5) [] H1 H2 H3 H4).
Defined.



(** X12. [set_rebalancing_triggers] only reads the store.  On a store in
    which every row of [d] exists with a percentage in [0,100], and for a
    finite threshold, it returns one band per key of [d] and leaves the
    store unchanged; the band of a row is
    (round(max(0, percentage - threshold), 2),
     round(min(100, percentage + threshold), 2)) in double arithmetic; the
    lower bound is never negative and the upper bound never above 100. *)
Theorem set_rebalancing_triggers_bands
    (d : dict ref) (dt : float) (h : heap)
    (Hrows : rows_in_range h d = true)
    (Hdt : is_finite dt = true)
    (Hkeys : distinct (dict_keys d) = true) :
  exists t : dict (float * float),
    set_rebalancing_triggers d dt h = (Ok t, h) /\
    dict_keys t = dict_keys d /\
    forall k r a,
      In (k, r) d -> h !! r = Some a ->
      exists lo hi : float,
        dict_get t k = Some (lo, hi) /\
        round2 (max (of_int 0) (percentage a - dt)%f) = Ok lo /\
        round2 (min (of_int 100) (percentage a + dt)%f) = Ok hi /\
        leb (of_int 0) lo = true /\ leb hi (of_int 100) = true.
Proof.
  apply distinct_NoDup in Hkeys.
  exists (triggers_of dt h d).
  split; [apply dbl_triggers_run; assumption|].
  split; [unfold triggers_of, dict_keys; rewrite map_map; reflexivity|].
  intros k r a HI Ha.
  destruct (dbl_rows_in_range_In h d k r Hrows HI) as (a' & Ha' & Hpct).
  rewrite Ha in Ha'. injection Ha' as <-.
  destruct (dbl_band_roundable dt a Hdt Hpct) as [R1 R2].
  destruct (dbl_band_bounds dt a Hdt Hpct) as [B0 B100].
  exists (fst (band_of dt a)), (snd (band_of dt a)).
  split; [rewrite (dbl_triggers_lookup dt h d k r a Hkeys HI Ha);
          destruct (band_of dt a); reflexivity|].
  split; [apply dbl_round2_ok, R1|]. split; [apply dbl_round2_ok, R2|].
  split; [exact B0 | exact B100].
Qed.

Lemma set_rebalancing_triggers_bands_witness :
  rows_in_range [row "Equity" "Largecap" (lit 3 100)] [("largecap"%string, 0%nat)]
    = true /\
  is_finite (lit 105 1000) = true /\
  distinct ["largecap"%string] = true /\
  exists t : dict (float * float),
    set_rebalancing_triggers [("largecap"%string, 0%nat)] (lit 105 1000)
      [row "Equity" "Largecap" (lit 3 100)]
    = (Ok t, [row "Equity" "Largecap" (lit 3 100)]).
Proof.
  assert (H1 : rows_in_range [row "Equity" "Largecap" (lit 3 100)]
                 [("largecap"%string, 0%nat)] = true) by (vm_compute; reflexivity).
  assert (H2 : is_finite (lit 105 1000) = true) by (vm_compute; reflexivity).
  assert (H3 : distinct ["largecap"%string] = true) by reflexivity.
  repeat (split; [assumption|]).
  destruct (set_rebalancing_triggers_bands [("largecap"%string, 0%nat)] (lit 105 1000)
              [row "Equity" "Largecap" (lit 3 100)] H1 H2 H3) as (t & Hrun & _).
  exists t. exact Hrun.
Defined.

(** X15. For holdings with distinct categories and a positive total,
    none of whose shares overflows, [calculate_current_allocation] returns
    one entry per holding, in the same order, holding
    round(value / total * 100, 2) in double arithmetic. *)
Theorem current_allocation_shares (current_values : dict float)
    (Hkeys : distinct (dict_keys current_values) = true)
    (Hpos : gtb (sum (dict_values current_values)) (of_int 0) = true)
    (Hfin : shares_finite current_values = true) :
  exists t : dict float,
    calculate_current_allocation current_values = Ok t /\
    dict_keys t = dict_keys current_values /\
    forall k v,
      In (k, v) current_values ->
      exists x,
        round2 (v / sum (dict_values current_values) * of_int 100)%f = Ok x /\
        dict_get t k = Some x.
Proof.
  apply distinct_NoDup in Hkeys.
  set (total := sum (dict_values current_values)) in *.
  set (f := fun v : float => rounded (share_of current_values v)).
  assert (R : forall k v, In (k, v) current_values ->
                roundable (share_of current_values v) = true).
  { intros k v HI. unfold shares_finite in Hfin. rewrite forallb_forall in Hfin.
    apply dbl_finite_roundable, Hfin.
    change v with (snd (k, v)). apply in_map, HI. }
  exists (map (fun kv => (fst kv, f (snd kv))) current_values).
  split; [|split].
  - unfold calculate_current_allocation. fold total.
    rewrite (gtb_not_leb _ _ Hpos).
    rewrite (dbl_for_each_ok current_values []
               _ (fun acc kv => dict_set acc (fst kv) (f (snd kv)))).
    + f_equal. apply (fold_dict_set_fresh f current_values []). exact Hkeys.
    + intros acc [k v] HI. cbn [fst snd]. unfold truediv.
      rewrite (dbl_positive_not_zero _ Hpos).
      change (v / total * of_int 100)%f with (share_of current_values v).
      rewrite (dbl_round2_ok _ (R k v HI)). reflexivity.
  - unfold dict_keys. rewrite map_map. reflexivity.
  - intros k v HI. exists (f v). split.
    + apply dbl_round2_ok, (R k v HI).
    + rewrite (dict_get_map f current_values k).
      rewrite (dict_get_In current_values k v Hkeys HI). reflexivity.
Qed.

Lemma current_allocation_shares_witness :
  distinct (dict_keys [("a"%string, of_int 109); ("b"%string, of_int 691)]) = true /\
  gtb (sum (dict_values [("a"%string, of_int 109); ("b"%string, of_int 691)]))
      (of_int 0) = true /\
  shares_finite [("a"%string, of_int 109); ("b"%string, of_int 691)] = true /\
  exists t : dict float,
    calculate_current_allocation [("a"%string, of_int 109); ("b"%string, of_int 691)]
      = Ok t /\
    dict_keys t = ["a"%string; "b"%string].
Proof.
  assert (H1 : distinct (dict_keys [("a"%string, of_int 109); ("b"%string, of_int 691)])
               = true) by reflexivity.
  assert (H2 : gtb (sum (dict_values [("a"%string, of_int 109);
                                      ("b"%string, of_int 691)]))
                 (of_int 0) = true) by (vm_compute; reflexivity).
  assert (H3 : shares_finite [("a"%string, of_int 109); ("b"%string, of_int 691)]
               = true) by (vm_compute; reflexivity).
  repeat (split; [assumption|]).
  destruct (current_allocation_shares _ H1 H2 H3) as (t & Hrun & Hk & _).
  exists t. split; [exact Hrun | exact Hk].
Defined.

(** X16. No trade is proposed for a portfolio that is close to its
    target: when the total is positive and every category of either
    dictionary has a trade, computed on doubles, of magnitude at most 100,
    the result of [calculate_rebalance_trades] is the empty dictionary. *)
Theorem no_trades_when_close_to_target (cur tgt : dict float)
    (Hpos : gtb (sum (dict_values cur)) (of_int 0) = true)
    (Hsmall : trades_small cur tgt = true) :
  calculate_rebalance_trades cur tgt = Ok [].
Proof.
  unfold calculate_rebalance_trades. rewrite (gtb_not_leb _ _ Hpos).
  set (U := set_union (set_of (dict_keys cur)) (set_of (dict_keys tgt))).
  set (total := sum (dict_values cur)).
  set (g := fun f : string =>
              (dict_get_default tgt f (of_int 0) / of_int 100 * total)%f).
  assert (HU : List.NoDup U) by apply key_union_NoDup.
  cbv zeta.
  match goal with
  | |- context [for_each (fold_left ?G U []) [] ?B] =>
      assert (T1 : fold_left G U [] = map (fun f => (f, g f)) U);
      [ rewrite <- flat_map_singleton;
        exact (fold_cond_set (fun _ => true) g U [] HU)
      | rewrite T1;
        rewrite (dbl_for_each_ok (map (fun f => (f, g f)) U) [] B (fun a _ => a)) ]
  end.
  - rewrite dbl_fold_keep. reflexivity.
  - intros a [f x] HI.
    apply in_map_iff in HI as (f' & E & Hf). inversion E; subst f' x. clear E.
    cbn [fst snd].
    change (g f - dict_get_default cur f (of_int 0))%f with (trade_of cur tgt f).
    unfold trades_small in Hsmall. rewrite forallb_forall in Hsmall.
    specialize (Hsmall f (proj2 (in_app_iff _ _ f) (proj1 (key_union_In _ _ _) Hf))).
    rewrite (dbl_leb_not_gtb _ _ Hsmall). reflexivity.
Qed.

Lemma no_trades_when_close_to_target_witness :
  gtb (sum (dict_values [("largecap"%string, of_int 7050);
                         ("midcap"%string, of_int 2950)])) (of_int 0) = true /\
  trades_small [("largecap"%string, of_int 7050); ("midcap"%string, of_int 2950)]
               [("largecap"%string, of_int 70); ("midcap"%string, of_int 30)] = true /\
  calculate_rebalance_trades
    [("largecap"%string, of_int 7050); ("midcap"%string, of_int 2950)]
    [("largecap"%string, of_int 70); ("midcap"%string, of_int 30)] = Ok [].
Proof.
  assert (H1 : gtb (sum (dict_values [("largecap"%string, of_int 7050);
                                      ("midcap"%string, of_int 2950)]))
                 (of_int 0) = true) by (vm_compute; reflexivity).
  assert (H2 : trades_small
                 [("largecap"%string, of_int 7050); ("midcap"%string, of_int 2950)]
                 [("largecap"%string, of_int 70); ("midcap"%string, of_int 30)] = true)
    by (vm_compute; reflexivity).
  split; [exact H1|]. split; [exact H2|].
  exact (no_trades_when_close_to_target
           [("largecap"%string, of_int 7050); ("midcap"%string, of_int 2950)]
           [("largecap"%string, of_int 70); ("midcap"%string, of_int 30)] H1 H2).
Defined.

End DoubleExtras.

(** ** Worked examples on doubles *)

(** Runs in which the rounding of the double arithmetic shows: each value
    is compared, through its exact value, with the double of a decimal
    literal. *)
Module DblExamples.
Import F64 Dbl.

(** 65% equity, market-weighted, international and a sector request of 5:
    the largecap row is 38.67 (0.7 * 55.25 falls just below 38.675) and the
    smallcap row 5.53 (0.1 * 55.25 falls just above 5.525). *)
Lemma example_equity_rows :
  exists (d : dict ref) (h' : heap),
    allocate_equity (of_int 65) market_weighted true (of_int 5) [] = (Ok d, h') /\
    option_map (fun a => value (percentage a)) (row_at h' d "largecap")
      = Some (value (lit 3867 100)) /\
    option_map (fun a => value (percentage a)) (row_at h' d "smallcap")
      = Some (value (lit 553 100)).
Proof.
  eexists _, _. split; [vm_compute; reflexivity|].
  split; vm_compute; reflexivity.
Qed.

(** A row of 22.5% of a pool of 33333 gets 7499.93. *)
Lemma example_fund_amount :
  exists (b : dict float) (h' : heap),
    calculate_fund_amounts [("FD"%string, 0%nat)] (of_int 33333)
      [row "Debt" "Fixed Deposit" (lit 225 10)] = (Ok b, h') /\
    option_map value (dict_get b "FD") = Some (value (lit 749993 100)) /\
    option_map (fun a => value (amount a)) (h' !! 0%nat)
      = Some (value (lit 749993 100)).
Proof.
  eexists _, _. split; [vm_compute; reflexivity|].
  split; vm_compute; reflexivity.
Qed.

(** Holdings {a: 250, b: 2250} against targets {a: 14, b: 86}: the trade
    of a is 14/100 * 2500 - 250 = 100.00000000000006 on doubles, above 100,
    and is reported as 100.0; the trade of b is exactly -100 and is not. *)
Lemma example_trade_above_100 :
  exists trades : dict float,
    calculate_rebalance_trades
      [("a"%string, of_int 250); ("b"%string, of_int 2250)]
      [("a"%string, of_int 14); ("b"%string, of_int 86)] = Ok trades /\
    dict_keys trades = ["a"%string] /\
    option_map value (dict_get trades "a") = Some (value (of_int 100)) /\
    gtb (trade_of [("a"%string, of_int 250); ("b"%string, of_int 2250)]
           [("a"%string, of_int 14); ("b"%string, of_int 86)] "a") (of_int 100)
      = true.
Proof.
  eexists. split; [vm_compute; reflexivity|].
  split; [vm_compute; reflexivity|]. split; vm_compute; reflexivity.
Qed.

(** Holdings {a: -3.0, b: 0.3, c: 2.7} sum to 0.0 on doubles: the trades
    are refused and the allocation is empty. *)
Lemma example_zero_total :
  calculate_rebalance_trades
    [("a"%string, lit (-30) 10); ("b"%string, lit 3 10); ("c"%string, lit 27 10)]
    [("a"%string, of_int 100)] = Raise (ValueError msg_portfolio_value) /\
  calculate_current_allocation
    [("a"%string, lit (-30) 10); ("b"%string, lit 3 10); ("c"%string, lit 27 10)]
    = Ok [].
Proof. split; vm_compute; reflexivity. Qed.

(** Current 5.1 against a target of 0.1 with threshold 5.0: the drift is
    5.0 on doubles and the fund is reported. *)
Lemma example_drift_at_threshold (fmt_1f : float -> string) :
  fst (check_rebalancing_needed fmt_1f
         [("a"%string, {| val := lit 51 10; text := "5.1" |})]
         [("a"%string, {| val := lit 1 10; text := "0.1" |})] (of_int 5)) = true /\
  value (drift_of [("a"%string, {| val := lit 51 10; text := "5.1" |})]
           ("a"%string, {| val := lit 1 10; text := "0.1" |}))
    = value (of_int 5).
Proof.
  set (cur := [("a"%string, {| val := lit 51 10; text := "5.1" |})]).
  set (kv := ("a"%string, {| val := lit 1 10; text := "0.1" |})).
  assert (G : geb (drift_of cur kv) (of_int 5) = true) by (vm_compute; reflexivity).
  split; [|vm_compute; reflexivity].
  unfold check_rebalancing_needed. rewrite DblFacts.dbl_drift_loop.
  rewrite filter_cons, filter_nil, decide_True by exact G. reflexivity.
Qed.

(** A row of 0.03% with a threshold of 0.105: the upper bound is 0.14,
    since 0.03 + 0.105 is just above 0.135 on doubles. *)
Lemma example_band :
  exists t : dict (float * float),
    set_rebalancing_triggers [("largecap"%string, 0%nat)] (lit 105 1000)
      [row "Equity" "Largecap" (lit 3 100)]
    = (Ok t, [row "Equity" "Largecap" (lit 3 100)]) /\
    option_map (fun b => (value (fst b), value (snd b))) (dict_get t "largecap")
      = Some (value (of_int 0), value (lit 14 100)).
Proof.
  eexists. split; [vm_compute; reflexivity|]. vm_compute. reflexivity.
Qed.

(** Holdings {a: 109, b: 691}: the share of a is 13.63. *)
Lemma example_share :
  exists t : dict float,
    calculate_current_allocation
      [("a"%string, of_int 109); ("b"%string, of_int 691)] = Ok t /\
    option_map value (dict_get t "a") = Some (value (lit 1363 100)).
Proof.
  eexists. split; [vm_compute; reflexivity|]. vm_compute. reflexivity.
Qed.

(** The engine on the sample profile (age 30, no risk profile): equity is
    70, the strategy is aggressive growth, and after [create_plan] the
    objects in the store carry the lump-sum amounts, not the monthly ones. *)
Lemma example_sample_plan :
  match create_plan sample_profile None long_term false (of_int 0) (of_int 5) 0 [] with
  | (Ok plan, h') =>
      (value (equity_percentage plan),
       equity_allocations plan, debt_allocations plan,
       map (fun a => (subcategory a, value (percentage a), value (amount a))) h',
       map (fun kv => (fst kv, value (snd kv))) (monthly_sip_breakdown plan))
  | (Raise _, _) => (None, [], [], [], [])
  end =
  (value (of_int 70),
   [("largecap"%string, 0%nat); ("midcap"%string, 1%nat); ("smallcap"%string, 2%nat)],
   [("FD"%string, 3%nat)],
   [("Largecap"%string, value (lit 245 10), value (of_int 12250));
    ("Midcap"%string, value (lit 245 10), value (of_int 12250));
    ("Smallcap"%string, value (of_int 21), value (of_int 10500));
    ("Fd"%string, value (of_int 30), value (of_int 15000))],
   [("largecap"%string, value (of_int 7350)); ("midcap"%string, value (of_int 7350));
    ("smallcap"%string, value (of_int 6300)); ("FD"%string, value (of_int 9000))]).
Proof. vm_compute. reflexivity. Qed.

(** The holdings of the class docstring: sell 1000 of large cap, buy 1000
    of mid cap. *)
Lemma example_docstring_trades :
  match calculate_rebalance_trades
          [("largecap"%string, of_int 120000); ("midcap"%string, of_int 50000)]
          [("largecap"%string, of_int 70); ("midcap"%string, of_int 30)] with
  | Ok trades => map (fun kv => (fst kv, value (snd kv))) trades
  | Raise _ => []
  end =
  [("largecap"%string, value (of_int (-1000))); ("midcap"%string, value (of_int 1000))].
Proof. vm_compute. reflexivity. Qed.

(** A sector share of 15 on an equity percentage of 1/4: the row holds
    0.04, the rounding of 0.0375. *)
Lemma example_sector_row :
  match allocate_equity (lit 1 4) index_core true (of_int 15) [] with
  | (Ok d, h') => option_map (fun a => value (percentage a)) (row_at h' d "sector")
  | (Raise _, _) => None
  end = Some (value (lit 4 100)).
Proof. vm_compute. reflexivity. Qed.

End DblExamples.
